(** * A shallow embedding of the storefront's accounting and notification logic

    The development follows the TypeScript sources of the application:

    - [src/utils/errorHandling.ts]: [withRetry], [getErrorMessage],
      [isNetworkError], [createErrorMessage];
    - [contexts/ErrorContext.tsx]: the notification bus ([addError],
      [removeError]), and [components/ErrorToast.tsx], its buttons;
    - [hooks/useUserCoins.ts]: the coin ledger;
    - [hooks/useEpisodeUnlocks.ts]: the unlock gate;
    - [hooks/useWatchlist.ts] and [hooks/useWatchlistCategories.ts];
    - [components/MovieDetailPage.tsx]: the episodes of a series and the
      handler that spends coins and unlocks an episode;
    - [components/AuthPage.tsx]: the validation of the form;
    - the SQL migrations, which fix the constraints of the tables the hooks
      talk to.

    Conventions of the model.

    - A JavaScript [number] holding a coin amount, an id or a duration is an
      integer of [Z]; a timestamp is the number of milliseconds on the clock.
    - An [async] function is a state transformer that either returns or
      throws ([Async]); it runs to completion, so the interleaving of two
      calls at their [await]s is not modelled, and the callbacks of the
      notification bus that fall due while [withRetry] waits fire at the
      next [elapse].
    - A function of a hook is a closure over the values of the render that
      created it ([userId] and the state cells as they were then); the setters
      write the current state.  The closure values are the [Render] argument,
      the current state is threaded through the monad.  A closure handed to a
      notification as its retry action is recorded by the call it makes
      ([RetryAction]), a [setTimeout] callback by what it does
      ([TimerAction]).
    - The hosted database is a record of tables with the constraints of the
      migrations; each request first consults the list [net] of transient
      faults, and reaches the database when the head of the list is [None]
      (or the list is exhausted).  A request that fails leaves the tables as
      they were.  The row-level-security policies restrict every statement
      to the rows of the signed-in user, whose id is the [userId] the hooks
      receive.
    - The ids of users and of the rows of the watchlist tables are uuids,
      which the model holds and compares as texts ([is_uuid] is the form
      the database prints).
    - A [setTimeout] callback waits the delay it was given when that is
      between 1 and 2^31 - 1 ms ([timer_delay]).
    - The values a [catch] clause can receive are those of [JsValue]:
      primitive values, functions, arrays, instances of [Error] as the
      constructor leaves them, and objects with data properties.
    - [console.error] and [console.log] are left out. *)

From Stdlib Require Import ZArith List String Ascii Bool Lia DecimalString.
From stdpp Require Import base tactics option list gmap sets strings.

Open Scope string_scope.
Open Scope list_scope.
Open Scope Z_scope.

(** ** JavaScript values *)

(** The values a [catch] clause may receive, as far as the model goes.

    - A [JsNumber] is an integer; [Number.prototype.toString] prints all its
      digits as long as it is a safe integer ([is_safe_integer]).
    - A [JsFunction] is a function, by its source text and by what a call
      of it as a method without arguments completes with.
    - A [JsArray] is an array as a literal creates it.
    - A [JsError] is an instance of [Error] as its constructor leaves it:
      [message] is the string the constructor was given, [name] the string
      its class sets.
    - A [JsObject] is an ordinary object with data properties under string
      keys, which inherits [toString] and [valueOf] from [Object.prototype]
      unless it has members of its own under these names; a [JsBare] is
      such an object without a prototype ([Object.create(null)]).

    An [Error] whose [message] was assigned another value than a string, an
    object with accessor properties, with properties under symbol keys or
    with another prototype (the instance of a class, a [Date]), and a
    [Proxy] are not values of this type. *)
#[warnings="-register-all"]
Inductive JsValue : Type :=
| JsUndefined
| JsNull
| JsBoolean (b : bool)
| JsNumber (n : Z)
| JsString (s : string)
| JsSymbol (description : string)
| JsFunction (source : string) (call : Completion)
| JsArray (elements : list JsValue)
| JsError (name message : string)
| JsObject (props : list (string * JsValue))
| JsBare (props : list (string * JsValue))
(** What a call completes with: the value it returns, or the value it
    throws. *)
with Completion : Type :=
| Normal (value : JsValue)
| Abrupt (thrown : JsValue).

(** The completion of a computation: a value, or a thrown JavaScript value. *)
Inductive outcome (A : Type) : Type :=
| Returned (a : A)
| Thrown (e : JsValue).

Arguments Returned {A} a.
Arguments Thrown {A} e.

Definition TypeError (msg : string) : JsValue := JsError "TypeError" msg.

(** [Number.isSafeInteger]: the integers every one of which is a number of
    its own, [-(2^53 - 1) .. 2^53 - 1]. *)
Definition is_safe_integer (n : Z) : bool :=
  (-9007199254740991 <=? n) && (n <=? 9007199254740991).

(** [Number.prototype.toString] on a safe integer, which prints its digits
    (from 10^21 on, a number is printed with an exponent, and between 2^53
    and 10^21 with the digits that tell it from its neighbours, followed by
    zeros). *)
Definition string_of_Z (n : Z) : string := NilZero.string_of_int (Z.to_int n).

(** [String.prototype.includes]. *)
Fixpoint includes (hay needle : string) : bool :=
  String.prefix needle hay ||
  match hay with
  | EmptyString => false
  | String _ hay' => includes hay' needle
  end.

Definition dquote : string := String "034"%char EmptyString.

Fixpoint assoc (k : string) (props : list (string * JsValue)) : option JsValue :=
  match props with
  | [] => None
  | (k', v) :: rest => if String.eqb k k' then Some v else assoc k rest
  end.

(** [typeof v]. *)
Definition typeof (v : JsValue) : string :=
  match v with
  | JsUndefined => "undefined"
  | JsNull => "object"
  | JsBoolean _ => "boolean"
  | JsNumber _ => "number"
  | JsString _ => "string"
  | JsSymbol _ => "symbol"
  | JsFunction _ _ => "function"
  | JsArray _ | JsError _ _ | JsObject _ | JsBare _ => "object"
  end.

(** [ToBoolean], the test of [&&] and [if]. *)
Definition truthy (v : JsValue) : bool :=
  match v with
  | JsUndefined | JsNull => false
  | JsBoolean b => b
  | JsNumber n => negb (n =? 0)
  | JsString s => negb (String.eqb s "")
  | JsSymbol _ | JsFunction _ _ | JsArray _ | JsError _ _ | JsObject _ | JsBare _ => true
  end.

(** [key in v]: a [TypeError] when [v] is not an object.  An [Error], an
    array and a function have members of their own and of their prototypes;
    the model answers for the names the sources can ask about. *)
Definition js_in (key : string) (v : JsValue) : outcome bool :=
  match v with
  | JsError _ _ => Returned (String.eqb key "message" || String.eqb key "name")
  | JsObject props | JsBare props =>
      Returned (match assoc key props with Some _ => true | None => false end)
  | JsArray _ => Returned (String.eqb key "length")
  | JsFunction _ _ => Returned (String.eqb key "name" || String.eqb key "length")
  | JsUndefined | JsNull | JsBoolean _ | JsNumber _ | JsString _ | JsSymbol _ =>
      Thrown (TypeError "Cannot use 'in' operator to search for a key in a primitive")
  end.

(** [v.key]: a [TypeError] on [undefined] and [null], [undefined] for a
    member that is absent. *)
Definition js_get (v : JsValue) (key : string) : outcome JsValue :=
  match v with
  | JsUndefined | JsNull =>
      Thrown (TypeError "Cannot read properties of undefined or null")
  | JsError name message =>
      Returned (if String.eqb key "message" then JsString message
                else if String.eqb key "name" then JsString name
                else JsUndefined)
  | JsObject props | JsBare props =>
      Returned (match assoc key props with Some x => x | None => JsUndefined end)
  | JsArray elements =>
      Returned (if String.eqb key "length" then JsNumber (Z.of_nat (length elements))
                else JsUndefined)
  | JsBoolean _ | JsNumber _ | JsString _ | JsSymbol _ | JsFunction _ _ => Returned JsUndefined
  end.

(** [ToString] on a value that is not an object; [None] on an object.  A
    symbol cannot be converted. *)
Definition ToString_primitive (v : JsValue) : option (outcome string) :=
  match v with
  | JsUndefined => Some (Returned "undefined")
  | JsNull => Some (Returned "null")
  | JsBoolean b => Some (Returned (if b then "true" else "false"))
  | JsNumber n => Some (Returned (string_of_Z n))
  | JsString s => Some (Returned s)
  | JsSymbol _ => Some (Thrown (TypeError "Cannot convert a Symbol value to a string"))
  | JsFunction _ _ | JsArray _ | JsError _ _ | JsObject _ | JsBare _ => None
  end.

(** One round of [OrdinaryToPrimitive]: the method [name] of the object is
    looked up, among its own members first and then on its prototype, where
    [inherited] is what the method found there gives.  A member that is not
    callable is passed over, and so is a method whose result is an object
    ([None]); what the method throws is thrown, and what is left of its
    result is converted. *)
Definition convert_by (name : string) (props : list (string * JsValue))
    (inherited : option (outcome string)) : option (outcome string) :=
  match assoc name props with
  | Some (JsFunction _ (Normal result)) => ToString_primitive result
  | Some (JsFunction _ (Abrupt e)) => Some (Thrown e)
  | Some _ => None
  | None => inherited
  end.

(** [ToString] on an object with the members [props]: [ToPrimitive] with
    the hint [string] tries [toString], then [valueOf], and throws a
    [TypeError] when neither gives a primitive value.  [toString] is what
    [toString] gives when it is the one of the prototype; the [valueOf] of
    [Object.prototype] returns the object itself, and is passed over. *)
Definition OrdinaryToPrimitive (props : list (string * JsValue))
    (toString : option (outcome string)) : outcome string :=
  match convert_by "toString" props toString with
  | Some o => o
  | None =>
      match convert_by "valueOf" props None with
      | Some o => o
      | None => Thrown (TypeError "Cannot convert object to primitive value")
      end
  end.

(** The abstract operation [ToString].  An ordinary object converts through
    its [toString], which is [Object.prototype.toString] unless the object
    has a member of that name, an [Error] through [Error.prototype.toString],
    a function through [Function.prototype.toString], an array through
    [join], which converts its elements in turn ([null] and [undefined] to
    the empty string); a symbol, and an object that has neither a
    [toString] nor a [valueOf] that gives a primitive value, cannot be
    converted, and the conversion throws a [TypeError]. *)
Fixpoint ToString (v : JsValue) : outcome string :=
  match v with
  | JsUndefined => Returned "undefined"
  | JsNull => Returned "null"
  | JsBoolean b => Returned (if b then "true" else "false")
  | JsNumber n => Returned (string_of_Z n)
  | JsString s => Returned s
  | JsSymbol _ => Thrown (TypeError "Cannot convert a Symbol value to a string")
  | JsFunction source _ => Returned source
  | JsArray elements =>
      (fix join (l : list JsValue) : outcome string :=
         match l with
         | [] => Returned ""
         | x :: rest =>
             match
               match x with
               | JsUndefined | JsNull => Returned ""
               | _ => ToString x
               end
             with
             | Thrown e => Thrown e
             | Returned s =>
                 match rest with
                 | [] => Returned s
                 | _ :: _ =>
                     match join rest with
                     | Thrown e => Thrown e
                     | Returned t => Returned (String.append s (String.append "," t))
                     end
                 end
             end
         end) elements
  | JsError name message =>
      Returned (if String.eqb name "" then message
                else if String.eqb message "" then name
                else String.append name (String.append ": " message))
  | JsObject props => OrdinaryToPrimitive props (Some (Returned "[object Object]"))
  | JsBare props => OrdinaryToPrimitive props None
  end.

(** [String(v)]: [ToString], but for a symbol, which it describes. *)
Definition js_String (v : JsValue) : outcome string :=
  match v with
  | JsSymbol description =>
      Returned (String.append "Symbol(" (String.append description ")"))
  | _ => ToString v
  end.

(** The numbers in [v] are safe integers, those [ToString] prints as
    JavaScript does. *)
Fixpoint safe_integers (v : JsValue) : bool :=
  match v with
  | JsNumber n => is_safe_integer n
  | JsFunction _ (Normal value) => safe_integers value
  | JsFunction _ (Abrupt thrown) => safe_integers thrown
  | JsArray elements =>
      (fix all (l : list JsValue) : bool :=
         match l with
         | [] => true
         | x :: rest => safe_integers x && all rest
         end) elements
  | JsObject props | JsBare props =>
      (fix all (l : list (string * JsValue)) : bool :=
         match l with
         | [] => true
         | (_, x) :: rest => safe_integers x && all rest
         end) props
  | JsUndefined | JsNull | JsBoolean _ | JsString _ | JsSymbol _ | JsError _ _ => true
  end.

(** ** [src/utils/errorHandling.ts]: [getErrorMessage] *)

Definition unexpected_error : string := "An unexpected error occurred".

Definition getErrorMessage (error : JsValue) : outcome string :=
  match error with
  | JsError _ message =>
      (* error instanceof Error: return error.message *)
      Returned message
  | JsString s =>
      (* typeof error === 'string': return error *)
      Returned s
  | _ =>
      match
        (if truthy error then
           if String.eqb (typeof error) "object" then js_in "message" error
           else Returned false
         else Returned false)
      with
      | Thrown e => Thrown e
      | Returned true =>
          match js_get error "message" with
          | Returned m => js_String m
          | Thrown e => Thrown e
          end
      | Returned false => Returned unexpected_error
      end
  end.

(** ** Asynchronous computations

    A promise over a state [S]: running it yields a completion and the state
    it leaves.  What a computation did before it threw stays done. *)

Definition Async (S A : Type) : Type := S -> outcome A * S.

Definition ret {S A} (a : A) : Async S A := fun s => (Returned a, s).

Definition throw {S A} (e : JsValue) : Async S A := fun s => (Thrown e, s).

Definition bind {S A B} (m : Async S A) (k : A -> Async S B) : Async S B :=
  fun s =>
    match m s with
    | (Returned a, s') => k a s'
    | (Thrown e, s') => (Thrown e, s')
    end.

(** [try { m } catch (e) { handler e }]. *)
Definition try_catch {S A} (m : Async S A) (handler : JsValue -> Async S A) : Async S A :=
  fun s =>
    match m s with
    | (Returned a, s') => (Returned a, s')
    | (Thrown e, s') => handler e s'
    end.

(** [try { m } finally { f }], for an [f] that does not throw or return. *)
Definition finally {S A} (m : Async S A) (f : S -> S) : Async S A :=
  fun s => let '(o, s') := m s in (o, f s').

Definition gets {S A} (f : S -> A) : Async S A := fun s => (Returned (f s), s).

Definition modify {S} (f : S -> S) : Async S unit := fun s => (Returned tt, f s).

Definition lift_outcome {S A} (o : outcome A) : Async S A := fun s => (o, s).

(** A computation on the second component of the state. *)
Definition on_world {H W A} (m : Async W A) : Async (H * W) A :=
  fun '(h, w) => let '(o, w') := m w in (o, (h, w')).

(** A setter of a state cell of the hook. *)
Definition set_state {H W} (f : H -> H) : Async (H * W) unit :=
  fun '(h, w) => (Returned tt, (f h, w)).

Declare Scope async_scope.
Delimit Scope async_scope with async.
Notation "x <~ m ; k" := (bind m (fun x => k))
  (at level 20, m at level 100, k at level 200, only parsing) : async_scope.
Open Scope async_scope.

(** ** [src/utils/errorHandling.ts]: [withRetry] *)

Record RetryOptions : Type := {
  maxRetries : option Z;
  delay : option Z;
  backoff : option bool
}.

Definition defaultRetryOptions : RetryOptions :=
  {| maxRetries := Some 3; delay := Some 1000; backoff := Some true |}.

(** [const { maxRetries = 3, delay = 1000, backoff = true } = options]. *)
Definition maxRetries_of (options : RetryOptions) : Z := default 3 (maxRetries options).
Definition delay_of (options : RetryOptions) : Z := default 1000 (delay options).
Definition backoff_of (options : RetryOptions) : bool := default true (backoff options).

(** [backoff ? delay * Math.pow(2, attempt) : delay]. *)
Definition currentDelay (options : RetryOptions) (attempt : Z) : Z :=
  if backoff_of options then delay_of options * 2 ^ attempt else delay_of options.

Section Retry.

Context {S T : Type}.

(** [await new Promise(resolve => setTimeout(resolve, ms))] on the state. *)
Variable sleep : Z -> S -> S.
Variable operation : Async S T.
Variable options : RetryOptions.

(** The [for] loop; [fuel] counts the iterations that remain, [attempt] and
    [lastError] are the variables of the source.  Leaving the loop, by
    [break] or by its test, reaches [throw lastError]. *)
Fixpoint retry_loop (fuel : nat) (attempt : Z) (lastError : JsValue) : Async S T :=
  match fuel with
  | O => throw lastError
  | Datatypes.S fuel' =>
      if attempt <=? maxRetries_of options then
        try_catch operation (fun error =>
          if attempt =? maxRetries_of options then throw error
          else
            _ <~ modify (sleep (currentDelay options attempt)) ;
            retry_loop fuel' (attempt + 1) error)
      else throw lastError
  end.

(** The loop runs for [attempt = 0 .. maxRetries]; [lastError] starts
    unassigned. *)
Definition withRetry : Async S T :=
  retry_loop (Z.to_nat (maxRetries_of options + 1)) 0 JsUndefined.

End Retry.

(** ** [contexts/ErrorContext.tsx]: the notification record *)

Module Severity.
Inductive t : Type := error | warning | info | success.

Definition eqb (a b : t) : bool :=
  match a, b with
  | error, error | warning, warning | info, info | success, success => true
  | _, _ => false
  end.
End Severity.

(** The callbacks handed to a notification, by the call they make. *)
Inductive RetryAction : Type :=
| RetryFetchBalance
| RetryUpdateBalance (newCoins newBonusCoins : Z)
| RetryFetchUnlockedEpisodes
| RetryUnlockEpisode (movieId unlockCost : Z)
| RetryFetchWatchlist
| RetryFetchCategories
| RetryDeleteCategory (categoryId : string).

Module ErrorMessage.
Record t : Type := {
  id : string;
  message : string;
  type : Severity.t;
  duration : option Z;
  retryAction : option RetryAction;
  retryLabel : option string
}.
End ErrorMessage.

(** [Omit<ErrorMessage, 'id'>]. *)
Module ErrorDraft.
Record t : Type := {
  message : string;
  type : Severity.t;
  duration : option Z;
  retryAction : option RetryAction;
  retryLabel : option string
}.
End ErrorDraft.

(** [src/utils/errorHandling.ts]: [createErrorMessage]; [type] defaults to
    ['error'] at the call sites that leave it out. *)
Definition createErrorMessage (message : string) (type : Severity.t)
    (retryAction : option RetryAction) (retryLabel : option string) : ErrorDraft.t :=
  {| ErrorDraft.message := message;
     ErrorDraft.type := type;
     ErrorDraft.retryAction := retryAction;
     ErrorDraft.retryLabel := retryLabel;
     ErrorDraft.duration := Some (if Severity.eqb type Severity.success then 3000 else 5000) |}.

(** ** The tables of the migrations *)

Module Movie.
Record t : Type := {
  id : Z;
  title : string;
  genre : string;
  view_count : string;
  poster_url : string;
  landscape_poster_url : string;
  badge : option string;
  episodes : option Z;
  duration_seconds : option Z;
  created_at : Z;
  series_id : option string;
  episode_number : option Z
}.
End Movie.

Module UserBalance.
Record t : Type := {
  user_id : string;
  coins : Z;
  bonus_coins : Z;
  created_at : Z;
  updated_at : Z
}.
End UserBalance.

Module UserEpisodeUnlock.
Record t : Type := {
  id : string;
  user_id : string;
  movie_id : Z;
  unlocked_at : Z;
  created_at : Z
}.
End UserEpisodeUnlock.

Module UserWatchlistCategory.
Record t : Type := {
  id : string;
  user_id : string;
  name : string;
  color : string;
  created_at : Z;
  updated_at : Z
}.
End UserWatchlistCategory.

Module UserWatchlistItem.
Record t : Type := {
  id : string;
  user_id : string;
  movie_id : Z;
  category_id : option string;
  created_at : Z
}.
End UserWatchlistItem.

Record Database : Type := {
  movies : list Movie.t;
  user_balances : list UserBalance.t;
  user_episode_unlocks : list UserEpisodeUnlock.t;
  user_watchlist : list UserWatchlistItem.t;
  user_watchlist_categories : list UserWatchlistCategory.t
}.

(** The error object of the database client. *)
Record PostgrestError : Type := {
  pg_message : string;
  pg_details : string;
  pg_hint : string;
  pg_code : string
}.

(** The error as the value a [throw result.error] throws. *)
Definition js_of_error (e : PostgrestError) : JsValue :=
  JsObject [("message", JsString (pg_message e));
            ("details", JsString (pg_details e));
            ("hint", JsString (pg_hint e));
            ("code", JsString (pg_code e))].

(** SQLSTATE 23505, as PostgreSQL words it. *)
Definition unique_violation (constraint : string) : PostgrestError :=
  {| pg_message :=
       String.append "duplicate key value violates unique constraint "
         (String.append dquote (String.append constraint dquote));
     pg_details := "Key already exists.";
     pg_hint := "";
     pg_code := "23505" |}.

(** SQLSTATE 23503. *)
Definition foreign_key_violation (table constraint : string) : PostgrestError :=
  {| pg_message :=
       String.append "insert or update on table "
         (String.append dquote (String.append table
           (String.append dquote (String.append " violates foreign key constraint "
             (String.append dquote (String.append constraint dquote))))));
     pg_details := "Key is not present in the referenced table.";
     pg_hint := "";
     pg_code := "23503" |}.

(** SQLSTATE 22003: a value outside the columns' type [integer]. *)
Definition integer_out_of_range : PostgrestError :=
  {| pg_message := "integer out of range";
     pg_details := "";
     pg_hint := "";
     pg_code := "22003" |}.

(** [maybeSingle()] on more than one row. *)
Definition multiple_rows : PostgrestError :=
  {| pg_message := "JSON object requested, multiple (or no) rows returned";
     pg_details := "Results contain more than one row";
     pg_hint := "";
     pg_code := "PGRST116" |}.

Definition is_integer (n : Z) : bool := (-2147483648 <=? n) && (n <=? 2147483647).

(** ** The world outside the hooks *)

(** What a [setTimeout] callback does when it fires. *)
Inductive TimerAction : Type :=
| RemoveError (id : string).

Record Timer : Type := {
  due : Z;
  fires : TimerAction
}.

(** The statements the hooks send to the database. *)
Inductive Request : Type :=
| SelectBalance (user : string)
| UpdateBalance (user : string) (coins bonus_coins : Z)
| SelectUnlocks (user : string)
| InsertUnlock (user : string) (movie : Z)
| SelectWatchlist (user : string)
| SelectCategories (user : string)
| DeleteCategory (category user : string).

(** - [clock]: [Date.now()], in milliseconds;
    - [random]: what the next draws of [Math.random] and of
      [gen_random_uuid()] print as;
    - [timers]: the pending [setTimeout] callbacks of the notification bus;
    - [sleeps]: the delays [withRetry] has waited for, oldest first;
    - [errors]: the state cell of [ErrorProvider];
    - [net]: the transient faults of the next requests ([None]: the request
      reaches the database);
    - [requests]: the statements sent so far, oldest first;
    - [db]: the tables. *)
Record World : Type := {
  clock : Z;
  random : list string;
  timers : list Timer;
  sleeps : list Z;
  errors : list ErrorMessage.t;
  net : list (option PostgrestError);
  requests : list Request;
  db : Database
}.

Definition set_errors (f : list ErrorMessage.t -> list ErrorMessage.t) (w : World) : World :=
  {| clock := clock w; random := random w; timers := timers w; sleeps := sleeps w;
     errors := f (errors w); net := net w; requests := requests w; db := db w |}.

Definition set_timers (f : list Timer -> list Timer) (w : World) : World :=
  {| clock := clock w; random := random w; timers := f (timers w); sleeps := sleeps w;
     errors := errors w; net := net w; requests := requests w; db := db w |}.

Definition set_random (r : list string) (w : World) : World :=
  {| clock := clock w; random := r; timers := timers w; sleeps := sleeps w;
     errors := errors w; net := net w; requests := requests w; db := db w |}.

Definition set_db (d : Database) (w : World) : World :=
  {| clock := clock w; random := random w; timers := timers w; sleeps := sleeps w;
     errors := errors w; net := net w; requests := requests w; db := d |}.

(** The request [req] leaves the client and meets the next entry of [net]. *)
Definition send (req : Request) (w : World) : option PostgrestError * World :=
  (match net w with
   | fault :: _ => fault
   | [] => None
   end,
   {| clock := clock w; random := random w; timers := timers w; sleeps := sleeps w;
      errors := errors w; net := tail (net w); requests := requests w ++ [req];
      db := db w |}).

(** The time the callback of [setTimeout(callback, ms)] waits.  A delay
    between 1 and 2^31 - 1 ms is kept; with any other delay the callback
    runs at once, within 1 ms as Node.js has it (a browser reads the delay
    modulo 2^32 as a signed 32-bit integer and waits 0 ms for a negative
    one; the two agree between 1 and 2^31 - 1, the range the statements
    about timers keep to). *)
Definition timer_delay (ms : Z) : Z :=
  if (1 <=? ms) && (ms <=? 2147483647) then ms else 1.

(** The wait between two attempts of [withRetry],
    [await new Promise(resolve => setTimeout(resolve, ms))]; [sleeps]
    records the delay that was asked for. *)
Definition sleep (ms : Z) (w : World) : World :=
  {| clock := clock w + timer_delay ms; random := random w; timers := timers w;
     sleeps := sleeps w ++ [ms];
     errors := errors w; net := net w; requests := requests w; db := db w |}.

(** [Math.random().toString(36).substr(2, 9)], and the text of a fresh uuid. *)
Definition draw (w : World) : string * World :=
  (match random w with
   | r :: _ => r
   | [] => ""
   end, set_random (tail (random w)) w).

(** ** [contexts/ErrorContext.tsx]: the notification bus *)

(** [setErrors(prev => prev.filter(error => error.id !== id))]. *)
Definition removeError (id : string) (w : World) : World :=
  set_errors (List.filter (fun e => negb (String.eqb (ErrorMessage.id e) id))) w.

Definition clearAllErrors (w : World) : World := set_errors (fun _ => []) w.

(** [error.duration || 5000]: the default replaces a duration that is
    missing or [0]. *)
Definition duration_or_default (d : option Z) : Z :=
  match d with
  | Some n => if n =? 0 then 5000 else n
  | None => 5000
  end.

Definition addError (draft : ErrorDraft.t) (w : World) : World :=
  let '(suffix, w1) := draw w in
  let id := String.append (string_of_Z (clock w)) suffix in
  let newError :=
    {| ErrorMessage.id := id;
       ErrorMessage.message := ErrorDraft.message draft;
       ErrorMessage.type := ErrorDraft.type draft;
       ErrorMessage.retryAction := ErrorDraft.retryAction draft;
       ErrorMessage.retryLabel := ErrorDraft.retryLabel draft;
       ErrorMessage.duration := Some (duration_or_default (ErrorDraft.duration draft)) |} in
  let w2 := set_errors (fun prev => prev ++ [newError]) w1 in
  (* if (newError.duration && newError.duration > 0) setTimeout(...) *)
  let d := duration_or_default (ErrorDraft.duration draft) in
  if negb (d =? 0) && (0 <? d) then
    set_timers
      (fun ts => ts ++ [{| due := clock w + timer_delay d; fires := RemoveError id |}]) w2
  else w2.

Definition fire (a : TimerAction) (w : World) : World :=
  match a with
  | RemoveError id => removeError id w
  end.

Definition is_due (now : Z) (t : Timer) : bool := due t <=? now.

(** [ms] milliseconds pass and the event loop runs the callbacks that are
    due, in the order they were set. *)
Definition elapse (ms : Z) (w : World) : World :=
  let now := clock w + ms in
  let due_timers := List.filter (fun t => is_due now t) (timers w) in
  let w1 :=
    {| clock := now; random := random w;
       timers := List.filter (fun t => negb (is_due now t)) (timers w);
       sleeps := sleeps w; errors := errors w; net := net w;
       requests := requests w; db := db w |} in
  fold_left (fun acc t => fire (fires t) acc) due_timers w1.

(** ** The database client *)

(** [{ data, error }], the value every query resolves to. *)
Module Response.
Record t (A : Type) : Type := {
  data : option A;
  error : option PostgrestError
}.
Arguments data {A} _.
Arguments error {A} _.
Definition ok {A} (a : A) : t A := {| data := Some a; error := None |}.
Definition failed {A} (e : PostgrestError) : t A := {| data := None; error := Some e |}.
End Response.

(** A statement [exec], which reads the time of the database and either
    fails or answers and leaves the tables changed. *)
Definition query {A} (req : Request)
    (exec : Z -> Database -> PostgrestError + A * Database) : Async World (Response.t A) :=
  fun w =>
    let '(fault, w1) := send req w in
    match fault with
    | Some e => (Returned (Response.failed e), w1)
    | None =>
        match exec (clock w1) (db w1) with
        | inl e => (Returned (Response.failed e), w1)
        | inr (a, d) => (Returned (Response.ok a), set_db d w1)
        end
    end.

(** [if (result.error) throw result.error; return result;], the body of
    every operation handed to [withRetry]. *)
Definition throw_on_error {A} (q : Async World (Response.t A)) : Async World (Response.t A) :=
  result <~ q ;
  match Response.error result with
  | Some e => throw (js_of_error e)
  | None => ret result
  end.

(** [const { data, error } = await withRetry(...); if (error) throw error;] *)
Definition retried {A} (q : Async World (Response.t A)) : Async World (option A) :=
  result <~ withRetry sleep (throw_on_error q) defaultRetryOptions ;
  match Response.error result with
  | Some e => throw (js_of_error e)
  | None => ret (Response.data result)
  end.

(** Stable insertion sort, for [order(...)]. *)
Fixpoint insert_by {A} (le : A -> A -> bool) (x : A) (l : list A) : list A :=
  match l with
  | [] => [x]
  | y :: l' => if le x y then x :: y :: l' else y :: insert_by le x l'
  end.

Definition sort_by {A} (le : A -> A -> bool) (l : list A) : list A :=
  fold_right (insert_by le) [] l.

(** *** [user_balances] *)

(** [.select('*').eq('user_id', userId).maybeSingle()]. *)
Definition select_balance (user : string) : Async World (Response.t (option UserBalance.t)) :=
  query (SelectBalance user) (fun _ d =>
    match List.filter (fun r => String.eqb (UserBalance.user_id r) user) (user_balances d) with
    | [] => inr (None, d)
    | [r] => inr (Some r, d)
    | _ => inl multiple_rows
    end).

Definition with_balance (coins bonus_coins now : Z) (r : UserBalance.t) : UserBalance.t :=
  {| UserBalance.user_id := UserBalance.user_id r;
     UserBalance.coins := coins;
     UserBalance.bonus_coins := bonus_coins;
     UserBalance.created_at := UserBalance.created_at r;
     UserBalance.updated_at := now |}.

Definition set_user_balances (rows : list UserBalance.t) (d : Database) : Database :=
  {| movies := movies d; user_balances := rows;
     user_episode_unlocks := user_episode_unlocks d;
     user_watchlist := user_watchlist d;
     user_watchlist_categories := user_watchlist_categories d |}.

(** [.update({ coins, bonus_coins }).eq('user_id', userId)] on the tables; the
    trigger [update_user_balances_updated_at] stamps the rows it changes. *)
Definition update_balance_rows (user : string) (coins bonus_coins : Z)
    (now : Z) (d : Database) : PostgrestError + unit * Database :=
  if is_integer coins && is_integer bonus_coins then
    inr (tt, set_user_balances
               (map (fun r => if String.eqb (UserBalance.user_id r) user
                              then with_balance coins bonus_coins now r else r)
                    (user_balances d)) d)
  else inl integer_out_of_range.

Definition update_balance (user : string) (coins bonus_coins : Z) : Async World (Response.t unit) :=
  query (UpdateBalance user coins bonus_coins) (update_balance_rows user coins bonus_coins).

(** *** [user_episode_unlocks] *)

Definition unlock_matches (user : string) (movie : Z) (r : UserEpisodeUnlock.t) : bool :=
  String.eqb (UserEpisodeUnlock.user_id r) user && (UserEpisodeUnlock.movie_id r =? movie).

Definition set_user_episode_unlocks (rows : list UserEpisodeUnlock.t) (d : Database) : Database :=
  {| movies := movies d; user_balances := user_balances d;
     user_episode_unlocks := rows;
     user_watchlist := user_watchlist d;
     user_watchlist_categories := user_watchlist_categories d |}.

(** [.select('movie_id').eq('user_id', userId)]. *)
Definition select_unlocks (user : string) : Async World (Response.t (list Z)) :=
  query (SelectUnlocks user) (fun _ d =>
    inr (map UserEpisodeUnlock.movie_id
           (List.filter (fun r => String.eqb (UserEpisodeUnlock.user_id r) user)
              (user_episode_unlocks d)), d)).

(** [.insert({ user_id, movie_id })] on the tables, under
    [UNIQUE(user_id, movie_id)] and the foreign key to [movies]; the row gets
    the uuid [uuid] and the time of the database. *)
Definition insert_unlock_row (user : string) (movie : Z) (uuid : string)
    (now : Z) (d : Database) : PostgrestError + unit * Database :=
  if negb (is_integer movie) then inl integer_out_of_range
  else if existsb (unlock_matches user movie) (user_episode_unlocks d) then
    inl (unique_violation "user_episode_unlocks_user_id_movie_id_key")
  else if negb (existsb (fun m => Movie.id m =? movie) (movies d)) then
    inl (foreign_key_violation "user_episode_unlocks" "user_episode_unlocks_movie_id_fkey")
  else
    inr (tt, set_user_episode_unlocks
               (user_episode_unlocks d ++
                [{| UserEpisodeUnlock.id := uuid;
                    UserEpisodeUnlock.user_id := user;
                    UserEpisodeUnlock.movie_id := movie;
                    UserEpisodeUnlock.unlocked_at := now;
                    UserEpisodeUnlock.created_at := now |}]) d).

(** The uuid is drawn by [gen_random_uuid()]; two uuids do not collide, so
    the primary key raises no error of its own. *)
Definition insert_unlock (user : string) (movie : Z) : Async World (Response.t unit) :=
  fun w =>
    let '(uuid, w0) := draw w in
    query (InsertUnlock user movie) (insert_unlock_row user movie uuid) w0.

(** *** [user_watchlist] and [user_watchlist_categories] *)

(** The columns [id, name, color] of the embedded category. *)
Record CategoryRef : Type := {
  ref_id : string;
  ref_name : string;
  ref_color : string
}.

(** A row of [.select(`*, movie:movies (...), category:user_watchlist_categories (...)`)]. *)
Module WatchlistRow.
Record t : Type := {
  item : UserWatchlistItem.t;
  movie : option Movie.t;
  category : option CategoryRef
}.
End WatchlistRow.

Definition category_ref (c : UserWatchlistCategory.t) : CategoryRef :=
  {| ref_id := UserWatchlistCategory.id c;
     ref_name := UserWatchlistCategory.name c;
     ref_color := UserWatchlistCategory.color c |}.

(** The embedded resources follow the foreign keys; the category is visible
    to its owner only. *)
Definition watchlist_row (user : string) (d : Database) (it : UserWatchlistItem.t) : WatchlistRow.t :=
  {| WatchlistRow.item := it;
     WatchlistRow.movie :=
       find (fun m => Movie.id m =? UserWatchlistItem.movie_id it) (movies d);
     WatchlistRow.category :=
       match UserWatchlistItem.category_id it with
       | Some cid =>
           option_map category_ref
             (find (fun c => String.eqb (UserWatchlistCategory.id c) cid
                             && String.eqb (UserWatchlistCategory.user_id c) user)
                   (user_watchlist_categories d))
       | None => None
       end |}.

(** [.eq('user_id', userId).order('created_at', { ascending: false })]. *)
Definition select_watchlist_rows (user : string) (d : Database) : list WatchlistRow.t :=
  map (watchlist_row user d)
    (sort_by (fun a b => UserWatchlistItem.created_at b <=? UserWatchlistItem.created_at a)
       (List.filter (fun it => String.eqb (UserWatchlistItem.user_id it) user)
          (user_watchlist d))).

Definition select_watchlist (user : string) : Async World (Response.t (list WatchlistRow.t)) :=
  query (SelectWatchlist user) (fun _ d => inr (select_watchlist_rows user d, d)).

(** [.select('*').eq('user_id', userId).order('name', { ascending: true })]. *)
Definition select_categories_rows (user : string) (d : Database) : list UserWatchlistCategory.t :=
  sort_by (fun a b => String.leb (UserWatchlistCategory.name a) (UserWatchlistCategory.name b))
    (List.filter (fun c => String.eqb (UserWatchlistCategory.user_id c) user)
       (user_watchlist_categories d)).

Definition select_categories (user : string) : Async World (Response.t (list UserWatchlistCategory.t)) :=
  query (SelectCategories user) (fun _ d => inr (select_categories_rows user d, d)).

Definition category_matches (category user : string) (c : UserWatchlistCategory.t) : bool :=
  String.eqb (UserWatchlistCategory.id c) category
  && String.eqb (UserWatchlistCategory.user_id c) user.

(** [category_id uuid REFERENCES user_watchlist_categories(id) ON DELETE SET NULL]:
    what the deletion of the category [category] does to a watchlist row. *)
Definition on_delete_set_null (category : string) (it : UserWatchlistItem.t) : UserWatchlistItem.t :=
  match UserWatchlistItem.category_id it with
  | Some cid =>
      if String.eqb cid category then
        {| UserWatchlistItem.id := UserWatchlistItem.id it;
           UserWatchlistItem.user_id := UserWatchlistItem.user_id it;
           UserWatchlistItem.movie_id := UserWatchlistItem.movie_id it;
           UserWatchlistItem.category_id := None;
           UserWatchlistItem.created_at := UserWatchlistItem.created_at it |}
      else it
  | None => it
  end.

(** [.delete().eq('id', categoryId).eq('user_id', userId)] on the tables: the
    rows that match go, and the foreign key of [user_watchlist] reacts to
    each of them. *)
Definition delete_category_rows (category user : string) (d : Database) : Database :=
  if existsb (category_matches category user) (user_watchlist_categories d) then
    {| movies := movies d; user_balances := user_balances d;
       user_episode_unlocks := user_episode_unlocks d;
       user_watchlist := map (on_delete_set_null category) (user_watchlist d);
       user_watchlist_categories :=
         List.filter (fun c => negb (category_matches category user c))
           (user_watchlist_categories d) |}
  else d.

(** The two ids are taken to be uuids in the form the database prints them,
    as the ids of the rows and of the session are: the columns are of type
    [uuid], and PostgreSQL refuses a text it cannot read as one, a refusal
    the tables of the model, which compare ids as texts, do not have. *)
Definition delete_category (category user : string) : Async World (Response.t unit) :=
  query (DeleteCategory category user) (fun _ d => inr (tt, delete_category_rows category user d)).

(** The id a hook works for: [!userId] holds for [null] and for the empty
    string. *)
Definition present (userId : option string) : option string :=
  match userId with
  | Some u => if String.eqb u "" then None else Some u
  | None => None
  end.

(** [addError(createErrorMessage(...))] from inside a hook. *)
Definition notify {H} (message : string) (type : Severity.t)
    (retryAction : option RetryAction) (retryLabel : option string) : Async (H * World) unit :=
  on_world (modify (addError (createErrorMessage message type retryAction retryLabel))).

(** ** [hooks/useUserCoins.ts] *)

Module UserCoins.

Record State : Type := {
  balance : option UserBalance.t;
  loading : bool;
  error : option string
}.

(** What the functions of one render close over. *)
Record Render : Type := {
  userId : option string;
  seen : State
}.

Definition setBalance (b : option UserBalance.t) (st : State) : State :=
  {| balance := b; loading := loading st; error := error st |}.

Definition setLoading (l : bool) (st : State) : State :=
  {| balance := balance st; loading := l; error := error st |}.

Definition setError (e : option string) (st : State) : State :=
  {| balance := balance st; loading := loading st; error := e |}.

Definition fetchBalance (r : Render) : Async (State * World) unit :=
  match present (userId r) with
  | None => set_state (setBalance None)
  | Some uid =>
      _ <~ set_state (setLoading true) ;
      _ <~ set_state (setError None) ;
      finally
        (try_catch
           (data <~ on_world (retried (select_balance uid)) ;
            set_state (setBalance (mjoin data)))
           (fun err =>
              errorMessage <~ lift_outcome (getErrorMessage err) ;
              _ <~ set_state (setError (Some errorMessage)) ;
              _ <~ notify "Failed to load your coin balance. Please try again."
                     Severity.error (Some RetryFetchBalance) (Some "Retry") ;
              set_state (setBalance None)))
        (fun '(st, w) => (setLoading false st, w))
  end.

Definition updateBalance (r : Render) (newCoins newBonusCoins : Z) : Async (State * World) bool :=
  match present (userId r) with
  | None => ret false
  | Some uid =>
      try_catch
        (_ <~ on_world (retried (update_balance uid newCoins newBonusCoins)) ;
         _ <~ match balance (seen r) with
              | Some b =>
                  now <~ on_world (gets clock) ;
                  set_state (setBalance (Some (with_balance newCoins newBonusCoins now b)))
              | None => ret tt
              end ;
         ret true)
        (fun err =>
           _ <~ notify "Failed to update your balance. Please try again."
                  Severity.error (Some (RetryUpdateBalance newCoins newBonusCoins))
                  (Some "Retry") ;
           ret false)
  end.

Definition addCoins (r : Render) (coinsToAdd bonusCoinsToAdd : Z) : Async (State * World) bool :=
  match balance (seen r) with
  | None => ret false
  | Some b =>
      let newCoins := UserBalance.coins b + coinsToAdd in
      let newBonusCoins := UserBalance.bonus_coins b + bonusCoinsToAdd in
      updateBalance r newCoins newBonusCoins
  end.

Definition insufficient_coins : string :=
  "Insufficient coins. Please purchase more coins to continue.".

Definition spendCoins (r : Render) (coinsToSpend : Z) : Async (State * World) bool :=
  match balance (seen r) with
  | None => ret false
  | Some b =>
      let totalAvailable := UserBalance.coins b + UserBalance.bonus_coins b in
      if totalAvailable <? coinsToSpend then
        _ <~ notify insufficient_coins Severity.warning None None ;
        ret false
      else
        (* Spend bonus coins first, then regular coins *)
        let newBonusCoins := UserBalance.bonus_coins b in
        let newCoins := UserBalance.coins b in
        let remaining := coinsToSpend in
        let '(newBonusCoins, remaining) :=
          if (0 <? remaining) && (0 <? newBonusCoins) then
            let bonusToSpend := Z.min remaining newBonusCoins in
            (newBonusCoins - bonusToSpend, remaining - bonusToSpend)
          else (newBonusCoins, remaining) in
        let newCoins := if 0 <? remaining then newCoins - remaining else newCoins in
        updateBalance r newCoins newBonusCoins
  end.

Definition canAfford (r : Render) (cost : Z) : bool :=
  match balance (seen r) with
  | None => false
  | Some b => cost <=? UserBalance.coins b + UserBalance.bonus_coins b
  end.

Definition totalCoins (r : Render) : Z :=
  match balance (seen r) with
  | Some b => UserBalance.coins b + UserBalance.bonus_coins b
  | None => 0
  end.

End UserCoins.

(** ** [hooks/useEpisodeUnlocks.ts] *)

Module EpisodeUnlocks.

Record State : Type := {
  unlockedEpisodes : gset Z;
  loading : bool;
  error : option string
}.

Record Render : Type := {
  userId : option string;
  seen : State
}.

Definition setUnlockedEpisodes (f : gset Z -> gset Z) (st : State) : State :=
  {| unlockedEpisodes := f (unlockedEpisodes st); loading := loading st; error := error st |}.

Definition setLoading (l : bool) (st : State) : State :=
  {| unlockedEpisodes := unlockedEpisodes st; loading := l; error := error st |}.

Definition setError (e : option string) (st : State) : State :=
  {| unlockedEpisodes := unlockedEpisodes st; loading := loading st; error := e |}.

Definition fetchUnlockedEpisodes (r : Render) : Async (State * World) unit :=
  match present (userId r) with
  | None => set_state (setUnlockedEpisodes (fun _ => ∅))
  | Some uid =>
      _ <~ set_state (setLoading true) ;
      _ <~ set_state (setError None) ;
      finally
        (try_catch
           (data <~ on_world (retried (select_unlocks uid)) ;
            let unlockedIds : gset Z := list_to_set (default [] data) in
            set_state (setUnlockedEpisodes (fun _ => unlockedIds)))
           (fun err =>
              errorMessage <~ lift_outcome (getErrorMessage err) ;
              _ <~ set_state (setError (Some errorMessage)) ;
              _ <~ notify "Failed to load your unlocked episodes. Please try again."
                     Severity.error (Some RetryFetchUnlockedEpisodes) (Some "Retry") ;
              set_state (setUnlockedEpisodes (fun _ => ∅))))
        (fun '(st, w) => (setLoading false st, w))
  end.

Definition unlocked_message (unlockCost : Z) : string :=
  String.append "Episode unlocked successfully! "
    (String.append (string_of_Z unlockCost) " coins deducted.").

Definition unlockEpisode (r : Render) (movieId unlockCost : Z) : Async (State * World) bool :=
  match present (userId r) with
  | None =>
      _ <~ notify "Please sign in to unlock episodes." Severity.warning None None ;
      ret false
  | Some uid =>
      try_catch
        ((* Check if episode is already unlocked *)
         if bool_decide (movieId ∈ unlockedEpisodes (seen r)) then
           _ <~ notify "This episode is already unlocked!" Severity.info None None ;
           ret true
         else
           _ <~ on_world (retried (insert_unlock uid movieId)) ;
           (* Update local state *)
           _ <~ set_state (setUnlockedEpisodes (fun prev => prev ∪ {[movieId]})) ;
           _ <~ notify (unlocked_message unlockCost) Severity.success None None ;
           ret true)
        (fun err =>
           errorMessage <~ lift_outcome (getErrorMessage err) ;
           (* Handle specific error cases *)
           if includes errorMessage "duplicate" || includes errorMessage "unique" then
             (* Episode was already unlocked (race condition) *)
             _ <~ set_state (setUnlockedEpisodes (fun prev => prev ∪ {[movieId]})) ;
             _ <~ notify "Episode is already unlocked!" Severity.info None None ;
             ret true
           else
             _ <~ notify "Failed to unlock episode. Please try again."
                    Severity.error (Some (RetryUnlockEpisode movieId unlockCost))
                    (Some "Retry") ;
             ret false)
  end.

Definition isEpisodeUnlocked (r : Render) (movieId : Z) : bool :=
  bool_decide (movieId ∈ unlockedEpisodes (seen r)).

Definition getTotalUnlockedCount (r : Render) : nat := size (unlockedEpisodes (seen r)).

End EpisodeUnlocks.

(** ** [hooks/useWatchlist.ts] *)

Module Watchlist.

(** An entry of the [watchlist] cell: [{...item.movie, is_in_watchlist,
    category_id, category, poster, landscapePoster, viewCount}]. *)
Record MovieWithProgress : Type := {
  movie : Movie.t;
  is_in_watchlist : bool;
  category_id : option string;
  category : option CategoryRef;
  poster : string;
  landscapePoster : string;
  viewCount : string
}.

Record State : Type := {
  watchlist : list MovieWithProgress;
  watchlistIds : gset Z;
  loading : bool;
  error : option string
}.

Record Render : Type := {
  userId : option string;
  seen : State
}.

Definition setWatchlist (l : list MovieWithProgress) (st : State) : State :=
  {| watchlist := l; watchlistIds := watchlistIds st; loading := loading st; error := error st |}.

Definition setWatchlistIds (ids : gset Z) (st : State) : State :=
  {| watchlist := watchlist st; watchlistIds := ids; loading := loading st; error := error st |}.

Definition setLoading (l : bool) (st : State) : State :=
  {| watchlist := watchlist st; watchlistIds := watchlistIds st; loading := l; error := error st |}.

Definition setError (e : option string) (st : State) : State :=
  {| watchlist := watchlist st; watchlistIds := watchlistIds st; loading := loading st; error := e |}.

(** [.filter(item => item.movie).map(item => ({...}))]. *)
Definition moviesInWatchlist (data : list WatchlistRow.t) : list MovieWithProgress :=
  omap (fun row =>
          match WatchlistRow.movie row with
          | Some m =>
              Some {| movie := m;
                      is_in_watchlist := true;
                      category_id := UserWatchlistItem.category_id (WatchlistRow.item row);
                      category := WatchlistRow.category row;
                      poster := Movie.poster_url m;
                      landscapePoster := Movie.landscape_poster_url m;
                      viewCount := Movie.view_count m |}
          | None => None
          end) data.

Definition fetchWatchlist (r : Render) : Async (State * World) unit :=
  match present (userId r) with
  | None =>
      _ <~ set_state (setWatchlist []) ;
      set_state (setWatchlistIds ∅)
  | Some uid =>
      _ <~ set_state (setLoading true) ;
      _ <~ set_state (setError None) ;
      finally
        (try_catch
           (data <~ on_world (retried (select_watchlist uid)) ;
            match data with
            | None => throw (TypeError "Cannot read properties of null (reading 'filter')")
            | Some rows =>
                let inWatchlist := moviesInWatchlist rows in
                let movieIds : gset Z :=
                  list_to_set (map (fun m => Movie.id (movie m)) inWatchlist) in
                _ <~ set_state (setWatchlist inWatchlist) ;
                set_state (setWatchlistIds movieIds)
            end)
           (fun err =>
              errorMessage <~ lift_outcome (getErrorMessage err) ;
              _ <~ set_state (setError (Some errorMessage)) ;
              _ <~ notify "Failed to load your watchlist. Please check your connection and try again."
                     Severity.error (Some RetryFetchWatchlist) (Some "Retry") ;
              _ <~ set_state (setWatchlist []) ;
              set_state (setWatchlistIds ∅)))
        (fun '(st, w) => (setLoading false st, w))
  end.

Definition isInWatchlist (r : Render) (movieId : Z) : bool :=
  bool_decide (movieId ∈ watchlistIds (seen r)).

End Watchlist.

(** ** [hooks/useWatchlistCategories.ts] *)

Module WatchlistCategories.

Record State : Type := {
  categories : list UserWatchlistCategory.t;
  loading : bool;
  error : option string
}.

Record Render : Type := {
  userId : option string;
  seen : State
}.

Definition setCategories (l : list UserWatchlistCategory.t) (st : State) : State :=
  {| categories := l; loading := loading st; error := error st |}.

Definition setLoading (l : bool) (st : State) : State :=
  {| categories := categories st; loading := l; error := error st |}.

Definition setError (e : option string) (st : State) : State :=
  {| categories := categories st; loading := loading st; error := e |}.

Definition fetchCategories (r : Render) : Async (State * World) unit :=
  match present (userId r) with
  | None => set_state (setCategories [])
  | Some uid =>
      _ <~ set_state (setLoading true) ;
      _ <~ set_state (setError None) ;
      finally
        (try_catch
           (data <~ on_world (retried (select_categories uid)) ;
            set_state (setCategories (default [] data)))
           (fun err =>
              errorMessage <~ lift_outcome (getErrorMessage err) ;
              _ <~ set_state (setError (Some errorMessage)) ;
              _ <~ notify "Failed to load watchlist categories. Please try again."
                     Severity.error (Some RetryFetchCategories) (Some "Retry") ;
              set_state (setCategories [])))
        (fun '(st, w) => (setLoading false st, w))
  end.

Definition deleteCategory (r : Render) (categoryId : string) : Async (State * World) bool :=
  match present (userId r) with
  | None => ret false
  | Some uid =>
      try_catch
        (_ <~ on_world (retried (delete_category categoryId uid)) ;
         (* Refresh categories *)
         _ <~ fetchCategories r ;
         _ <~ notify "Category deleted successfully." Severity.info None None ;
         ret true)
        (fun err =>
           _ <~ notify "Failed to delete category. Please try again."
                  Severity.error (Some (RetryDeleteCategory categoryId)) (Some "Retry") ;
           ret false)
  end.

End WatchlistCategories.

(** ** [types/database.ts]: the episodes of a series *)

(** A [MovieWithProgress] as the detail page holds it: the row of [movies]
    (without the video and subtitle addresses and the synopsis, which no
    function below reads), the lock columns [is_locked] and [unlock_cost] of
    the migration, and the members the page adds when it enriches the rows
    ([is_unlocked], [poster], [landscapePoster], [viewCount]), which are
    absent before. *)
Module Episode.
Record t : Type := {
  movie : Movie.t;
  is_locked : option bool;
  unlock_cost : option Z;
  is_unlocked : option bool;
  poster : option string;
  landscapePoster : option string;
  viewCount : option string
}.

Definition id (e : t) : Z := Movie.id (movie e).
Definition series_id (e : t) : option string := Movie.series_id (movie e).
Definition episode_number (e : t) : option Z := Movie.episode_number (movie e).

(** [{ ...ep, is_unlocked: true }]. *)
Definition unlocked (e : t) : t :=
  {| movie := movie e; is_locked := is_locked e; unlock_cost := unlock_cost e;
     is_unlocked := Some true; poster := poster e; landscapePoster := landscapePoster e;
     viewCount := viewCount e |}.
End Episode.

(** [ToBoolean] of a member that holds a boolean, a number, or nothing. *)
Definition truthy_boolean (b : option bool) : bool :=
  match b with
  | Some b => b
  | None => false
  end.

Definition truthy_number (n : option Z) : bool :=
  match n with
  | Some n => negb (n =? 0)
  | None => false
  end.

(** [x === s] for a member [x] that holds a string or nothing. *)
Definition is_string (x : option string) (s : string) : bool :=
  match x with
  | Some x => String.eqb x s
  | None => false
  end.

(** A number inside a template literal; the rows of the database hold
    [null] where a number is missing. *)
Definition template_number (n : option Z) : string :=
  match n with
  | Some n => string_of_Z n
  | None => "null"
  end.

(** ** [hooks/useEpisodeUnlocks.ts]: the episodes of a series *)

Definition getUnlockedEpisodesForSeries (r : EpisodeUnlocks.Render) (seriesId : string)
    (allEpisodes : list Episode.t) : list Episode.t :=
  List.filter (fun episode =>
                 is_string (Episode.series_id episode) seriesId
                 && bool_decide (Episode.id episode ∈
                                   EpisodeUnlocks.unlockedEpisodes (EpisodeUnlocks.seen r)))
    allEpisodes.

Definition getLockedEpisodesForSeries (r : EpisodeUnlocks.Render) (seriesId : string)
    (allEpisodes : list Episode.t) : list Episode.t :=
  List.filter (fun episode =>
                 is_string (Episode.series_id episode) seriesId
                 && truthy_boolean (Episode.is_locked episode)
                 && negb (bool_decide (Episode.id episode ∈
                                         EpisodeUnlocks.unlockedEpisodes (EpisodeUnlocks.seen r))))
    allEpisodes.

(** ** [components/ErrorToast.tsx] *)

(** A call of an [async] function that is not awaited: what it does is done,
    its completion (a rejection included) is dropped. *)
Definition detached {S A} (m : Async S A) : Async S unit :=
  fun s => (Returned tt, snd (m s)).

Module ErrorToast.



(** [onClick] of the close button. *)
Definition onClose {H} (e : ErrorMessage.t) : Async (H * World) unit :=
  on_world (modify (removeError (ErrorMessage.id e))).

End ErrorToast.


(** ** [components/MovieDetailPage.tsx] *)

Module MovieDetailPage.

(** The cell [seriesEpisodes], and what the page has done to the browser and
    to its parent: the texts of the [alert]s and of the [confirm]s it has
    shown, and the episodes it has handed to [onPlayEpisode], oldest
    first. *)
Record State : Type := {
  seriesEpisodes : list Episode.t;
  alerts : list string;
  confirms : list string;
  played : list Episode.t
}.

(** The page with the states of the two hooks it calls. *)
Record Hooks : Type := {
  page : State;
  coins : UserCoins.State;
  unlocks : EpisodeUnlocks.State
}.

(** What the handlers of one render close over: [user?.id], whether the
    parent has passed [onPlayEpisode], and the states of the hooks as they
    were. *)
Record Render : Type := {
  user_id : option string;
  onPlayEpisode : bool;
  seen : Hooks
}.

(** [useUserCoins(user?.id || null)] and [useEpisodeUnlocks(user?.id || null)]
    of the render. *)
Definition coins_render (r : Render) : UserCoins.Render :=
  {| UserCoins.userId := present (user_id r); UserCoins.seen := coins (seen r) |}.

Definition unlocks_render (r : Render) : EpisodeUnlocks.Render :=
  {| EpisodeUnlocks.userId := present (user_id r); EpisodeUnlocks.seen := unlocks (seen r) |}.

Definition on_page (f : State -> State) : Async (Hooks * World) unit :=
  set_state (fun h => {| page := f (page h); coins := coins h; unlocks := unlocks h |}).

Definition on_coins {A} (m : Async (UserCoins.State * World) A) : Async (Hooks * World) A :=
  fun '(h, w) =>
    let '(o, (c, w')) := m (coins h, w) in
    (o, ({| page := page h; coins := c; unlocks := unlocks h |}, w')).

Definition on_unlocks {A} (m : Async (EpisodeUnlocks.State * World) A) : Async (Hooks * World) A :=
  fun '(h, w) =>
    let '(o, (u, w')) := m (unlocks h, w) in
    (o, ({| page := page h; coins := coins h; unlocks := u |}, w')).

Definition setSeriesEpisodes (f : list Episode.t -> list Episode.t) (p : State) : State :=
  {| seriesEpisodes := f (seriesEpisodes p); alerts := alerts p; confirms := confirms p;
     played := played p |}.

Definition alert (text : string) : Async (Hooks * World) unit :=
  on_page (fun p => {| seriesEpisodes := seriesEpisodes p; alerts := alerts p ++ [text];
                       confirms := confirms p; played := played p |}).

(** [window.confirm(text)], which the user answers with [answer]. *)
Definition confirm (answer : bool) (text : string) : Async (Hooks * World) bool :=
  _ <~ on_page (fun p => {| seriesEpisodes := seriesEpisodes p; alerts := alerts p;
                            confirms := confirms p ++ [text]; played := played p |}) ;
  ret answer.

Definition play (episode : Episode.t) : Async (Hooks * World) unit :=
  on_page (fun p => {| seriesEpisodes := seriesEpisodes p; alerts := alerts p;
                       confirms := confirms p; played := played p ++ [episode] |}).

(** The rows of the series as [fetchSeriesEpisodes] enriches them:
    [is_unlocked: !episode.is_locked || isEpisodeUnlocked(episode.id)]. *)
Definition enrichedEpisodes (r : Render) (data : list Episode.t) : list Episode.t :=
  map (fun episode =>
         {| Episode.movie := Episode.movie episode;
            Episode.is_locked := Episode.is_locked episode;
            Episode.unlock_cost := Episode.unlock_cost episode;
            Episode.is_unlocked :=
              Some (negb (truthy_boolean (Episode.is_locked episode))
                    || EpisodeUnlocks.isEpisodeUnlocked (unlocks_render r) (Episode.id episode));
            Episode.poster := Some (Movie.poster_url (Episode.movie episode));
            Episode.landscapePoster := Some (Movie.landscape_poster_url (Episode.movie episode));
            Episode.viewCount := Some (Movie.view_count (Episode.movie episode)) |})
    data.

Definition need_more_coins (unlock_cost : option Z) (totalCoins : Z) : string :=
  String.append "You need "
    (String.append (template_number unlock_cost)
       (String.append " coins to unlock this episode. You currently have "
          (String.append (string_of_Z totalCoins)
             " coins. Please purchase more coins to continue."))).

Definition unlock_question (episode : Episode.t) : string :=
  String.append "Unlock Episode "
    (String.append (template_number (Episode.episode_number episode))
       (String.append " for "
          (String.append (template_number (Episode.unlock_cost episode)) " coins?"))).

Definition handleUnlockEpisode (r : Render) (answer : bool) (episode : Episode.t)
    : Async (Hooks * World) unit :=
  match present (user_id r), Episode.unlock_cost episode with
  | Some _, Some unlock_cost =>
      if unlock_cost =? 0 then ret tt
      else if negb (UserCoins.canAfford (coins_render r) unlock_cost) then
        (* Check if user can afford the unlock cost *)
        alert (need_more_coins (Episode.unlock_cost episode)
                 (UserCoins.totalCoins (coins_render r)))
      else
        (* Confirm unlock *)
        confirmed <~ confirm answer (unlock_question episode) ;
        if negb confirmed then ret tt
        else
          try_catch
            ((* First deduct coins *)
             coinsDeducted <~ on_coins (UserCoins.spendCoins (coins_render r) unlock_cost) ;
             if coinsDeducted then
               (* Then unlock the episode *)
               unlocked <~ on_unlocks (EpisodeUnlocks.unlockEpisode (unlocks_render r)
                                         (Episode.id episode) unlock_cost) ;
               if unlocked then
                 (* Update local episode state *)
                 on_page (setSeriesEpisodes
                            (map (fun ep => if Episode.id ep =? Episode.id episode
                                            then Episode.unlocked ep else ep)))
               else ret tt
             else ret tt)
            (fun error => alert "Failed to unlock episode. Please try again.")
  | _, _ => ret tt
  end.

(** [onClick] of the tile of an episode. *)
Definition onEpisodeClick (r : Render) (answer : bool) (episode : Episode.t)
    : Async (Hooks * World) unit :=
  if truthy_boolean (Episode.is_unlocked episode) then
    (* Play this episode *)
    if onPlayEpisode r then play episode else ret tt
  else if truthy_boolean (Episode.is_locked episode) then
    detached (handleUnlockEpisode r answer episode)
  else ret tt.

End MovieDetailPage.

(** ** [components/AuthPage.tsx]: the form *)

(** A string of the form is a string of Rocq, one character for each code
    unit, so that [length] is [String.length]. *)
Module AuthPage.

Record FormData : Type := {
  email : string;
  password : string;
  confirmPassword : string
}.

Record State : Type := {
  isLogin : bool;
  error : option string;
  success : option string;
  formData : FormData
}.

Record Render : Type := {
  seen : State
}.

Definition setError (e : option string) (st : State) : State :=
  {| isLogin := isLogin st; error := e; success := success st; formData := formData st |}.

Definition validateForm (r : Render) (st : State) : bool * State :=
  let form := formData (seen r) in
  if String.eqb (email form) "" || String.eqb (password form) "" then
    (false, setError (Some "Please fill in all required fields") st)
  else if negb (includes (email form) "@") then
    (false, setError (Some "Please enter a valid email address") st)
  else if (String.length (password form) <? 6)%nat then
    (false, setError (Some "Password must be at least 6 characters long") st)
  else if negb (isLogin (seen r)) && negb (String.eqb (password form) (confirmPassword form)) then
    (false, setError (Some "Passwords do not match") st)
  else (true, st).

End AuthPage.

(** ** [src/utils/errorHandling.ts]: [isNetworkError] *)

Section NetworkErrors.

(** [String.prototype.toLowerCase], which follows the case mappings of
    Unicode; the function is a parameter. *)
Variable toLowerCase : string -> string.

Definition isNetworkError (error : JsValue) : bool :=
  match error with
  | JsError name message =>
      includes (toLowerCase message) "network"
      || includes (toLowerCase message) "fetch"
      || includes (toLowerCase message) "connection"
      || String.eqb name "NetworkError"
  | _ => false
  end.

End NetworkErrors.

(** ** The vocabulary of the statements *)

(** *** Runs of [withRetry] *)

Section RetryRuns.

Context {S T : Type}.
Variable sleep : Z -> S -> S.
Variable operation : Async S T.
Variable options : RetryOptions.

(** [throws_first k s sk]: started in [s], the first [k] invocations of
    [operation] throw, each followed by the wait [withRetry] makes after it;
    [sk] is the state the next invocation starts in. *)
Inductive throws_first : nat -> S -> S -> Prop :=
| throws_none s : throws_first O s s
| throws_more k s sk e s' :
    throws_first k s sk ->
    operation sk = (Thrown e, s') ->
    throws_first (Datatypes.S k) s (sleep (currentDelay options (Z.of_nat k)) s').

End RetryRuns.

(** *** The notification bus *)

(** The id [addError] gives the next notification. *)
Definition next_id (w : World) : string :=
  String.append (string_of_Z (clock w)) (fst (draw w)).

(** *** [getErrorMessage] *)

(** The [message] member the last test of [getErrorMessage] finds. *)
Definition message_member (error : JsValue) : option JsValue :=
  match error with
  | JsObject props | JsBare props => assoc "message" props
  | _ => None
  end.

(** Is the value an object (a function, an array and an [Error] are)? *)
Definition is_object (v : JsValue) : bool :=
  match v with
  | JsFunction _ _ | JsArray _ | JsError _ _ | JsObject _ | JsBare _ => true
  | JsUndefined | JsNull | JsBoolean _ | JsNumber _ | JsString _ | JsSymbol _ => false
  end.

(** *** Requests *)

(** What the retried requests have left of [w]: the tables as they were,
    [k] copies of the request sent, [k] entries of [net] used. *)
Definition attempts_failed (req : Request) (w s : World) : Prop :=
  db s = db w
  /\ exists k, requests s = requests w ++ replicate k req /\ net s = drop k (net w).

(** The errors a request can throw in [w]: a fault of the network, or an
    error [exec] answers on the tables of [w]. *)
Definition request_error {A} (exec : Z -> Database -> PostgrestError + A * Database)
    (w : World) (e : JsValue) : Prop :=
  exists pe, e = js_of_error pe
             /\ (In (Some pe) (net w) \/ exists now, exec now (db w) = inl pe).

(** *** The coin ledger *)

(** The balance invariant of the data model. *)
Definition balance_ok (b : UserBalance.t) : Prop :=
  0 <= UserBalance.coins b /\ 0 <= UserBalance.bonus_coins b.

(** The notification of a failed [updateBalance]. *)
Definition update_failed (newCoins newBonusCoins : Z) : ErrorDraft.t :=
  createErrorMessage "Failed to update your balance. Please try again."
    Severity.error (Some (RetryUpdateBalance newCoins newBonusCoins)) (Some "Retry").

(** *** The unlock gate *)

(** The number of unlock records of a user for a movie. *)
Definition unlock_count (user : string) (movie : Z) (d : Database) : nat :=
  length (List.filter (unlock_matches user movie) (user_episode_unlocks d)).

(** [UNIQUE(user_id, movie_id)] on [user_episode_unlocks]. *)
Definition unlocks_unique (d : Database) : Prop :=
  forall user movie, (unlock_count user movie d <= 1)%nat.

(** The cache holds only episodes that have an unlock record. *)
Definition cache_recorded (user : string) (cache : gset Z) (d : Database) : Prop :=
  forall movie, movie ∈ cache -> (1 <= unlock_count user movie d)%nat.

(** Does the text of an error pass the test of [unlockEpisode]? *)
Definition looks_duplicate (msg : string) : bool :=
  includes msg "duplicate" || includes msg "unique".

(** No transient fault is worded like a uniqueness violation. *)
Definition faults_plain (faults : list (option PostgrestError)) : Prop :=
  Forall (fun f => match f with
                   | Some e => looks_duplicate (pg_message e) = false
                   | None => True
                   end) faults.

(** The errors the insertion of an unlock can throw in [w]. *)
Definition insert_unlock_error (user : string) (movie : Z) (w : World) (e : JsValue) : Prop :=
  exists pe, e = js_of_error pe
             /\ (In (Some pe) (net w)
                 \/ exists uuid now, insert_unlock_row user movie uuid now (db w) = inl pe).

(** The notifications of [unlockEpisode]. *)
Definition already_unlocked : ErrorDraft.t :=
  createErrorMessage "This episode is already unlocked!" Severity.info None None.

Definition unlocked_now (unlockCost : Z) : ErrorDraft.t :=
  createErrorMessage (EpisodeUnlocks.unlocked_message unlockCost) Severity.success None None.

Definition unlocked_before : ErrorDraft.t :=
  createErrorMessage "Episode is already unlocked!" Severity.info None None.

Definition unlock_failed (movieId unlockCost : Z) : ErrorDraft.t :=
  createErrorMessage "Failed to unlock episode. Please try again."
    Severity.error (Some (RetryUnlockEpisode movieId unlockCost)) (Some "Retry").

(** *** The watchlist and its categories *)

(** [user_watchlist_movie_id_fkey]: every watchlist row refers to a movie. *)
Definition watchlist_movies_exist (d : Database) : Prop :=
  forall it, In it (user_watchlist d) ->
    existsb (fun m => Movie.id m =? UserWatchlistItem.movie_id it) (movies d) = true.

(** Is there a watchlist row of [user] for [movie]? *)
Definition has_watchlist_row (user : string) (movie : Z) (d : Database) : Prop :=
  exists it, In it (user_watchlist d)
             /\ UserWatchlistItem.user_id it = user
             /\ UserWatchlistItem.movie_id it = movie.

(** The ids [fetchWatchlist] computes from the rows it was sent. *)
Definition movie_ids (rows : list WatchlistRow.t) : gset Z :=
  list_to_set (map (fun m => Movie.id (Watchlist.movie m)) (Watchlist.moviesInWatchlist rows)).

(** The notification of a failed [fetchWatchlist]. *)
Definition watchlist_failed : ErrorDraft.t :=
  createErrorMessage "Failed to load your watchlist. Please check your connection and try again."
    Severity.error (Some RetryFetchWatchlist) (Some "Retry").

(** Did the deletion find its category? *)
Definition category_deleted (category user : string) (d : Database) : bool :=
  existsb (category_matches category user) (user_watchlist_categories d).

(** The notification of a [deleteCategory] that went through. *)
Definition category_deleted_notice : ErrorDraft.t :=
  createErrorMessage "Category deleted successfully." Severity.info None None.

(** ** Sample data for the examples *)

Definition sample_balance : UserBalance.t :=
  {| UserBalance.user_id := "user-1"; UserBalance.coins := 100;
     UserBalance.bonus_coins := 50; UserBalance.created_at := 0;
     UserBalance.updated_at := 0 |}.

Definition sample_movie (id : Z) : Movie.t :=
  {| Movie.id := id; Movie.title := "Stranger Things"; Movie.genre := "Sci-Fi";
     Movie.view_count := "1.2M"; Movie.poster_url := "poster.jpeg";
     Movie.landscape_poster_url := "landscape.jpeg"; Movie.badge := Some "New";
     Movie.episodes := Some 8; Movie.duration_seconds := Some 3600;
     Movie.created_at := 0; Movie.series_id := Some "series-1";
     Movie.episode_number := Some id |}.

Definition sample_category : UserWatchlistCategory.t :=
  {| UserWatchlistCategory.id := "cat-1"; UserWatchlistCategory.user_id := "user-1";
     UserWatchlistCategory.name := "Favourites"; UserWatchlistCategory.color := "#3B82F6";
     UserWatchlistCategory.created_at := 0; UserWatchlistCategory.updated_at := 0 |}.

Definition sample_item (id : string) (movie : Z) (category : option string) : UserWatchlistItem.t :=
  {| UserWatchlistItem.id := id; UserWatchlistItem.user_id := "user-1";
     UserWatchlistItem.movie_id := movie; UserWatchlistItem.category_id := category;
     UserWatchlistItem.created_at := movie |}.

Definition sample_db : Database :=
  {| movies := [sample_movie 1; sample_movie 2; sample_movie 3];
     user_balances := [sample_balance];
     user_episode_unlocks := [];
     user_watchlist := [sample_item "w-1" 1 (Some "cat-1"); sample_item "w-2" 2 None];
     user_watchlist_categories := [sample_category] |}.

Definition failed_to_fetch : PostgrestError :=
  {| pg_message := "TypeError: Failed to fetch"; pg_details := "";
     pg_hint := ""; pg_code := "" |}.

(** A world whose next requests meet the faults [faults]. *)
Definition sample_world (faults : list (option PostgrestError)) : World :=
  {| clock := 1000; random := ["k3x9q2m1z"; "a7b8c9d0e"]; timers := []; sleeps := [];
     errors := []; net := faults; requests := []; db := sample_db |}.

Definition sample_coins : UserCoins.State :=
  {| UserCoins.balance := Some sample_balance; UserCoins.loading := false;
     UserCoins.error := None |}.

Definition sample_coins_render : UserCoins.Render :=
  {| UserCoins.userId := Some "user-1"; UserCoins.seen := sample_coins |}.

Definition sample_unlocks : EpisodeUnlocks.State :=
  {| EpisodeUnlocks.unlockedEpisodes := ∅; EpisodeUnlocks.loading := false;
     EpisodeUnlocks.error := None |}.

Definition sample_unlocks_render : EpisodeUnlocks.Render :=
  {| EpisodeUnlocks.userId := Some "user-1"; EpisodeUnlocks.seen := sample_unlocks |}.

(** The tables once [user-1] has unlocked movie 2. *)
Definition sample_db_unlocked : Database :=
  set_user_episode_unlocks
    [{| UserEpisodeUnlock.id := "e-1"; UserEpisodeUnlock.user_id := "user-1";
        UserEpisodeUnlock.movie_id := 2; UserEpisodeUnlock.unlocked_at := 500;
        UserEpisodeUnlock.created_at := 500 |}] sample_db.

Definition sample_watchlist : Watchlist.State :=
  {| Watchlist.watchlist := []; Watchlist.watchlistIds := ∅;
     Watchlist.loading := false; Watchlist.error := None |}.

Definition sample_watchlist_render : Watchlist.Render :=
  {| Watchlist.userId := Some "user-1"; Watchlist.seen := sample_watchlist |}.

Definition sample_categories : WatchlistCategories.State :=
  {| WatchlistCategories.categories := [sample_category];
     WatchlistCategories.loading := false; WatchlistCategories.error := None |}.

Definition sample_categories_render : WatchlistCategories.Render :=
  {| WatchlistCategories.userId := Some "user-1";
     WatchlistCategories.seen := sample_categories |}.

(** ** More vocabulary, for the properties beyond the claims *)

(** *** The schedule of [withRetry] *)

(** The waits before the attempts 2 .. [k + 1], under the default options. *)
Definition backoff_delays (k : nat) : list Z :=
  map (fun j => 1000 * 2 ^ Z.of_nat j) (seq 0 k).

(** An operation that sends the request [req] once each time it is invoked,
    and neither waits nor touches the notification bus. *)
Definition sends_one {A} (req : Request) (op : Async World A) : Prop :=
  forall s o s', op s = (o, s') ->
    requests s' = requests s ++ [req] /\ sleeps s' = sleeps s /\ clock s' = clock s
    /\ errors s' = errors s /\ timers s' = timers s.

(** What [n] attempts of the request [req] and [k] waits of [withRetry] have
    made of [w]: the requests sent, the waits, the time they took; the
    notification bus is as it was. *)
Definition schedule (req : Request) (w : World) (n k : nat) (s : World) : Prop :=
  requests s = requests w ++ replicate n req
  /\ sleeps s = sleeps w ++ backoff_delays k
  /\ clock s = clock w + 1000 * (2 ^ Z.of_nat k - 1)
  /\ errors s = errors w
  /\ timers s = timers w.

(** *** The coin ledger *)

(** The notification of a failed [fetchBalance]. *)
Definition balance_failed : ErrorDraft.t :=
  createErrorMessage "Failed to load your coin balance. Please try again."
    Severity.error (Some RetryFetchBalance) (Some "Retry").

(** The rows of a user in [user_balances]. *)
Definition balance_rows (user : string) (d : Database) : list UserBalance.t :=
  List.filter (fun r => String.eqb (UserBalance.user_id r) user) (user_balances d).

(** Every row of a user in [user_balances] has the total [total]. *)
Definition persisted_total (user : string) (total : Z) (d : Database) : Prop :=
  forall row, In row (user_balances d) -> UserBalance.user_id row = user ->
    UserBalance.coins row + UserBalance.bonus_coins row = total.

(** *** The unlock gate *)

(** The notification of a failed [fetchUnlockedEpisodes]. *)
Definition unlocks_failed : ErrorDraft.t :=
  createErrorMessage "Failed to load your unlocked episodes. Please try again."
    Severity.error (Some RetryFetchUnlockedEpisodes) (Some "Retry").


(** The unlock records of a user. *)
Definition unlock_rows (user : string) (d : Database) : list UserEpisodeUnlock.t :=
  List.filter (fun r => String.eqb (UserEpisodeUnlock.user_id r) user) (user_episode_unlocks d).

(** The render that follows a state of [useEpisodeUnlocks]. *)
Definition unlocks_next (r : EpisodeUnlocks.Render) (st : EpisodeUnlocks.State)
    : EpisodeUnlocks.Render :=
  {| EpisodeUnlocks.userId := EpisodeUnlocks.userId r; EpisodeUnlocks.seen := st |}.

(** The test of [getUnlockedEpisodesForSeries] and [getLockedEpisodesForSeries]
    on the series. *)
Definition in_series (seriesId : string) (episode : Episode.t) : bool :=
  is_string (Episode.series_id episode) seriesId.

(** *** The detail page *)

(** The page once [f] has been applied to its own cells. *)
Definition with_page (f : MovieDetailPage.State -> MovieDetailPage.State)
    (h : MovieDetailPage.Hooks) : MovieDetailPage.Hooks :=
  {| MovieDetailPage.page := f (MovieDetailPage.page h);
     MovieDetailPage.coins := MovieDetailPage.coins h;
     MovieDetailPage.unlocks := MovieDetailPage.unlocks h |}.

(** The cells of the page after an [alert], after a [confirm], and after an
    episode has been handed to [onPlayEpisode]. *)
Definition alerted (text : string) (p : MovieDetailPage.State) : MovieDetailPage.State :=
  {| MovieDetailPage.seriesEpisodes := MovieDetailPage.seriesEpisodes p;
     MovieDetailPage.alerts := MovieDetailPage.alerts p ++ [text];
     MovieDetailPage.confirms := MovieDetailPage.confirms p;
     MovieDetailPage.played := MovieDetailPage.played p |}.

Definition asked (text : string) (p : MovieDetailPage.State) : MovieDetailPage.State :=
  {| MovieDetailPage.seriesEpisodes := MovieDetailPage.seriesEpisodes p;
     MovieDetailPage.alerts := MovieDetailPage.alerts p;
     MovieDetailPage.confirms := MovieDetailPage.confirms p ++ [text];
     MovieDetailPage.played := MovieDetailPage.played p |}.

Definition handed_to_player (episode : Episode.t) (p : MovieDetailPage.State)
    : MovieDetailPage.State :=
  {| MovieDetailPage.seriesEpisodes := MovieDetailPage.seriesEpisodes p;
     MovieDetailPage.alerts := MovieDetailPage.alerts p;
     MovieDetailPage.confirms := MovieDetailPage.confirms p;
     MovieDetailPage.played := MovieDetailPage.played p ++ [episode] |}.

(** *** The watchlist and its categories *)

(** The notifications of [useWatchlistCategories]. *)
Definition categories_failed : ErrorDraft.t :=
  createErrorMessage "Failed to load watchlist categories. Please try again."
    Severity.error (Some RetryFetchCategories) (Some "Retry").


(** The render that follows a state of [useWatchlist]. *)
Definition watchlist_next (r : Watchlist.Render) (st : Watchlist.State) : Watchlist.Render :=
  {| Watchlist.userId := Watchlist.userId r; Watchlist.seen := st |}.

(** A digit of a uuid as PostgreSQL prints it: [0-9a-f]. *)
Definition is_hex_digit (c : ascii) : bool :=
  let n := nat_of_ascii c in
  ((48 <=? n) && (n <=? 57) || (97 <=? n) && (n <=? 102))%nat.

(** [n] digits at the head of [s], and what follows them. *)
Fixpoint hex_digits (n : nat) (s : string) : option string :=
  match n, s with
  | O, _ => Some s
  | Datatypes.S n', String c rest => if is_hex_digit c then hex_digits n' rest else None
  | Datatypes.S _, EmptyString => None
  end.

(** [s] after a hyphen. *)
Definition hyphen (s : option string) : option string :=
  match s with
  | Some (String "-"%char rest) => Some rest
  | _ => None
  end.

(** The text of a [uuid] as the database prints it: 32 digits in groups of
    8, 4, 4, 4 and 12, with hyphens between the groups. *)
Definition is_uuid (s : string) : bool :=
  match hyphen (hex_digits 8 s) with
  | Some s1 =>
      match hyphen (hex_digits 4 s1) with
      | Some s2 =>
          match hyphen (hex_digits 4 s2) with
          | Some s3 =>
              match hyphen (hex_digits 4 s3) with
              | Some s4 =>
                  match hex_digits 12 s4 with
                  | Some EmptyString => true
                  | _ => false
                  end
              | None => false
              end
          | None => false
          end
      | None => false
      end
  | None => false
  end.

(** *** More sample data *)

(** A locked episode of the sample series, as the table has it. *)
Definition sample_episode (id cost : Z) : Episode.t :=
  {| Episode.movie := sample_movie id; Episode.is_locked := Some true;
     Episode.unlock_cost := Some cost; Episode.is_unlocked := None;
     Episode.poster := None; Episode.landscapePoster := None; Episode.viewCount := None |}.

(** A free episode of the sample series. *)
Definition sample_free_episode (id : Z) : Episode.t :=
  {| Episode.movie := sample_movie id; Episode.is_locked := Some false;
     Episode.unlock_cost := Some 0; Episode.is_unlocked := None;
     Episode.poster := None; Episode.landscapePoster := None; Episode.viewCount := None |}.

Definition sample_page : MovieDetailPage.Hooks :=
  {| MovieDetailPage.page :=
       {| MovieDetailPage.seriesEpisodes := []; MovieDetailPage.alerts := [];
          MovieDetailPage.confirms := []; MovieDetailPage.played := [] |};
     MovieDetailPage.coins := sample_coins;
     MovieDetailPage.unlocks := sample_unlocks |}.

Definition sample_page_render : MovieDetailPage.Render :=
  {| MovieDetailPage.user_id := Some "user-1"; MovieDetailPage.onPlayEpisode := true;
     MovieDetailPage.seen := sample_page |}.

(** Two users and a category of the second, under the ids the database
    gives them. *)
Definition sample_reader : string := "7d9f0c1e-2a3b-4c5d-8e6f-a1b2c3d4e5f6".

Definition sample_owner : string := "0b6e4c52-91aa-4f0e-b3d7-5c8a2e6f1d90".

Definition sample_owned_category : UserWatchlistCategory.t :=
  {| UserWatchlistCategory.id := "3b241101-e2bb-4255-8caf-4136c566a962";
     UserWatchlistCategory.user_id := sample_owner;
     UserWatchlistCategory.name := "Weekend"; UserWatchlistCategory.color := "#3B82F6";
     UserWatchlistCategory.created_at := 0; UserWatchlistCategory.updated_at := 0 |}.

Definition sample_owned_item : UserWatchlistItem.t :=
  {| UserWatchlistItem.id := "c4a1d2e3-5f60-4a7b-8c9d-0e1f2a3b4c5d";
     UserWatchlistItem.user_id := sample_owner;
     UserWatchlistItem.movie_id := 1;
     UserWatchlistItem.category_id := Some "3b241101-e2bb-4255-8caf-4136c566a962";
     UserWatchlistItem.created_at := 10 |}.

(** A world in which [sample_owner] has a category and [sample_reader] has
    none. *)
Definition sample_shared_world : World :=
  {| clock := 1000; random := ["k3x9q2m1z"; "a7b8c9d0e"]; timers := []; sleeps := [];
     errors := []; net := []; requests := [];
     db := {| movies := [sample_movie 1; sample_movie 2; sample_movie 3];
              user_balances := [];
              user_episode_unlocks := [];
              user_watchlist := [sample_owned_item];
              user_watchlist_categories := [sample_owned_category] |} |}.

Definition sample_reader_render : WatchlistCategories.Render :=
  {| WatchlistCategories.userId := Some sample_reader;
     WatchlistCategories.seen :=
       {| WatchlistCategories.categories := []; WatchlistCategories.loading := false;
          WatchlistCategories.error := None |} |}.

(** * Properties *)

(** ** [withRetry] *)

Section RetryFacts.

Context {S T : Type}.
Variable sleep : Z -> S -> S.
Variable operation : Async S T.
Variable options : RetryOptions.

Let N : Z := maxRetries_of options.

Lemma retry_loop_returns fuel attempt lastError s v s' :
  attempt <= N ->
  operation s = (Returned v, s') ->
  retry_loop sleep operation options (Datatypes.S fuel) attempt lastError s = (Returned v, s').
Proof.
  intros Hle Hop. simpl. fold N.
  destruct (Z.leb_spec attempt N); [| lia].
  unfold try_catch. rewrite Hop. reflexivity.
Qed.

Lemma retry_loop_rethrows fuel lastError s e s' :
  operation s = (Thrown e, s') ->
  retry_loop sleep operation options (Datatypes.S fuel) N lastError s = (Thrown e, s').
Proof.
  intros Hop. simpl. fold N.
  rewrite Z.leb_refl. unfold try_catch. rewrite Hop.
  rewrite Z.eqb_refl. reflexivity.
Qed.

Lemma retry_loop_retries fuel attempt lastError s e s' :
  attempt < N ->
  operation s = (Thrown e, s') ->
  retry_loop sleep operation options (Datatypes.S fuel) attempt lastError s
  = retry_loop sleep operation options fuel (attempt + 1) e
      (sleep (currentDelay options attempt) s').
Proof.
  intros Hlt Hop. simpl. fold N.
  destruct (Z.leb_spec attempt N); [| lia].
  unfold try_catch. rewrite Hop.
  destruct (Z.eqb_spec attempt N); [lia |].
  reflexivity.
Qed.

(** The fuel is the number of iterations the loop has left, and more of it
    changes nothing. *)
Lemma retry_loop_fuel fuel : forall fuel' attempt lastError s,
  0 <= attempt ->
  (Z.to_nat (N + 1 - attempt) <= fuel)%nat ->
  (Z.to_nat (N + 1 - attempt) <= fuel')%nat ->
  retry_loop sleep operation options fuel attempt lastError s
  = retry_loop sleep operation options fuel' attempt lastError s.
Proof.
  induction fuel as [| fuel IH]; intros fuel' attempt le s Ha Hf Hf'.
  - destruct fuel' as [| fuel']; [reflexivity |]. simpl. fold N.
    destruct (Z.leb_spec attempt N); [lia | reflexivity].
  - destruct fuel' as [| fuel'].
    + simpl. fold N. destruct (Z.leb_spec attempt N); [lia | reflexivity].
    + simpl. fold N. destruct (Z.leb_spec attempt N); [| reflexivity].
      unfold try_catch. destruct (operation s) as [[v | e] s']; [reflexivity |].
      destruct (Z.eqb_spec attempt N); [reflexivity |].
      unfold bind, modify. apply IH; lia.
Qed.

(** After [k <= maxRetries] failures the loop is at its attempt [k], with the
    iterations it needs still ahead. *)
Lemma withRetry_after_failures k s sk :
  throws_first sleep operation options k s sk ->
  Z.of_nat k <= N ->
  exists lastError,
    withRetry sleep operation options s
    = retry_loop sleep operation options
        (Datatypes.S (Z.to_nat (N - Z.of_nat k))) (Z.of_nat k) lastError sk.
Proof.
  induction 1 as [s | k s sk e s' Hk IH Hop]; intros Hle.
  - exists JsUndefined. unfold withRetry. fold N.
    replace (Z.to_nat (N + 1)) with (Datatypes.S (Z.to_nat (N - Z.of_nat 0))) by lia.
    reflexivity.
  - destruct IH as [le IH]; [lia |].
    exists e. rewrite IH.
    rewrite (retry_loop_retries _ _ _ _ e s') by (fold N; lia || assumption).
    replace (Z.to_nat (N - Z.of_nat k)) with (Datatypes.S (Z.to_nat (N - Z.of_nat (Datatypes.S k)))) by lia.
    replace (Z.of_nat k + 1) with (Z.of_nat (Datatypes.S k)) by lia.
    reflexivity.
Qed.

Lemma withRetry_succeeds_after k s sk v s' :
  throws_first sleep operation options k s sk ->
  Z.of_nat k <= N ->
  operation sk = (Returned v, s') ->
  withRetry sleep operation options s = (Returned v, s').
Proof.
  intros Hk Hle Hop.
  destruct (withRetry_after_failures k s sk Hk Hle) as [le ->].
  apply retry_loop_returns; assumption.
Qed.

Lemma withRetry_gives_up s sN e s' :
  0 <= N ->
  throws_first sleep operation options (Z.to_nat N) s sN ->
  operation sN = (Thrown e, s') ->
  withRetry sleep operation options s = (Thrown e, s').
Proof.
  intros HN Hk Hop.
  destruct (withRetry_after_failures _ s sN Hk) as [le ->]; [lia |].
  rewrite Z2Nat.id by lia.
  apply retry_loop_rethrows; assumption.
Qed.

(** A rule for the whole loop: [Inv] holds at the start, survives a failed
    attempt and the wait after it; a successful attempt from a state of
    [Inv] establishes [Post]; every error the operation throws is in
    [Err]. *)
Variable Inv : S -> Prop.
Variable Post : T -> S -> Prop.
Variable Err : JsValue -> Prop.

Hypothesis sleep_inv : forall ms s, Inv s -> Inv (sleep ms s).
Hypothesis op_returned : forall s v s', Inv s -> operation s = (Returned v, s') -> Post v s'.
Hypothesis op_thrown : forall s e s', Inv s -> operation s = (Thrown e, s') -> Inv s' /\ Err e.

Lemma retry_loop_rule fuel : forall attempt lastError s,
  Inv s -> Err lastError ->
  match retry_loop sleep operation options fuel attempt lastError s with
  | (Returned v, s') => Post v s'
  | (Thrown e, s') => Inv s' /\ Err e
  end.
Proof.
  induction fuel as [| fuel IH]; intros attempt le s HI HE; simpl.
  - split; assumption.
  - destruct (attempt <=? maxRetries_of options); [| split; assumption].
    unfold try_catch.
    destruct (operation s) as [[v | e] s'] eqn:Hop.
    + eapply op_returned; eassumption.
    + destruct (op_thrown s e s' HI Hop) as [HI' HE'].
      destruct (attempt =? maxRetries_of options); [split; assumption |].
      unfold bind, modify. apply IH; [apply sleep_inv; assumption | assumption].
Qed.

Lemma withRetry_rule s :
  0 <= N -> Inv s ->
  match withRetry sleep operation options s with
  | (Returned v, s') => Post v s'
  | (Thrown e, s') => Inv s' /\ Err e
  end.
Proof.
  intros HN HI. unfold withRetry. fold N.
  replace (Z.to_nat (N + 1)) with (Datatypes.S (Z.to_nat N)) by lia.
  destruct (operation s) as [[v | e] s'] eqn:Hop.
  - rewrite (retry_loop_returns _ _ _ _ v s') by assumption.
    eapply op_returned; eassumption.
  - destruct (op_thrown s e s' HI Hop) as [HI' HE'].
    destruct (Z.eq_dec 0 N) as [H0 | H0].
    + pose proof (retry_loop_rethrows (Z.to_nat N) JsUndefined s e s' Hop) as Hr.
      rewrite <- H0 in Hr at 2. rewrite Hr. split; assumption.
    + rewrite (retry_loop_retries _ _ _ _ e s') by (assumption || lia).
      apply retry_loop_rule; [apply sleep_inv; assumption | assumption].
Qed.

End RetryFacts.

(** C4.  [withRetry] with the cap [N = maxRetries], the number the caller
    configured (3 when the option is left out): an operation that throws on
    its first [k <= N] invocations, in particular on its first [N - 1], and
    returns on the next makes [withRetry] return that value; an operation
    that throws [N + 1] times in a row makes it rethrow the last error.  The
    error thrown is never looked at: after any thrown value at an attempt
    before the last, the loop waits and goes on to the next attempt (eighth
    conjunct).  The wait after the failed attempt [k], before attempt
    [k + 1], is [currentDelay (k - 1)], which with [backoff] is
    [delay * 2 ^ (k - 1)] and without it [delay], for the [delay] the caller
    configured (1000 ms when left out); [backoff] is on unless the caller
    turns it off.  The defaults are 3 retries, 1000 ms and exponential
    backoff. *)
Theorem withRetry_retries_up_to_cap
    {S T : Type} (sleep : Z -> S -> S) (operation : Async S T) (options : RetryOptions) :
  let N := maxRetries_of options in
  (forall k s sk v s',
      throws_first sleep operation options k s sk ->
      Z.of_nat k <= N ->
      operation sk = (Returned v, s') ->
      withRetry sleep operation options s = (Returned v, s'))
  /\ (forall s sN e s',
      0 <= N ->
      throws_first sleep operation options (Z.to_nat N) s sN ->
      operation sN = (Thrown e, s') ->
      withRetry sleep operation options s = (Thrown e, s'))
  /\ (forall k, 1 <= k -> backoff_of options = true ->
      currentDelay options (k - 1) = delay_of options * 2 ^ (k - 1))
  /\ (maxRetries_of defaultRetryOptions = 3
      /\ delay_of defaultRetryOptions = 1000
      /\ backoff_of defaultRetryOptions = true)
  /\ (maxRetries options = None -> N = 3)
  /\ (delay options = None -> delay_of options = 1000)
  /\ (backoff options = None -> backoff_of options = true)
  /\ (forall fuel attempt lastError s e s',
      attempt < N ->
      operation s = (Thrown e, s') ->
      retry_loop sleep operation options (Datatypes.S fuel) attempt lastError s
      = retry_loop sleep operation options fuel (attempt + 1) e
          (sleep (currentDelay options attempt) s'))
  /\ (forall n, maxRetries options = Some n -> N = n)
  /\ (forall d, delay options = Some d -> delay_of options = d)
  /\ (forall b, backoff options = Some b -> backoff_of options = b)
  /\ (forall k, backoff_of options = false -> currentDelay options k = delay_of options).
Proof.
  intros N. repeat split.
  - intros k s sk v s' Hk Hle Hop.
    eapply withRetry_succeeds_after; eassumption.
  - intros s sN e s' HN Hk Hop.
    eapply withRetry_gives_up; eassumption.
  - intros k _ Hb. unfold currentDelay. rewrite Hb. reflexivity.
  - intros H. unfold N, maxRetries_of. rewrite H. reflexivity.
  - intros H. unfold delay_of. rewrite H. reflexivity.
  - intros H. unfold backoff_of. rewrite H. reflexivity.
  - intros fuel attempt le s e s' Hlt Hop.
    apply retry_loop_retries; assumption.
  - intros n H. unfold N, maxRetries_of. rewrite H. reflexivity.
  - intros d H. unfold delay_of. rewrite H. reflexivity.
  - intros b H. unfold backoff_of. rewrite H. reflexivity.
  - intros k Hb. unfold currentDelay. rewrite Hb. reflexivity.
Qed.

(** The failures of a run, one invocation after the other. *)
Ltac throws_in_turn :=
  first [apply throws_none
        | eapply throws_more; [throws_in_turn | vm_compute; reflexivity]].

(** Under the default options: two faults, then an answer: the third attempt
    of the four returns, after waits of 1000 and 2000 ms; four faults in a
    row are given up on with the last of them.  With [maxRetries: 5] and
    [delay: 250]: the sixth attempt still returns, after waits of 250, 500,
    1000, 2000 and 4000 ms, and six faults in a row are given up on.  With
    [maxRetries: 2], [delay: 250] and [backoff: false]: the waits are 250 and
    250 ms. *)
Lemma withRetry_retries_up_to_cap_witness :
  (exists v w',
      withRetry sleep (throw_on_error (update_balance "user-1" 30 0)) defaultRetryOptions
        (sample_world [Some failed_to_fetch; Some failed_to_fetch; None]) = (Returned v, w')
      /\ sleeps w' = [1000; 2000]
      /\ length (requests w') = 3%nat)
  /\ (exists w',
      withRetry sleep (throw_on_error (update_balance "user-1" 30 0)) defaultRetryOptions
        (sample_world [Some failed_to_fetch; Some failed_to_fetch; Some failed_to_fetch;
                       Some (unique_violation "k")])
      = (Thrown (js_of_error (unique_violation "k")), w')
      /\ sleeps w' = [1000; 2000; 4000])
  /\ currentDelay defaultRetryOptions (3 - 1) = 1000 * 2 ^ (3 - 1)
  /\ (let configured := {| maxRetries := Some 5; delay := Some 250; backoff := None |} in
      maxRetries_of configured = 5
      /\ delay_of configured = 250
      /\ backoff_of configured = true
      /\ (exists v w',
          withRetry sleep (throw_on_error (update_balance "user-1" 30 0)) configured
            (sample_world [Some failed_to_fetch; Some failed_to_fetch; Some failed_to_fetch;
                           Some failed_to_fetch; Some failed_to_fetch; None])
          = (Returned v, w')
          /\ sleeps w' = [250; 500; 1000; 2000; 4000]
          /\ length (requests w') = 6%nat)
      /\ (exists w',
          withRetry sleep (throw_on_error (update_balance "user-1" 30 0)) configured
            (sample_world [Some failed_to_fetch; Some failed_to_fetch; Some failed_to_fetch;
                           Some failed_to_fetch; Some failed_to_fetch;
                           Some (unique_violation "k"); None])
          = (Thrown (js_of_error (unique_violation "k")), w')
          /\ sleeps w' = [250; 500; 1000; 2000; 4000]
          /\ length (requests w') = 6%nat))
  /\ (let flat := {| maxRetries := Some 2; delay := Some 250; backoff := Some false |} in
      maxRetries_of flat = 2
      /\ backoff_of flat = false
      /\ currentDelay flat 1 = 250
      /\ (exists w',
          withRetry sleep (throw_on_error (update_balance "user-1" 30 0)) flat
            (sample_world [Some failed_to_fetch; Some failed_to_fetch;
                           Some (unique_violation "k"); None])
          = (Thrown (js_of_error (unique_violation "k")), w')
          /\ sleeps w' = [250; 250]
          /\ length (requests w') = 3%nat)).
Proof.
  pose proof (withRetry_retries_up_to_cap sleep
                (throw_on_error (update_balance "user-1" 30 0)) defaultRetryOptions)
    as (Hok & Hfail & Hdelay & _).
  split; [| split; [| split; [| split]]].
  - eexists. eexists. split; [| split].
    + eapply (Hok 2%nat).
      * throws_in_turn.
      * vm_compute. discriminate.
      * vm_compute; reflexivity.
    + vm_compute; reflexivity.
    + vm_compute; reflexivity.
  - eexists. split.
    + eapply Hfail.
      * vm_compute. discriminate.
      * change (Z.to_nat (maxRetries_of defaultRetryOptions)) with 3%nat.
        throws_in_turn.
      * vm_compute; reflexivity.
    + vm_compute; reflexivity.
  - apply Hdelay; [lia | reflexivity].
  - intros configured.
    pose proof (withRetry_retries_up_to_cap sleep
                  (throw_on_error (update_balance "user-1" 30 0)) configured)
      as (Hok5 & Hfail5 & _ & _ & _ & _ & Hbackoff & _ & Hcap & Hwait & _).
    split; [apply Hcap; reflexivity |].
    split; [apply Hwait; reflexivity |].
    split; [apply Hbackoff; reflexivity |].
    split.
    + eexists. eexists. split; [| split].
      * eapply (Hok5 5%nat).
        -- throws_in_turn.
        -- vm_compute. discriminate.
        -- vm_compute; reflexivity.
      * vm_compute; reflexivity.
      * vm_compute; reflexivity.
    + eexists. split; [| split].
      * eapply Hfail5.
        -- vm_compute. discriminate.
        -- change (Z.to_nat (maxRetries_of configured)) with 5%nat.
           throws_in_turn.
        -- vm_compute; reflexivity.
      * vm_compute; reflexivity.
      * vm_compute; reflexivity.
  - intros flat.
    pose proof (withRetry_retries_up_to_cap sleep
                  (throw_on_error (update_balance "user-1" 30 0)) flat)
      as (_ & Hfail2 & _ & _ & _ & _ & _ & _ & Hcap & _ & Hoff & Hflat).
    split; [apply Hcap; reflexivity |].
    split; [apply Hoff; reflexivity |].
    split; [apply Hflat; reflexivity |].
    eexists. split; [| split].
    + eapply Hfail2.
      * vm_compute. discriminate.
      * change (Z.to_nat (maxRetries_of flat)) with 2%nat.
        throws_in_turn.
      * vm_compute; reflexivity.
    + vm_compute; reflexivity.
    + vm_compute; reflexivity.
Defined.

(** ** [getErrorMessage] *)

Lemma getErrorMessage_primitive error :
  message_member error = None ->
  getErrorMessage error
  = Returned match error with
             | JsError _ message => message
             | JsString s => s
             | _ => unexpected_error
             end.
Proof.
  destruct error as [| | b | n | s | d | f | l | name message | props | props];
    simpl; try reflexivity.
  - destruct b; reflexivity.
  - destruct (n =? 0); reflexivity.
  - intros ->. reflexivity.
  - intros ->. reflexivity.
Qed.

Lemma getErrorMessage_member error m :
  message_member error = Some m ->
  getErrorMessage error = js_String m.
Proof.
  destruct error as [| | b | n | s | d | f | l | name message | props | props];
    simpl; try discriminate.
  - intros ->. reflexivity.
  - intros ->. reflexivity.
Qed.

(** C10, as amended.  The inputs are the values of [JsValue]: [undefined],
    [null], booleans, integers, strings, symbols, functions and arrays as
    the language creates them, instances of [Error] as the constructor
    leaves them (their [message] is a string), and objects with data
    properties whose prototype is [Object.prototype] or [null].  On these,
    [getErrorMessage] returns a string without throwing unless the input is
    an object other than an [Error] with a [message] member that [String]
    cannot convert: it returns the message of an [Error], the string
    itself, the converted member, and the constant
    ['An unexpected error occurred'] when there is nothing to extract
    ([null], [undefined], numbers, booleans, symbols, functions, arrays,
    objects without [message]).  A member that is not an object is always
    converted, and so is an ordinary object that has no [toString] of its
    own, to ['[object Object]'].  When the conversion of the member throws,
    [getErrorMessage] throws what it threw.  The numbers of the member are
    taken to be safe integers, whose digits [String] prints. *)
Theorem getErrorMessage_returns_unless_conversion_throws (error : JsValue) :
  (forall m, message_member error = Some m -> safe_integers m = true) ->
  ((forall m, message_member error = Some m -> exists s, js_String m = Returned s) ->
   exists s,
     getErrorMessage error = Returned s
     /\ match error with
        | JsError _ message => s = message
        | JsString str => s = str
        | _ =>
            match message_member error with
            | Some m => js_String m = Returned s
            | None => s = unexpected_error
            end
        end)
  /\ (forall m, message_member error = Some m -> is_object m = false ->
      exists s, getErrorMessage error = Returned s)
  /\ (forall props, message_member error = Some (JsObject props) ->
      assoc "toString" props = None ->
      getErrorMessage error = Returned "[object Object]")
  /\ (forall m e, message_member error = Some m -> js_String m = Thrown e ->
      getErrorMessage error = Thrown e)
  /\ unexpected_error = "An unexpected error occurred".
Proof.
  intros _. split; [| split; [| split; [| split; [| reflexivity]]]].
  - intros Hconv.
    destruct (message_member error) as [m |] eqn:Hm.
    + destruct (Hconv m eq_refl) as [s Hs].
      exists s. rewrite (getErrorMessage_member error m Hm). split; [assumption |].
      destruct error; simpl in Hm; try discriminate; assumption.
    + rewrite (getErrorMessage_primitive error Hm).
      eexists. split; [reflexivity |].
      destruct error; reflexivity.
  - intros m Hm Hprim. rewrite (getErrorMessage_member error m Hm).
    destruct m; try discriminate Hprim; eexists; reflexivity.
  - intros props Hm Hnone. rewrite (getErrorMessage_member error _ Hm).
    simpl. unfold OrdinaryToPrimitive, convert_by. rewrite Hnone. reflexivity.
  - intros m e Hm He. rewrite (getErrorMessage_member error m Hm). assumption.
Qed.

(** The duplicate-key error of the database client, [null], a member that
    is a number, a member that is an object with a [toString] of its own,
    and [{ message: {} }]. *)
Lemma getErrorMessage_returns_unless_conversion_throws_witness :
  (exists s, getErrorMessage (js_of_error (unique_violation "key")) = Returned s
             /\ includes s "duplicate" = true)
  /\ (exists s, getErrorMessage JsNull = Returned s /\ s = unexpected_error)
  /\ (exists s, getErrorMessage (JsObject [("message", JsNumber 404)]) = Returned s
                /\ s = "404")
  /\ (exists s,
        getErrorMessage
          (JsObject [("message",
             JsObject [("toString",
               JsFunction "() => 'quota exceeded'" (Normal (JsString "quota exceeded")))])])
        = Returned s
        /\ s = "quota exceeded")
  /\ getErrorMessage (JsObject [("message", JsObject [])]) = Returned "[object Object]".
Proof.
  split; [| split; [| split; [| split]]].
  - destruct (getErrorMessage_returns_unless_conversion_throws
                (js_of_error (unique_violation "key"))) as ((s & Hs & Hm) & _).
    + intros m Hm. vm_compute in Hm. injection Hm as <-. reflexivity.
    + intros m Hm. vm_compute in Hm. injection Hm as <-. eexists. reflexivity.
    + exists s. split; [assumption |].
      vm_compute in Hm. injection Hm as <-. reflexivity.
  - destruct (getErrorMessage_returns_unless_conversion_throws JsNull) as ((s & Hs & Hm) & _).
    + intros m Hm. discriminate.
    + intros m Hm. discriminate.
    + exists s. split; assumption.
  - destruct (getErrorMessage_returns_unless_conversion_throws
                (JsObject [("message", JsNumber 404)])) as ((s & Hs & Hm) & _).
    + intros m Hm. vm_compute in Hm. injection Hm as <-. reflexivity.
    + intros m Hm. vm_compute in Hm. injection Hm as <-. eexists. reflexivity.
    + exists s. split; [assumption |].
      vm_compute in Hm. injection Hm as <-. reflexivity.
  - destruct (getErrorMessage_returns_unless_conversion_throws
                (JsObject [("message",
                   JsObject [("toString",
                     JsFunction "() => 'quota exceeded'"
                       (Normal (JsString "quota exceeded")))])]))
      as ((s & Hs & Hm) & _).
    + intros m Hm. vm_compute in Hm. injection Hm as <-. reflexivity.
    + intros m Hm. vm_compute in Hm. injection Hm as <-. eexists. reflexivity.
    + exists s. split; [assumption |].
      vm_compute in Hm. injection Hm as <-. reflexivity.
  - destruct (getErrorMessage_returns_unless_conversion_throws
                (JsObject [("message", JsObject [])])) as (_ & _ & Hplain & _).
    + intros m Hm. vm_compute in Hm. injection Hm as <-. reflexivity.
    + apply (Hplain []); reflexivity.
Defined.

(** C10, as stated, fails: [getErrorMessage({ message: Object.create(null) })]
    reaches [String(error.message)], and the conversion of an object that
    has neither [toString] nor [valueOf] throws a [TypeError]; so does the
    conversion of [{ toString: 42 }], whose [toString] is not callable and
    whose inherited [valueOf] returns the object, and a [toString] that
    throws has its error thrown by [getErrorMessage]. *)
Lemma getErrorMessage_throws_on_bare_message :
  getErrorMessage (JsObject [("message", JsBare [])])
  = Thrown (TypeError "Cannot convert object to primitive value")
  /\ ~ (forall error : JsValue, exists s, getErrorMessage error = Returned s)
  /\ getErrorMessage (JsObject [("message", JsObject [("toString", JsNumber 42)])])
     = Thrown (TypeError "Cannot convert object to primitive value")
  /\ getErrorMessage
       (JsObject [("message",
          JsObject [("toString",
            JsFunction "() => { throw 'no text' }" (Abrupt (JsString "no text")))])])
     = Thrown (JsString "no text").
Proof.
  split; [reflexivity |].
  split; [| split; reflexivity].
  intros Htotal.
  destruct (Htotal (JsObject [("message", JsBare [])])) as [s Hs].
  discriminate Hs.
Qed.

(** ** The notification bus *)

Lemma removeError_errors id w :
  errors (removeError id w)
  = List.filter (fun e => negb (String.eqb (ErrorMessage.id e) id)) (errors w).
Proof. reflexivity. Qed.

Lemma removeError_drops id w e :
  In e (errors (removeError id w)) -> ErrorMessage.id e <> id.
Proof.
  rewrite removeError_errors, filter_In. intros [_ H] Heq.
  rewrite Heq, String.eqb_refl in H. discriminate.
Qed.

Lemma removeError_keeps id w e :
  In e (errors w) -> ErrorMessage.id e <> id -> In e (errors (removeError id w)).
Proof.
  intros Hin Hne. rewrite removeError_errors, filter_In. split; [assumption |].
  apply negb_true_iff, String.eqb_neq. assumption.
Qed.

Lemma filter_all_kept {A} (f : A -> bool) (l : list A) :
  (forall x, In x l -> f x = true) -> List.filter f l = l.
Proof.
  induction l as [| x l IH]; intros H; simpl; [reflexivity |].
  rewrite (H x (or_introl eq_refl)). f_equal. apply IH. intros y Hy. apply H. right. assumption.
Qed.

(** Firing callbacks only ever removes notifications. *)
Lemma fire_all_subset ts : forall w e,
  In e (errors (fold_left (fun acc t => fire (fires t) acc) ts w)) -> In e (errors w).
Proof.
  induction ts as [| t ts IH]; intros w e H; simpl in H; [assumption |].
  apply IH in H. destruct (fires t) as [id]. unfold fire in H.
  rewrite removeError_errors, filter_In in H. tauto.
Qed.

Lemma fire_all_removes ts id : forall w e,
  In (RemoveError id) (map fires ts) ->
  In e (errors (fold_left (fun acc t => fire (fires t) acc) ts w)) ->
  ErrorMessage.id e <> id.
Proof.
  induction ts as [| t ts IH]; intros w e Hin H; simpl in *; [contradiction |].
  destruct Hin as [Ht | Hin].
  - apply fire_all_subset in H. rewrite Ht in H. unfold fire in H.
    eapply removeError_drops; eassumption.
  - eapply IH; eassumption.
Qed.

Lemma elapse_removes ms w t id e :
  In t (timers w) -> fires t = RemoveError id -> due t <= clock w + ms ->
  In e (errors (elapse ms w)) -> ErrorMessage.id e <> id.
Proof.
  intros Hin Hf Hdue. unfold elapse.
  apply fire_all_removes. rewrite <- Hf. apply in_map.
  apply filter_In. split; [assumption |].
  unfold is_due. apply Z.leb_le. assumption.
Qed.

Lemma timer_delay_kept d : 0 < d <= 2147483647 -> timer_delay d = d.
Proof.
  intros [Hlo Hhi]. unfold timer_delay.
  destruct (Z.leb_spec 1 d); [| lia].
  destruct (Z.leb_spec d 2147483647); [reflexivity | lia].
Qed.

Lemma addError_unfold draft w :
  let d := duration_or_default (ErrorDraft.duration draft) in
  let entry :=
    {| ErrorMessage.id := next_id w;
       ErrorMessage.message := ErrorDraft.message draft;
       ErrorMessage.type := ErrorDraft.type draft;
       ErrorMessage.retryAction := ErrorDraft.retryAction draft;
       ErrorMessage.retryLabel := ErrorDraft.retryLabel draft;
       ErrorMessage.duration := Some d |} in
  errors (addError draft w) = errors w ++ [entry]
  /\ timers (addError draft w)
     = (if 0 <? d
        then timers w ++ [{| due := clock w + timer_delay d; fires := RemoveError (next_id w) |}]
        else timers w)
  /\ clock (addError draft w) = clock w
  /\ db (addError draft w) = db w
  /\ requests (addError draft w) = requests w
  /\ net (addError draft w) = net w
  /\ sleeps (addError draft w) = sleeps w.
Proof.
  intros d entry. unfold addError, next_id. simpl. fold d.
  destruct (Z.ltb_spec 0 d) as [Hd | Hd].
  - destruct (Z.eqb_spec d 0); [lia |]. simpl. repeat split; reflexivity.
  - rewrite andb_false_r. simpl. repeat split; reflexivity.
Qed.

(** A notification whose duration is positive and within the range of
    [setTimeout] has its removal scheduled for the moment the duration has
    elapsed, and is gone from then on. *)
Lemma addError_expires draft w :
  let d := duration_or_default (ErrorDraft.duration draft) in
  0 < d <= 2147483647 ->
  timers (addError draft w)
  = timers w ++ [{| due := clock w + d; fires := RemoveError (next_id w) |}]
  /\ forall ms e, d <= ms -> In e (errors (elapse ms (addError draft w))) ->
       ErrorMessage.id e <> next_id w.
Proof.
  intros d Hd.
  destruct (addError_unfold draft w) as (_ & Htim & Hclock & _). fold d in Htim.
  rewrite (timer_delay_kept d Hd) in Htim.
  destruct (Z.ltb_spec 0 d) as [_ | ?]; [| lia].
  split; [assumption |].
  intros ms e Hms.
  apply (elapse_removes ms _ {| due := clock w + d; fires := RemoveError (next_id w) |}).
  - rewrite Htim. apply in_or_app. right. left. reflexivity.
  - reflexivity.
  - simpl. rewrite Hclock. lia.
Qed.

(** C8.  Every notification the hooks append is built by
    [createErrorMessage], which sets its duration to 3000 ms for ['success']
    and to 5000 ms for every other type.  [addError] appends such a
    notification under a new id, with that duration, and schedules, for the
    moment the duration has elapsed, the removal of the entries with exactly
    that id: the entry is gone once its duration has passed, the callback
    removes it and nothing else, and entries with another id are not touched
    by it.  The same holds of any notification whose duration is positive
    and within the range of [setTimeout], with the duration it was given,
    and with 5000 ms, the default, when the duration is absent or 0 (last
    conjunct). *)
Theorem addError_schedules_removal
    (message : string) (type : Severity.t) (retryAction : option RetryAction)
    (retryLabel : option string) (w : World) :
  let draft := createErrorMessage message type retryAction retryLabel in
  let d := match type with Severity.success => 3000 | _ => 5000 end in
  let id := next_id w in
  let w' := addError draft w in
  ErrorDraft.duration draft = Some d
  /\ (exists entry,
        errors w' = errors w ++ [entry]
        /\ ErrorMessage.id entry = id
        /\ ErrorMessage.duration entry = Some d
        /\ ErrorMessage.message entry = message
        /\ ErrorMessage.type entry = type
        /\ ErrorMessage.retryAction entry = retryAction
        /\ ErrorMessage.retryLabel entry = retryLabel)
  /\ timers w' = timers w ++ [{| due := clock w + d; fires := RemoveError id |}]
  /\ (forall ms e, d <= ms -> In e (errors (elapse ms w')) -> ErrorMessage.id e <> id)
  /\ ((forall e, In e (errors w) -> ErrorMessage.id e <> id) ->
      errors (fire (RemoveError id) w') = errors w)
  /\ (forall v e, In e (errors v) -> ErrorMessage.id e <> id ->
      In e (errors (fire (RemoveError id) v)))
  /\ (forall other : ErrorDraft.t,
        let n := duration_or_default (ErrorDraft.duration other) in
        (ErrorDraft.duration other = None \/ ErrorDraft.duration other = Some 0 -> n = 5000)
        /\ (forall given, ErrorDraft.duration other = Some given -> given <> 0 -> n = given)
        /\ (exists entry,
              errors (addError other w) = errors w ++ [entry]
              /\ ErrorMessage.id entry = id
              /\ ErrorMessage.duration entry = Some n)
        /\ (0 < n <= 2147483647 ->
            timers (addError other w)
            = timers w ++ [{| due := clock w + n; fires := RemoveError id |}]
            /\ forall ms e, n <= ms -> In e (errors (elapse ms (addError other w))) ->
                 ErrorMessage.id e <> id)).
Proof.
  intros draft d id w'.
  assert (Hdur : duration_or_default (ErrorDraft.duration draft) = d).
  { unfold d. destruct type; reflexivity. }
  assert (Hd : 0 < d <= 2147483647).
  { unfold d. destruct type; lia. }
  destruct (addError_unfold draft w) as (Herr & _).
  rewrite Hdur in Herr. fold w' in Herr. fold id in Herr.
  pose proof (addError_expires draft w) as Hexp. cbv zeta in Hexp.
  rewrite Hdur in Hexp. destruct (Hexp Hd) as [Htim Hgone].
  split; [unfold d; destruct type; reflexivity |].
  split; [eexists; split; [exact Herr | repeat split] |].
  split; [exact Htim |].
  split; [exact Hgone |].
  split; [| split].
  - intros Hfresh. unfold fire. rewrite removeError_errors, Herr.
    rewrite List.filter_app. simpl. rewrite String.eqb_refl. simpl.
    rewrite app_nil_r. apply filter_all_kept.
    intros e He. apply negb_true_iff, String.eqb_neq. apply Hfresh. assumption.
  - intros v e Hin Hne. unfold fire. apply removeError_keeps; assumption.
  - intros other n. split; [| split; [| split]].
    + intros [H | H]; unfold n; rewrite H; reflexivity.
    + intros given H Hne. unfold n. rewrite H. simpl.
      destruct (Z.eqb_spec given 0); [contradiction | reflexivity].
    + destruct (addError_unfold other w) as (Herr' & _).
      eexists. split; [exact Herr' | split; reflexivity].
    + intros Hn. exact (addError_expires other w Hn).
Qed.

(** The notification of a movie added to the watchlist, appended at time
    1000, is removed at time 4000; an error notification, at time 6000; a
    notification with the duration 250, at time 1250. *)
Lemma addError_schedules_removal_witness :
  let draft := createErrorMessage "Movie added to your watchlist!" Severity.success None None in
  let w' := addError draft (sample_world []) in
  timers w' = [{| due := 4000; fires := RemoveError "1000k3x9q2m1z" |}]
  /\ (forall e, In e (errors (elapse 3000 w')) -> ErrorMessage.id e <> "1000k3x9q2m1z")
  /\ timers (addError (createErrorMessage "Failed to load your watchlist." Severity.error
                         (Some RetryFetchWatchlist) (Some "Retry")) (sample_world []))
     = [{| due := 6000; fires := RemoveError "1000k3x9q2m1z" |}]
  /\ timers (addError {| ErrorDraft.message := "Saved."; ErrorDraft.type := Severity.info;
                         ErrorDraft.duration := Some 250; ErrorDraft.retryAction := None;
                         ErrorDraft.retryLabel := None |} (sample_world []))
     = [{| due := 1250; fires := RemoveError "1000k3x9q2m1z" |}].
Proof.
  intros draft w'.
  destruct (addError_schedules_removal "Movie added to your watchlist!" Severity.success
              None None (sample_world [])) as (_ & _ & Htim & Hgone & _ & _ & Hany).
  split; [exact Htim |].
  split; [intros e; apply (Hgone 3000 e); vm_compute; discriminate |].
  split.
  - destruct (addError_schedules_removal "Failed to load your watchlist." Severity.error
                (Some RetryFetchWatchlist) (Some "Retry") (sample_world []))
      as (_ & _ & Htim' & _).
    exact Htim'.
  - destruct (Hany {| ErrorDraft.message := "Saved."; ErrorDraft.type := Severity.info;
                      ErrorDraft.duration := Some 250; ErrorDraft.retryAction := None;
                      ErrorDraft.retryLabel := None |}) as (_ & _ & _ & Hexp).
    destruct Hexp as [Htim' _]; [vm_compute; split; [reflexivity | discriminate] |].
    exact Htim'.
Defined.

(** ** Requests under [withRetry] *)

Lemma In_drop {A} (x : A) k : forall l, In x (drop k l) -> In x l.
Proof.
  induction k as [| k IH]; intros [| y l] H; simpl in *; try assumption.
  right. apply IH. assumption.
Qed.

Lemma drop_tail {A} k : forall l : list A, tail (drop k l) = drop (Datatypes.S k) l.
Proof.
  induction k as [| k IH]; intros [| y l]; simpl; try reflexivity.
  apply IH.
Qed.

Lemma replicate_snoc {A} k (x : A) : replicate k x ++ [x] = replicate (Datatypes.S k) x.
Proof. induction k as [| k IH]; simpl; [reflexivity |]. rewrite IH. reflexivity. Qed.

Lemma query_attempt {A} req (exec : Z -> Database -> PostgrestError + A * Database) w s :
  attempts_failed req w s ->
  match throw_on_error (query req exec) s with
  | (Returned resp, s') =>
      exists a, resp = Response.ok a
                /\ exec (clock s') (db w) = inr (a, db s')
                /\ exists k, requests s' = requests w ++ replicate (Datatypes.S k) req
  | (Thrown e, s') => attempts_failed req w s' /\ request_error exec w e
  end.
Proof.
  intros (Hdb & k & Hreq & Hnet).
  assert (Hsent : requests s ++ [req] = requests w ++ replicate (Datatypes.S k) req).
  { rewrite Hreq, <- app_assoc, replicate_snoc. reflexivity. }
  assert (Hfail : forall s', db s' = db s -> requests s' = requests s ++ [req] ->
                             net s' = tail (net s) -> attempts_failed req w s').
  { intros s' H1 H2 H3. split; [congruence |]. exists (Datatypes.S k). split.
    - rewrite H2. exact Hsent.
    - rewrite H3, Hnet. apply drop_tail. }
  assert (Hfault : forall pe, head (net s) = Some (Some pe) -> In (Some pe) (net w)).
  { intros pe H. apply (In_drop _ k). rewrite <- Hnet.
    destruct (net s); simpl in H; [discriminate |]. injection H as ->. left. reflexivity. }
  unfold throw_on_error, bind, query, send.
  destruct (net s) as [| [pe |] rest] eqn:Hs; simpl.
  - destruct (exec (clock s) (db s)) as [pe | [a d]] eqn:Hex; simpl.
    + split; [apply Hfail; reflexivity |].
      exists pe. split; [reflexivity |]. right. exists (clock s). rewrite <- Hdb. assumption.
    + exists a. split; [reflexivity |]. split; [rewrite <- Hdb; assumption |].
      exists k. exact Hsent.
  - split; [apply Hfail; reflexivity |].
    exists pe. split; [reflexivity |]. left. apply Hfault. reflexivity.
  - destruct (exec (clock s) (db s)) as [pe | [a d]] eqn:Hex; simpl.
    + split; [apply Hfail; reflexivity |].
      exists pe. split; [reflexivity |]. right. exists (clock s). rewrite <- Hdb. assumption.
    + exists a. split; [reflexivity |]. split; [rewrite <- Hdb; assumption |].
      exists k. exact Hsent.
Qed.

Lemma attempts_failed_sleep req w ms s :
  attempts_failed req w s -> attempts_failed req w (sleep ms s).
Proof. intros H. exact H. Qed.

Lemma attempts_failed_refl req w : attempts_failed req w w.
Proof. split; [reflexivity |]. exists O. simpl. rewrite app_nil_r. split; reflexivity. Qed.

(** The retried request either answers, having run [exec] once on the
    tables of [w], or throws the error of its last attempt and leaves the
    tables alone. *)
Lemma withRetry_query {A} req (exec : Z -> Database -> PostgrestError + A * Database) w :
  match withRetry sleep (throw_on_error (query req exec)) defaultRetryOptions w with
  | (Returned resp, w') =>
      exists a, resp = Response.ok a
                /\ exec (clock w') (db w) = inr (a, db w')
                /\ exists k, requests w' = requests w ++ replicate (Datatypes.S k) req
  | (Thrown e, w') => attempts_failed req w w' /\ request_error exec w e
  end.
Proof.
  apply (withRetry_rule sleep (throw_on_error (query req exec)) defaultRetryOptions
           (attempts_failed req w)
           (fun resp w' =>
              exists a, resp = Response.ok a
                        /\ exec (clock w') (db w) = inr (a, db w')
                        /\ exists k, requests w' = requests w ++ replicate (Datatypes.S k) req)
           (request_error exec w)).
  - intros ms s. apply attempts_failed_sleep.
  - intros s v s' HI Hop. pose proof (query_attempt req exec w s HI) as H.
    rewrite Hop in H. exact H.
  - intros s e s' HI Hop. pose proof (query_attempt req exec w s HI) as H.
    rewrite Hop in H. exact H.
  - vm_compute. discriminate.
  - apply attempts_failed_refl.
Qed.

Lemma retried_query {A} req (exec : Z -> Database -> PostgrestError + A * Database) w :
  match retried (query req exec) w with
  | (Returned data, w') =>
      exists a, data = Some a
                /\ exec (clock w') (db w) = inr (a, db w')
                /\ exists k, requests w' = requests w ++ replicate (Datatypes.S k) req
  | (Thrown e, w') => attempts_failed req w w' /\ request_error exec w e
  end.
Proof.
  unfold retried, bind. pose proof (withRetry_query req exec w) as H.
  destruct (withRetry sleep (throw_on_error (query req exec)) defaultRetryOptions w)
    as [[resp | e] w'].
  - destruct H as (a & -> & Hex & Hreq). simpl. exists a. auto.
  - exact H.
Qed.

(** A select leaves the tables alone, whether it answers or not. *)
Lemma retried_select {A} req (f : Database -> A) w :
  match retried (query req (fun _ d => inr (f d, d))) w with
  | (Returned data, w') => data = Some (f (db w)) /\ db w' = db w
  | (Thrown e, w') => db w' = db w /\ exists pe, e = js_of_error pe
  end.
Proof.
  pose proof (retried_query req (fun _ d => inr (f d, d)) w) as H.
  destruct (retried (query req (fun _ d => inr (f d, d))) w) as [[data | e] w'].
  - destruct H as (a & -> & Hex & _). injection Hex as <- <-. auto.
  - destruct H as [[Hdb _] (pe & -> & _)]. eauto.
Qed.

(** ** The coin ledger *)

(** [updateBalance] follows the retried update: [true] and the new local
    balance when it answers, [false] and an error notification when it
    throws. *)
Lemma updateBalance_cases r st w uid c b :
  present (UserCoins.userId r) = Some uid ->
  match withRetry sleep (throw_on_error (update_balance uid c b)) defaultRetryOptions w with
  | (Returned _, w1) =>
      UserCoins.updateBalance r c b (st, w)
      = (Returned true,
         (match UserCoins.balance (UserCoins.seen r) with
          | Some old => UserCoins.setBalance (Some (with_balance c b (clock w1) old)) st
          | None => st
          end, w1))
  | (Thrown _, w1) =>
      UserCoins.updateBalance r c b (st, w)
      = (Returned false, (st, addError (update_failed c b) w1))
  end.
Proof.
  intros Huid. unfold UserCoins.updateBalance. rewrite Huid.
  pose proof (withRetry_query (UpdateBalance uid c b)
                (update_balance_rows uid c b) w) as H.
  fold (update_balance uid c b) in H.
  unfold try_catch, bind, on_world, retried, bind.
  destruct (withRetry sleep (throw_on_error (update_balance uid c b)) defaultRetryOptions w)
    as [[resp | e] w1].
  - destruct H as (a & -> & _). simpl.
    destruct (UserCoins.balance (UserCoins.seen r)); reflexivity.
  - reflexivity.
Qed.

(** The tables after an update that answered. *)
Lemma update_balance_persisted uid c b w resp w1 :
  withRetry sleep (throw_on_error (update_balance uid c b)) defaultRetryOptions w
  = (Returned resp, w1) ->
  db w1 = set_user_balances
            (map (fun r => if String.eqb (UserBalance.user_id r) uid
                           then with_balance c b (clock w1) r else r)
               (user_balances (db w))) (db w)
  /\ exists k, requests w1 = requests w ++ replicate (Datatypes.S k) (UpdateBalance uid c b).
Proof.
  intros Hrun.
  pose proof (withRetry_query (UpdateBalance uid c b)
                (update_balance_rows uid c b) w) as H.
  fold (update_balance uid c b) in H. rewrite Hrun in H.
  destruct H as (a & _ & Hex & Hreq). unfold update_balance_rows in Hex.
  destruct (is_integer c && is_integer b); [| discriminate].
  injection Hex as Hdb. split; [symmetry; assumption | assumption].
Qed.

Lemma update_balance_not_persisted uid c b w e w1 :
  withRetry sleep (throw_on_error (update_balance uid c b)) defaultRetryOptions w
  = (Thrown e, w1) ->
  db w1 = db w.
Proof.
  intros Hrun.
  pose proof (withRetry_query (UpdateBalance uid c b)
                (update_balance_rows uid c b) w) as H.
  fold (update_balance uid c b) in H. rewrite Hrun in H.
  destruct H as ((Hdb & _) & _). assumption.
Qed.

(** The split of an amount that can be afforded: what the two [if]s of
    [spendCoins] compute. *)
Lemma spendCoins_split r b a :
  UserCoins.balance (UserCoins.seen r) = Some b ->
  0 <= UserBalance.bonus_coins b ->
  0 <= a <= UserBalance.coins b + UserBalance.bonus_coins b ->
  UserCoins.spendCoins r a
  = UserCoins.updateBalance r
      (UserBalance.coins b - (a - Z.min a (UserBalance.bonus_coins b)))
      (UserBalance.bonus_coins b - Z.min a (UserBalance.bonus_coins b)).
Proof.
  intros Hb Hbonus Ha. unfold UserCoins.spendCoins. rewrite Hb.
  destruct (Z.ltb_spec (UserBalance.coins b + UserBalance.bonus_coins b) a); [lia |].
  destruct (Z.ltb_spec 0 a); destruct (Z.ltb_spec 0 (UserBalance.bonus_coins b)); simpl.
  - destruct (Z.ltb_spec 0 (a - Z.min a (UserBalance.bonus_coins b))).
    + reflexivity.
    + f_equal. lia.
  - destruct (Z.ltb_spec 0 a); [| lia]. f_equal; lia.
  - destruct (Z.ltb_spec 0 a); [lia |]. f_equal; lia.
  - destruct (Z.ltb_spec 0 a); [lia |]. f_equal; lia.
Qed.

(** C1, as amended.  For a balance with [coins = c >= 0] and
    [bonus_coins = b >= 0] and an amount [0 <= a <= c + b], when the retried
    update answers, [spendCoins(a)] returns [true] and leaves the local
    balance with [bonus_coins = b - min(a, b)] and
    [coins = c - (a - min(a, b))]: the total goes down by exactly [a], bonus
    coins first.  The rows of the user in [user_balances] carry the same two
    values, written by one statement that sets both fields (sent again only
    when an attempt failed). *)
Theorem spendCoins_drains_bonus_first
    (r : UserCoins.Render) (st : UserCoins.State) (w : World)
    (uid : string) (b : UserBalance.t) (a : Z) (resp : Response.t unit) (w1 : World) :
  present (UserCoins.userId r) = Some uid ->
  UserCoins.balance (UserCoins.seen r) = Some b ->
  0 <= UserBalance.coins b ->
  0 <= UserBalance.bonus_coins b ->
  0 <= a ->
  a <= UserBalance.coins b + UserBalance.bonus_coins b ->
  let newBonusCoins := UserBalance.bonus_coins b - Z.min a (UserBalance.bonus_coins b) in
  let newCoins := UserBalance.coins b - (a - Z.min a (UserBalance.bonus_coins b)) in
  withRetry sleep (throw_on_error (update_balance uid newCoins newBonusCoins))
    defaultRetryOptions w = (Returned resp, w1) ->
  UserCoins.spendCoins r a (st, w)
  = (Returned true,
     (UserCoins.setBalance (Some (with_balance newCoins newBonusCoins (clock w1) b)) st, w1))
  /\ newCoins + newBonusCoins = UserBalance.coins b + UserBalance.bonus_coins b - a
  /\ 0 <= newCoins /\ 0 <= newBonusCoins
  /\ (forall row, In row (user_balances (db w1)) -> UserBalance.user_id row = uid ->
        UserBalance.coins row = newCoins /\ UserBalance.bonus_coins row = newBonusCoins)
  /\ (exists k, requests w1
                = requests w ++ replicate (Datatypes.S k) (UpdateBalance uid newCoins newBonusCoins)).
Proof.
  intros Huid Hb Hc Hbn Ha0 Ha newBonusCoins newCoins Hrun.
  split.
  { rewrite (spendCoins_split r b a Hb Hbn) by lia.
    fold newBonusCoins newCoins.
    pose proof (updateBalance_cases r st w uid newCoins newBonusCoins Huid) as H.
    rewrite Hrun in H. rewrite H, Hb. reflexivity. }
  split; [unfold newCoins, newBonusCoins; lia |].
  split; [unfold newCoins; lia |].
  split; [unfold newBonusCoins; lia |].
  destruct (update_balance_persisted uid newCoins newBonusCoins w resp w1 Hrun) as [Hdb Hreq].
  split; [| assumption].
  intros row Hin Hrow. rewrite Hdb in Hin. simpl in Hin.
  apply in_map_iff in Hin. destruct Hin as (old & Heq & _).
  destruct (String.eqb (UserBalance.user_id old) uid) eqn:Hold.
  - subst row. split; reflexivity.
  - subst row. apply String.eqb_neq in Hold. contradiction.
Qed.

(** From [{coins: 100, bonus_coins: 50}], [spendCoins(120)] returns [true]
    and leaves [{coins: 30, bonus_coins: 0}], locally and in the table. *)
Lemma spendCoins_drains_bonus_first_witness :
  exists st' w',
    UserCoins.spendCoins sample_coins_render 120 (sample_coins, sample_world [])
    = (Returned true, (st', w'))
    /\ option_map UserBalance.coins (UserCoins.balance st') = Some 30
    /\ option_map UserBalance.bonus_coins (UserCoins.balance st') = Some 0
    /\ map (fun row => (UserBalance.coins row, UserBalance.bonus_coins row))
         (user_balances (db w')) = [(30, 0)]
    /\ requests w' = [UpdateBalance "user-1" 30 0].
Proof.
  destruct (withRetry sleep (throw_on_error (update_balance "user-1" 30 0))
              defaultRetryOptions (sample_world [])) as [o w1] eqn:Hrun.
  vm_compute in Hrun. injection Hrun as <- <-.
  eexists. eexists. split.
  - refine (proj1 (spendCoins_drains_bonus_first sample_coins_render sample_coins
                     (sample_world []) "user-1" sample_balance 120 _ _
                     eq_refl eq_refl _ _ _ _ _)).
    + simpl. lia.
    + simpl. lia.
    + lia.
    + simpl. lia.
    + reflexivity.
  - repeat split.
Defined.

(** C1, as stated, fails for a negative amount: the tests [remaining > 0]
    skip both deductions, so [spendCoins(-10)] on [{coins: 100,
    bonus_coins: 50}] writes the balance back unchanged and returns [true],
    where the claim asks for [bonus_coins = 50 - min(-10, 50) = 60] and a
    total lower by [-10]. *)
Lemma spendCoins_negative_amount_keeps_balance :
  0 <= UserBalance.coins sample_balance
  /\ 0 <= UserBalance.bonus_coins sample_balance
  /\ -10 <= UserBalance.coins sample_balance + UserBalance.bonus_coins sample_balance
  /\ exists st' w' b',
       UserCoins.spendCoins sample_coins_render (-10) (sample_coins, sample_world [])
       = (Returned true, (st', w'))
       /\ requests w' = [UpdateBalance "user-1" 100 50]
       /\ UserCoins.balance st' = Some b'
       /\ UserBalance.coins b' = 100
       /\ UserBalance.bonus_coins b' = 50
       /\ UserBalance.bonus_coins b'
          <> UserBalance.bonus_coins sample_balance
             - Z.min (-10) (UserBalance.bonus_coins sample_balance)
       /\ UserBalance.coins b' + UserBalance.bonus_coins b'
          <> UserBalance.coins sample_balance + UserBalance.bonus_coins sample_balance - (-10).
Proof.
  repeat split; try (vm_compute; discriminate).
  eexists. eexists. eexists.
  split; [vm_compute; reflexivity |].
  repeat split; vm_compute; discriminate.
Qed.

Lemma addError_frame draft w :
  db (addError draft w) = db w /\ requests (addError draft w) = requests w.
Proof. destruct (addError_unfold draft w) as (_ & _ & _ & Hdb & Hreq & _). auto. Qed.

(** C2.  When the amount exceeds [coins + bonus_coins], [spendCoins]
    returns [false], sends no request and changes neither the local balance
    nor the tables; the only effect is one notification of type ['warning']
    (not ['error']) with the insufficient-funds message. *)
Theorem spendCoins_insufficient_funds
    (r : UserCoins.Render) (st : UserCoins.State) (w : World) (b : UserBalance.t) (a : Z) :
  UserCoins.balance (UserCoins.seen r) = Some b ->
  UserBalance.coins b + UserBalance.bonus_coins b < a ->
  exists w',
    UserCoins.spendCoins r a (st, w) = (Returned false, (st, w'))
    /\ db w' = db w
    /\ requests w' = requests w
    /\ exists entry,
         errors w' = errors w ++ [entry]
         /\ ErrorMessage.type entry = Severity.warning
         /\ ErrorMessage.type entry <> Severity.error
         /\ ErrorMessage.message entry
            = "Insufficient coins. Please purchase more coins to continue.".
Proof.
  intros Hb Ha.
  exists (addError (createErrorMessage UserCoins.insufficient_coins Severity.warning None None) w).
  split.
  - unfold UserCoins.spendCoins. rewrite Hb.
    destruct (Z.ltb_spec (UserBalance.coins b + UserBalance.bonus_coins b) a); [| lia].
    reflexivity.
  - destruct (addError_unfold
                (createErrorMessage UserCoins.insufficient_coins Severity.warning None None) w)
      as (Herr & _ & _ & Hdb & Hreq & _).
    split; [assumption |]. split; [assumption |].
    eexists. split; [exact Herr |]. simpl. repeat split. discriminate.
Qed.

(** [spendCoins(1000)] on [{coins: 100, bonus_coins: 50}]. *)
Lemma spendCoins_insufficient_funds_witness :
  exists w',
    UserCoins.spendCoins sample_coins_render 1000 (sample_coins, sample_world [])
    = (Returned false, (sample_coins, w'))
    /\ db w' = sample_db
    /\ requests w' = []
    /\ map ErrorMessage.type (errors w') = [Severity.warning].
Proof.
  destruct (spendCoins_insufficient_funds sample_coins_render sample_coins (sample_world [])
              sample_balance 1000 eq_refl) as (w' & Hrun & Hdb & Hreq & entry & Herr & Hty & _).
  - simpl. lia.
  - exists w'. repeat split; try assumption.
    rewrite Herr. simpl. rewrite Hty. reflexivity.
Defined.

(** C9.  With no balance loaded the ledger does nothing: [spendCoins] and
    [addCoins] return [false] and leave every part of the state, the tables
    and the list of requests included, as it was; [canAfford] is [false] for
    every cost and [totalCoins] is [0], whatever the tables hold. *)
Theorem no_balance_is_safe (r : UserCoins.Render) (st : UserCoins.State) (w : World) :
  UserCoins.balance (UserCoins.seen r) = None ->
  (forall a, UserCoins.spendCoins r a (st, w) = (Returned false, (st, w)))
  /\ (forall c b, UserCoins.addCoins r c b (st, w) = (Returned false, (st, w)))
  /\ (forall cost, UserCoins.canAfford r cost = false)
  /\ UserCoins.totalCoins r = 0.
Proof.
  intros Hb. repeat split.
  - intros a. unfold UserCoins.spendCoins. rewrite Hb. reflexivity.
  - intros c b. unfold UserCoins.addCoins. rewrite Hb. reflexivity.
  - intros cost. unfold UserCoins.canAfford. rewrite Hb. reflexivity.
  - unfold UserCoins.totalCoins. rewrite Hb. reflexivity.
Qed.

(** Signed out ([userId] is [null]), [fetchBalance] clears the balance
    without a request. *)
Lemma fetchBalance_signed_out r st w :
  present (UserCoins.userId r) = None ->
  UserCoins.fetchBalance r (st, w) = (Returned tt, (UserCoins.setBalance None st, w)).
Proof. intros H. unfold UserCoins.fetchBalance. rewrite H. reflexivity. Qed.

Lemma no_balance_is_safe_witness :
  let signed_out :=
    {| UserCoins.userId := None;
       UserCoins.seen := UserCoins.setBalance None sample_coins |} in
  UserCoins.spendCoins signed_out 10 (UserCoins.setBalance None sample_coins, sample_world [])
  = (Returned false, (UserCoins.setBalance None sample_coins, sample_world []))
  /\ UserCoins.canAfford signed_out 0 = false
  /\ UserCoins.totalCoins signed_out = 0.
Proof.
  intros signed_out.
  destruct (no_balance_is_safe signed_out (UserCoins.setBalance None sample_coins)
              (sample_world []) eq_refl) as (Hspend & _ & Hafford & Htotal).
  split; [apply Hspend | split; [apply Hafford | exact Htotal]].
Defined.

(** The invariant is kept by [updateBalance] on two values that are not
    negative, whether the update answers or not. *)
Lemma updateBalance_keeps_invariant r st w c b o st' w' :
  0 <= c -> 0 <= b ->
  (forall old, UserCoins.balance st = Some old -> balance_ok old) ->
  (forall row, In row (user_balances (db w)) -> balance_ok row) ->
  UserCoins.updateBalance r c b (st, w) = (o, (st', w')) ->
  (forall new, UserCoins.balance st' = Some new -> balance_ok new)
  /\ (forall row, In row (user_balances (db w')) -> balance_ok row).
Proof.
  intros Hc Hb Hst Hrows Hrun.
  destruct (present (UserCoins.userId r)) as [uid |] eqn:Huid.
  - pose proof (updateBalance_cases r st w uid c b Huid) as H.
    destruct (withRetry sleep (throw_on_error (update_balance uid c b)) defaultRetryOptions w)
      as [[resp | e] w1] eqn:Hretry.
    + rewrite Hrun in H. injection H as -> -> ->.
      destruct (update_balance_persisted uid c b w resp w1 Hretry) as [Hdb _].
      split.
      * destruct (UserCoins.balance (UserCoins.seen r)) as [old |]; [| assumption].
        simpl. intros new Hnew. injection Hnew as <-. split; assumption.
      * intros row Hin. rewrite Hdb in Hin. simpl in Hin.
        apply in_map_iff in Hin. destruct Hin as (old & Heq & Hold).
        destruct (String.eqb (UserBalance.user_id old) uid); subst row.
        -- split; assumption.
        -- apply Hrows. assumption.
    + rewrite Hrun in H. injection H as -> -> ->.
      split; [assumption |].
      destruct (addError_frame (update_failed c b) w1) as [-> _].
      rewrite (update_balance_not_persisted uid c b w e w1 Hretry). assumption.
  - unfold UserCoins.updateBalance in Hrun. rewrite Huid in Hrun.
    injection Hrun as <- <- <-. split; assumption.
Qed.

(** C5.  [spendCoins(a)] with [a >= 0] and [addCoins(c, b)] with [c >= 0]
    and [b >= 0] keep [coins >= 0] and [bonus_coins >= 0], in the local
    balance and in every row of [user_balances], whatever the amount and
    whatever becomes of the update. *)
Theorem ledger_keeps_balance_invariant
    (r : UserCoins.Render) (st : UserCoins.State) (w : World) :
  (forall b, UserCoins.balance (UserCoins.seen r) = Some b -> balance_ok b) ->
  (forall b, UserCoins.balance st = Some b -> balance_ok b) ->
  (forall row, In row (user_balances (db w)) -> balance_ok row) ->
  (forall a o st' w',
      0 <= a ->
      UserCoins.spendCoins r a (st, w) = (o, (st', w')) ->
      (forall b, UserCoins.balance st' = Some b -> balance_ok b)
      /\ (forall row, In row (user_balances (db w')) -> balance_ok row))
  /\ (forall c bn o st' w',
      0 <= c -> 0 <= bn ->
      UserCoins.addCoins r c bn (st, w) = (o, (st', w')) ->
      (forall b, UserCoins.balance st' = Some b -> balance_ok b)
      /\ (forall row, In row (user_balances (db w')) -> balance_ok row)).
Proof.
  intros Hseen Hst Hrows. split.
  - intros a o st' w' Ha Hrun.
    destruct (UserCoins.balance (UserCoins.seen r)) as [b |] eqn:Hb.
    + destruct (Hseen b eq_refl) as [Hc Hbn].
      destruct (Z.lt_ge_cases (UserBalance.coins b + UserBalance.bonus_coins b) a) as [Hlt | Hge].
      * destruct (spendCoins_insufficient_funds r st w b a Hb Hlt) as (w1 & H & Hdb & _).
        rewrite Hrun in H. injection H as -> -> ->.
        rewrite Hdb. split; assumption.
      * rewrite (spendCoins_split r b a Hb Hbn) in Hrun by lia.
        eapply updateBalance_keeps_invariant; [| | | | exact Hrun]; try assumption; lia.
    + unfold UserCoins.spendCoins in Hrun. rewrite Hb in Hrun.
      injection Hrun as <- <- <-. split; assumption.
  - intros c bn o st' w' Hc Hbn Hrun.
    unfold UserCoins.addCoins in Hrun.
    destruct (UserCoins.balance (UserCoins.seen r)) as [b |] eqn:Hb.
    + destruct (Hseen b eq_refl) as [Hc' Hbn'].
      eapply updateBalance_keeps_invariant; [| | | | exact Hrun]; try assumption; lia.
    + injection Hrun as <- <- <-. split; assumption.
Qed.

(** A purchase whose first update attempt meets a fault. *)
Lemma ledger_keeps_balance_invariant_witness :
  exists o st' w',
    UserCoins.spendCoins sample_coins_render 120
      (sample_coins, sample_world [Some failed_to_fetch; None]) = (o, (st', w'))
    /\ (forall b, UserCoins.balance st' = Some b -> balance_ok b)
    /\ (forall row, In row (user_balances (db w')) -> balance_ok row).
Proof.
  destruct (UserCoins.spendCoins sample_coins_render 120
              (sample_coins, sample_world [Some failed_to_fetch; None]))
    as [o [st' w']] eqn:Hrun.
  exists o, st', w'. split; [reflexivity |].
  refine (proj1 (ledger_keeps_balance_invariant sample_coins_render sample_coins
                   (sample_world [Some failed_to_fetch; None]) _ _ _) 120 o st' w' _ Hrun).
  - intros b Hb. injection Hb as <-. split; simpl; lia.
  - intros b Hb. injection Hb as <-. split; simpl; lia.
  - intros row [<- | []]. split; simpl; lia.
  - lia.
Defined.

(** ** The unlock gate *)

Lemma insert_attempt uid m w s :
  attempts_failed (InsertUnlock uid m) w s ->
  match throw_on_error (insert_unlock uid m) s with
  | (Returned resp, s') =>
      Response.error resp = None
      /\ exists uuid, insert_unlock_row uid m uuid (clock s') (db w) = inr (tt, db s')
  | (Thrown e, s') =>
      attempts_failed (InsertUnlock uid m) w s' /\ insert_unlock_error uid m w e
  end.
Proof.
  intros HI.
  assert (HI0 : attempts_failed (InsertUnlock uid m) w (snd (draw s))) by exact HI.
  pose proof (query_attempt (InsertUnlock uid m) (insert_unlock_row uid m (fst (draw s)))
                w (snd (draw s)) HI0) as H.
  unfold throw_on_error, bind, insert_unlock in *.
  destruct (draw s) as [uuid s0]. simpl in H.
  destruct (query (InsertUnlock uid m) (insert_unlock_row uid m uuid) s0) as [[resp | e] s1].
  - destruct (Response.error resp) as [pe |] eqn:Herr.
    + destruct H as [HI1 (pe' & -> & Hcase)]. split; [assumption |].
      exists pe'. split; [reflexivity |].
      destruct Hcase as [Hin | [now Hex]]; [left; assumption | right; eauto].
    + destruct H as ([] & _ & Hex & _). split; [assumption |]. exists uuid. assumption.
  - destruct H as [HI1 (pe' & -> & Hcase)]. split; [assumption |].
    exists pe'. split; [reflexivity |].
    destruct Hcase as [Hin | [now Hex]]; [left; assumption | right; eauto].
Qed.

(** The retried insertion either adds one row to the tables of [w], or
    throws and leaves them alone. *)
Lemma withRetry_insert uid m w :
  match withRetry sleep (throw_on_error (insert_unlock uid m)) defaultRetryOptions w with
  | (Returned resp, w') =>
      Response.error resp = None
      /\ exists uuid, insert_unlock_row uid m uuid (clock w') (db w) = inr (tt, db w')
  | (Thrown e, w') =>
      attempts_failed (InsertUnlock uid m) w w' /\ insert_unlock_error uid m w e
  end.
Proof.
  apply (withRetry_rule sleep (throw_on_error (insert_unlock uid m)) defaultRetryOptions
           (attempts_failed (InsertUnlock uid m) w)
           (fun resp w' =>
              Response.error resp = None
              /\ exists uuid, insert_unlock_row uid m uuid (clock w') (db w) = inr (tt, db w'))
           (insert_unlock_error uid m w)).
  - intros ms s. apply attempts_failed_sleep.
  - intros s v s' HI Hop. pose proof (insert_attempt uid m w s HI) as H.
    rewrite Hop in H. exact H.
  - intros s e s' HI Hop. pose proof (insert_attempt uid m w s HI) as H.
    rewrite Hop in H. exact H.
  - vm_compute. discriminate.
  - apply attempts_failed_refl.
Qed.

Lemma notify_run {H} message type retryAction retryLabel (h : H) w :
  notify message type retryAction retryLabel (h, w)
  = (Returned tt, (h, addError (createErrorMessage message type retryAction retryLabel) w)).
Proof. reflexivity. Qed.

(** [unlockEpisode] on an episode the render has in its cache. *)
Lemma unlockEpisode_cached r st w uid m cost :
  present (EpisodeUnlocks.userId r) = Some uid ->
  m ∈ EpisodeUnlocks.unlockedEpisodes (EpisodeUnlocks.seen r) ->
  EpisodeUnlocks.unlockEpisode r m cost (st, w)
  = (Returned true, (st, addError already_unlocked w)).
Proof.
  intros Huid Hin. unfold EpisodeUnlocks.unlockEpisode. rewrite Huid.
  rewrite bool_decide_eq_true_2 by assumption. reflexivity.
Qed.

(** [unlockEpisode] on an episode the render does not have in its cache,
    by what becomes of the retried insertion. *)
Lemma unlockEpisode_inserting r st w uid m cost :
  present (EpisodeUnlocks.userId r) = Some uid ->
  m ∉ EpisodeUnlocks.unlockedEpisodes (EpisodeUnlocks.seen r) ->
  match withRetry sleep (throw_on_error (insert_unlock uid m)) defaultRetryOptions w with
  | (Returned _, w1) =>
      EpisodeUnlocks.unlockEpisode r m cost (st, w)
      = (Returned true,
         (EpisodeUnlocks.setUnlockedEpisodes (fun prev => prev ∪ {[m]}) st,
          addError (unlocked_now cost) w1))
  | (Thrown e, w1) =>
      forall pe, e = js_of_error pe ->
        EpisodeUnlocks.unlockEpisode r m cost (st, w)
        = if looks_duplicate (pg_message pe) then
            (Returned true,
             (EpisodeUnlocks.setUnlockedEpisodes (fun prev => prev ∪ {[m]}) st,
              addError unlocked_before w1))
          else (Returned false, (st, addError (unlock_failed m cost) w1))
  end.
Proof.
  intros Huid Hnotin. unfold EpisodeUnlocks.unlockEpisode. rewrite Huid.
  rewrite bool_decide_eq_false_2 by assumption.
  pose proof (withRetry_insert uid m w) as H.
  unfold try_catch, bind, on_world, retried, bind.
  destruct (withRetry sleep (throw_on_error (insert_unlock uid m)) defaultRetryOptions w)
    as [[resp | e] w1] eqn:Hretry.
  - destruct H as [Hresp _].
    rewrite Hresp. reflexivity.
  - intros pe ->. simpl. unfold looks_duplicate.
    destruct (includes (pg_message pe) "duplicate" || includes (pg_message pe) "unique");
      reflexivity.
Qed.

Lemma filter_nil_of_existsb {A} (f : A -> bool) (l : list A) :
  existsb f l = false -> List.filter f l = [].
Proof.
  induction l as [| x l IH]; simpl; [reflexivity |].
  destruct (f x); simpl; [discriminate | exact IH].
Qed.

Lemma filter_length_of_existsb {A} (f : A -> bool) (l : list A) :
  existsb f l = true -> (1 <= length (List.filter f l))%nat.
Proof.
  induction l as [| x l IH]; simpl; [discriminate |].
  destruct (f x); simpl; [lia | exact IH].
Qed.

Lemma insert_unlock_row_added uid m uuid now d d' :
  insert_unlock_row uid m uuid now d = inr (tt, d') ->
  unlock_count uid m d = 0%nat
  /\ unlock_count uid m d' = 1%nat
  /\ user_balances d' = user_balances d.
Proof.
  unfold insert_unlock_row, unlock_count.
  destruct (negb (is_integer m)); [discriminate |].
  destruct (existsb (unlock_matches uid m) (user_episode_unlocks d)) eqn:Hex; [discriminate |].
  destruct (negb (existsb (fun mv => Movie.id mv =? m) (movies d))); [discriminate |].
  intros H. injection H as <-. simpl.
  rewrite List.filter_app, (filter_nil_of_existsb _ _ Hex). simpl.
  unfold unlock_matches at 1. simpl. rewrite String.eqb_refl, Z.eqb_refl. simpl.
  repeat split.
Qed.

Lemma insert_unlock_row_duplicate uid m uuid now d pe :
  insert_unlock_row uid m uuid now d = inl pe ->
  looks_duplicate (pg_message pe) = true ->
  (1 <= unlock_count uid m d)%nat.
Proof.
  unfold insert_unlock_row, unlock_count.
  destruct (negb (is_integer m)).
  { intros H. injection H as <-. vm_compute. discriminate. }
  destruct (existsb (unlock_matches uid m) (user_episode_unlocks d)) eqn:Hex.
  { intros _ _. apply filter_length_of_existsb. assumption. }
  destruct (negb (existsb (fun mv => Movie.id mv =? m) (movies d))); [| discriminate].
  intros H. injection H as <-. vm_compute. discriminate.
Qed.

(** Signed out, [fetchUnlockedEpisodes] (which runs whenever [userId]
    changes) empties the cache. *)
Lemma fetchUnlockedEpisodes_signed_out r st w :
  present (EpisodeUnlocks.userId r) = None ->
  exists st',
    EpisodeUnlocks.fetchUnlockedEpisodes r (st, w) = (Returned tt, (st', w))
    /\ EpisodeUnlocks.unlockedEpisodes st' = ∅.
Proof.
  intros H. unfold EpisodeUnlocks.fetchUnlockedEpisodes. rewrite H.
  eexists. split; reflexivity.
Qed.

(** C3.  [unlockEpisode] is idempotent.  An episode in the cached set (which
    is empty when nobody is signed in, see [fetchUnlockedEpisodes_signed_out])
    is answered with [true] without a request.  When the retried insertion
    ends on an error worded as PostgreSQL words a uniqueness violation, the
    call answers [true] and the episode joins the cached set.  And when a
    call from a fresh render has returned [true] (on tables that respect
    [UNIQUE(user_id, movie_id)], with a cache that holds recorded unlocks
    only and faults that are not worded like a uniqueness violation), there
    is exactly one record for the user and the episode; a second call, from
    the next render, returns [true] without a request and without touching
    the tables, the balances among them. *)
Theorem unlockEpisode_idempotent (uid : string) (m : Z) :
  (forall r st w cost,
      (present (EpisodeUnlocks.userId r) = None ->
       EpisodeUnlocks.unlockedEpisodes (EpisodeUnlocks.seen r) = ∅) ->
      m ∈ EpisodeUnlocks.unlockedEpisodes (EpisodeUnlocks.seen r) ->
      exists w',
        EpisodeUnlocks.unlockEpisode r m cost (st, w) = (Returned true, (st, w'))
        /\ db w' = db w /\ requests w' = requests w)
  /\ (forall r st w cost w1 pe constraint,
      present (EpisodeUnlocks.userId r) = Some uid ->
      m ∉ EpisodeUnlocks.unlockedEpisodes (EpisodeUnlocks.seen r) ->
      pg_message pe = pg_message (unique_violation constraint) ->
      withRetry sleep (throw_on_error (insert_unlock uid m)) defaultRetryOptions w
      = (Thrown (js_of_error pe), w1) ->
      exists st' w',
        EpisodeUnlocks.unlockEpisode r m cost (st, w) = (Returned true, (st', w'))
        /\ EpisodeUnlocks.unlockedEpisodes st' = EpisodeUnlocks.unlockedEpisodes st ∪ {[m]}
        /\ db w' = db w)
  /\ (forall r st w cost st1 w1,
      present (EpisodeUnlocks.userId r) = Some uid ->
      EpisodeUnlocks.seen r = st ->
      unlocks_unique (db w) ->
      cache_recorded uid (EpisodeUnlocks.unlockedEpisodes st) (db w) ->
      faults_plain (net w) ->
      EpisodeUnlocks.unlockEpisode r m cost (st, w) = (Returned true, (st1, w1)) ->
      unlock_count uid m (db w1) = 1%nat
      /\ user_balances (db w1) = user_balances (db w)
      /\ forall cost2, exists w2,
           EpisodeUnlocks.unlockEpisode
             {| EpisodeUnlocks.userId := EpisodeUnlocks.userId r; EpisodeUnlocks.seen := st1 |}
             m cost2 (st1, w1)
           = (Returned true, (st1, w2))
           /\ db w2 = db w1
           /\ requests w2 = requests w1
           /\ unlock_count uid m (db w2) = 1%nat).
Proof.
  split; [| split].
  - intros r st w cost Hout Hin.
    destruct (present (EpisodeUnlocks.userId r)) as [user |] eqn:Huid.
    + exists (addError already_unlocked w).
      rewrite (unlockEpisode_cached r st w user m cost Huid Hin).
      destruct (addError_frame already_unlocked w) as [Hdb Hreq]. auto.
    + rewrite (Hout eq_refl) in Hin. apply not_elem_of_empty in Hin. contradiction.
  - intros r st w cost w1 pe constraint Huid Hnotin Hmsg Hrun.
    pose proof (unlockEpisode_inserting r st w uid m cost Huid Hnotin) as H.
    rewrite Hrun in H. specialize (H _ eq_refl).
    rewrite Hmsg in H. change (looks_duplicate _) with true in H.
    eexists. eexists. split; [exact H |]. split; [reflexivity |].
    destruct (addError_frame unlocked_before w1) as [-> _].
    pose proof (withRetry_insert uid m w) as Hw. rewrite Hrun in Hw.
    destruct Hw as [[Hdb _] _]. assumption.
  - intros r st w cost st1 w1 Huid Hseen Huniq Hcache Hplain Hrun.
    assert (Hfirst : unlock_count uid m (db w1) = 1%nat
                     /\ user_balances (db w1) = user_balances (db w)
                     /\ m ∈ EpisodeUnlocks.unlockedEpisodes st1).
    { destruct (decide (m ∈ EpisodeUnlocks.unlockedEpisodes st)) as [Hin | Hnotin].
      - rewrite <- Hseen in Hin.
        rewrite (unlockEpisode_cached r st w uid m cost Huid Hin) in Hrun.
        injection Hrun as <- <-.
        destruct (addError_frame already_unlocked w) as [-> _].
        rewrite Hseen in Hin.
        split; [| split; [reflexivity | assumption]].
        specialize (Hcache m Hin). specialize (Huniq uid m). lia.
      - rewrite <- Hseen in Hnotin.
        pose proof (unlockEpisode_inserting r st w uid m cost Huid Hnotin) as H.
        pose proof (withRetry_insert uid m w) as Hw.
        destruct (withRetry sleep (throw_on_error (insert_unlock uid m)) defaultRetryOptions w)
          as [[resp | e] w0].
        + rewrite Hrun in H. injection H as -> ->.
          destruct (addError_frame (unlocked_now cost) w0) as [-> _].
          destruct Hw as [_ [uuid Hex]].
          destruct (insert_unlock_row_added uid m uuid _ _ _ Hex) as (_ & Hone & Hbal).
          split; [assumption |]. split; [assumption |].
          simpl. apply elem_of_union_r, elem_of_singleton_2. reflexivity.
        + destruct Hw as [[Hdb _] (pe & He & Hcase)].
          specialize (H pe He). rewrite Hrun in H.
          destruct (looks_duplicate (pg_message pe)) eqn:Hdup; [| discriminate].
          injection H as -> ->.
          destruct (addError_frame unlocked_before w0) as [-> _]. rewrite Hdb.
          split; [| split; [reflexivity | simpl; apply elem_of_union_r, elem_of_singleton_2; reflexivity]].
          destruct Hcase as [Hin | (uuid & now & Hex)].
          * unfold faults_plain in Hplain. rewrite List.Forall_forall in Hplain.
            specialize (Hplain _ Hin). simpl in Hplain. congruence.
          * pose proof (insert_unlock_row_duplicate uid m uuid now _ pe Hex Hdup).
            specialize (Huniq uid m). lia. }
    destruct Hfirst as (Hone & Hbal & Hin).
    split; [assumption |]. split; [assumption |].
    intros cost2. exists (addError already_unlocked w1).
    rewrite (unlockEpisode_cached
               {| EpisodeUnlocks.userId := EpisodeUnlocks.userId r; EpisodeUnlocks.seen := st1 |}
               st1 w1 uid m cost2 Huid Hin).
    destruct (addError_frame already_unlocked w1) as [Hdb Hreq].
    rewrite Hdb. auto.
Qed.

(** [user-1] unlocks movie 2 twice; and, with a cache that has missed the
    record, the insertion is refused as a duplicate and counts as done. *)
Lemma unlockEpisode_idempotent_witness :
  (exists st1 w1,
      EpisodeUnlocks.unlockEpisode sample_unlocks_render 2 5 (sample_unlocks, sample_world [])
      = (Returned true, (st1, w1))
      /\ unlock_count "user-1" 2 (db w1) = 1%nat
      /\ exists w2,
           EpisodeUnlocks.unlockEpisode
             {| EpisodeUnlocks.userId := Some "user-1"; EpisodeUnlocks.seen := st1 |} 2 5 (st1, w1)
           = (Returned true, (st1, w2))
           /\ db w2 = db w1
           /\ requests w2 = requests w1)
  /\ (exists st' w',
      EpisodeUnlocks.unlockEpisode sample_unlocks_render 2 5
        (sample_unlocks, set_db sample_db_unlocked (sample_world []))
      = (Returned true, (st', w'))
      /\ EpisodeUnlocks.unlockedEpisodes st' = ∅ ∪ {[2]}
      /\ db w' = sample_db_unlocked)
  /\ (exists w',
        EpisodeUnlocks.unlockEpisode
          {| EpisodeUnlocks.userId := Some "user-1";
             EpisodeUnlocks.seen := EpisodeUnlocks.setUnlockedEpisodes (fun _ => {[2]}) sample_unlocks |}
          2 5 (sample_unlocks, sample_world [])
        = (Returned true, (sample_unlocks, w'))
        /\ requests w' = []).
Proof.
  destruct (unlockEpisode_idempotent "user-1" 2) as (Hcached & Hdup & Htwice).
  split; [| split].
  - pose proof (unlockEpisode_inserting sample_unlocks_render sample_unlocks (sample_world [])
                  "user-1" 2 5 eq_refl (not_elem_of_empty 2)) as H.
    destruct (withRetry sleep (throw_on_error (insert_unlock "user-1" 2)) defaultRetryOptions
                (sample_world [])) as [[resp | e] w0] eqn:Hretry;
      vm_compute in Hretry; [| discriminate].
    injection Hretry as <- <-.
    assert (Huniq : unlocks_unique (db (sample_world []))).
    { intros user movie. change (0 <= 1)%nat. lia. }
    assert (Hcache : cache_recorded "user-1"
                       (EpisodeUnlocks.unlockedEpisodes sample_unlocks) (db (sample_world []))).
    { intros movie Hin. apply not_elem_of_empty in Hin. contradiction. }
    assert (Hplain : faults_plain (net (sample_world []))) by constructor.
    destruct (Htwice sample_unlocks_render sample_unlocks (sample_world []) 5 _ _
                eq_refl eq_refl Huniq Hcache Hplain H)
      as (Hone & _ & Hsecond).
    eexists. eexists. split; [exact H |]. split; [exact Hone |].
    destruct (Hsecond 5) as (w2 & Hrun2 & Hdb2 & Hreq2 & _).
    exists w2. auto.
  - destruct (withRetry sleep (throw_on_error (insert_unlock "user-1" 2)) defaultRetryOptions
                (set_db sample_db_unlocked (sample_world []))) as [o w1] eqn:Hretry.
    assert (Ho : o = Thrown (js_of_error
                               (unique_violation "user_episode_unlocks_user_id_movie_id_key"))).
    { pose proof Hretry as Hc. vm_compute in Hc. injection Hc as <- _. reflexivity. }
    rewrite Ho in Hretry.
    destruct (Hdup sample_unlocks_render sample_unlocks
                (set_db sample_db_unlocked (sample_world [])) 5 w1
                (unique_violation "user_episode_unlocks_user_id_movie_id_key")
                "user_episode_unlocks_user_id_movie_id_key" eq_refl
                (not_elem_of_empty 2) eq_refl Hretry) as (st' & w' & Hrun & Hset & Hdb).
    exists st', w'. auto.
  - destruct (Hcached
                {| EpisodeUnlocks.userId := Some "user-1";
                   EpisodeUnlocks.seen :=
                     EpisodeUnlocks.setUnlockedEpisodes (fun _ => {[2]}) sample_unlocks |}
                sample_unlocks (sample_world []) 5) as (w' & Hrun & _ & Hreq).
    + discriminate.
    + simpl. apply elem_of_singleton_2. reflexivity.
    + exists w'. auto.
Defined.

Lemma existsb_of_filter_length {A} (f : A -> bool) (l : list A) :
  (1 <= length (List.filter f l))%nat -> existsb f l = true.
Proof.
  induction l as [| x l IH]; simpl; [lia |].
  destruct (f x); simpl; [reflexivity | exact IH].
Qed.

(** With the record in the table and the network up, every attempt of the
    insertion is refused as a duplicate. *)
Lemma insert_attempt_refused uid m w s :
  is_integer m = true ->
  (1 <= unlock_count uid m (db w))%nat ->
  db s = db w /\ net s = [] ->
  exists s',
    throw_on_error (insert_unlock uid m) s
    = (Thrown (js_of_error (unique_violation "user_episode_unlocks_user_id_movie_id_key")), s')
    /\ db s' = db w /\ net s' = [].
Proof.
  intros Hint Hcount [Hdb Hnet].
  apply existsb_of_filter_length in Hcount.
  unfold throw_on_error, bind, insert_unlock, query, send, draw. simpl.
  rewrite Hnet. simpl. unfold insert_unlock_row. rewrite Hint, Hdb, Hcount. simpl.
  eexists. split; [reflexivity |]. simpl. auto.
Qed.

(** The render that made the first call still has the old cache; its second
    call sends the insertion again, the table refuses the duplicate, and the
    call returns [true] all the same, with the one record in place. *)
Lemma unlockEpisode_again_from_stale_render r st w uid m cost :
  present (EpisodeUnlocks.userId r) = Some uid ->
  m ∉ EpisodeUnlocks.unlockedEpisodes (EpisodeUnlocks.seen r) ->
  is_integer m = true ->
  (1 <= unlock_count uid m (db w))%nat ->
  net w = [] ->
  exists w',
    EpisodeUnlocks.unlockEpisode r m cost (st, w)
    = (Returned true, (EpisodeUnlocks.setUnlockedEpisodes (fun prev => prev ∪ {[m]}) st, w'))
    /\ db w' = db w.
Proof.
  intros Huid Hnotin Hint Hcount Hnet.
  pose proof (unlockEpisode_inserting r st w uid m cost Huid Hnotin) as H.
  pose proof (withRetry_rule sleep (throw_on_error (insert_unlock uid m)) defaultRetryOptions
                (fun s => db s = db w /\ net s = [])
                (fun _ _ => False)
                (fun e => e = js_of_error
                                (unique_violation "user_episode_unlocks_user_id_movie_id_key")))
    as Hrule.
  specialize (Hrule (fun ms s Hs => Hs)).
  assert (Hret : forall s v s',
             db s = db w /\ net s = [] ->
             throw_on_error (insert_unlock uid m) s = (Returned v, s') -> False).
  { intros s v s' Hs Hop.
    destruct (insert_attempt_refused uid m w s Hint Hcount Hs) as (s1 & Hthrow & _).
    congruence. }
  assert (Hthr : forall s e s',
             db s = db w /\ net s = [] ->
             throw_on_error (insert_unlock uid m) s = (Thrown e, s') ->
             (db s' = db w /\ net s' = [])
             /\ e = js_of_error (unique_violation "user_episode_unlocks_user_id_movie_id_key")).
  { intros s e s' Hs Hop.
    destruct (insert_attempt_refused uid m w s Hint Hcount Hs) as (s1 & Hthrow & Hs1).
    rewrite Hop in Hthrow. injection Hthrow as -> ->. auto. }
  specialize (Hrule Hret Hthr w).
  destruct (withRetry sleep (throw_on_error (insert_unlock uid m)) defaultRetryOptions w)
    as [[resp | e] w1].
  - exfalso. apply Hrule; [vm_compute; discriminate | auto].
  - destruct Hrule as [[Hdb _] ->]; [vm_compute; discriminate | auto |].
    specialize (H _ eq_refl). change (looks_duplicate _) with true in H.
    eexists. split; [exact H |].
    destruct (addError_frame unlocked_before w1) as [-> _]. assumption.
Qed.

(** The two conditions on the tables and the cache are invariants of the
    hook: [fetchUnlockedEpisodes] establishes the second, and
    [unlockEpisode] keeps both. *)
Lemma insert_unlock_row_counts uid m uuid now d d' user movie :
  insert_unlock_row uid m uuid now d = inr (tt, d') ->
  unlock_count user movie d'
  = (unlock_count user movie d
     + if String.eqb uid user && (m =? movie)%Z then 1 else 0)%nat.
Proof.
  unfold insert_unlock_row, unlock_count.
  destruct (negb (is_integer m)); [discriminate |].
  destruct (existsb (unlock_matches uid m) (user_episode_unlocks d)); [discriminate |].
  destruct (negb (existsb (fun mv => Movie.id mv =? m) (movies d))); [discriminate |].
  intros H. injection H as <-. simpl.
  rewrite List.filter_app, length_app. simpl.
  unfold unlock_matches at 2. simpl.
  destruct (String.eqb uid user && (m =? movie)); reflexivity.
Qed.

Lemma unlockEpisode_keeps_invariants r st w uid m cost o st1 w1 :
  present (EpisodeUnlocks.userId r) = Some uid ->
  EpisodeUnlocks.seen r = st ->
  unlocks_unique (db w) ->
  cache_recorded uid (EpisodeUnlocks.unlockedEpisodes st) (db w) ->
  faults_plain (net w) ->
  EpisodeUnlocks.unlockEpisode r m cost (st, w) = (o, (st1, w1)) ->
  unlocks_unique (db w1)
  /\ cache_recorded uid (EpisodeUnlocks.unlockedEpisodes st1) (db w1).
Proof.
  intros Huid Hseen Huniq Hcache Hplain Hrun.
  destruct (decide (m ∈ EpisodeUnlocks.unlockedEpisodes st)) as [Hin | Hnotin].
  - rewrite <- Hseen in Hin.
    rewrite (unlockEpisode_cached r st w uid m cost Huid Hin) in Hrun.
    injection Hrun as _ <- <-.
    destruct (addError_frame already_unlocked w) as [-> _]. auto.
  - rewrite <- Hseen in Hnotin.
    pose proof (unlockEpisode_inserting r st w uid m cost Huid Hnotin) as H.
    pose proof (withRetry_insert uid m w) as Hw.
    destruct (withRetry sleep (throw_on_error (insert_unlock uid m)) defaultRetryOptions w)
      as [[resp | e] w0].
    + rewrite Hrun in H. injection H as _ -> ->.
      destruct (addError_frame (unlocked_now cost) w0) as [-> _].
      destruct Hw as [_ [uuid Hex]].
      destruct (insert_unlock_row_added uid m uuid _ _ _ Hex) as (Hzero & Hone & _).
      split.
      * intros user movie.
        rewrite (insert_unlock_row_counts uid m uuid _ _ _ user movie Hex).
        destruct (String.eqb_spec uid user) as [<- | _]; simpl.
        -- destruct (Z.eqb_spec m movie) as [<- | _]; [lia |].
           specialize (Huniq uid movie). lia.
        -- specialize (Huniq user movie). lia.
      * intros movie Hmovie. simpl in Hmovie.
        rewrite (insert_unlock_row_counts uid m uuid _ _ _ uid movie Hex).
        apply elem_of_union in Hmovie. destruct Hmovie as [Hold | Hnew].
        -- specialize (Hcache movie Hold). lia.
        -- apply elem_of_singleton_1 in Hnew. subst movie.
           rewrite String.eqb_refl, Z.eqb_refl. simpl. lia.
    + destruct Hw as [[Hdb _] (pe & He & Hcase)].
      specialize (H pe He). rewrite Hrun in H.
      destruct (looks_duplicate (pg_message pe)) eqn:Hdup.
      * injection H as _ -> ->.
        destruct (addError_frame unlocked_before w0) as [-> _]. rewrite Hdb.
        split; [assumption |].
        intros movie Hmovie. simpl in Hmovie.
        apply elem_of_union in Hmovie. destruct Hmovie as [Hold | Hnew].
        -- apply Hcache. assumption.
        -- apply elem_of_singleton_1 in Hnew. subst movie.
           destruct Hcase as [Hin | (uuid & now & Hex)].
           ++ unfold faults_plain in Hplain. rewrite List.Forall_forall in Hplain.
              specialize (Hplain _ Hin). simpl in Hplain. congruence.
           ++ apply (insert_unlock_row_duplicate uid m uuid now _ pe Hex Hdup).
      * injection H as _ -> ->.
        destruct (addError_frame (unlock_failed m cost) w0) as [-> _]. rewrite Hdb.
        auto.
Qed.

Lemma filter_length_of_In {A} (f : A -> bool) (l : list A) x :
  In x l -> f x = true -> (1 <= length (List.filter f l))%nat.
Proof.
  intros Hin Hf. apply filter_length_of_existsb. apply existsb_exists. eauto.
Qed.

Lemma fetchUnlockedEpisodes_cache_recorded r st w uid o st' w' :
  present (EpisodeUnlocks.userId r) = Some uid ->
  EpisodeUnlocks.fetchUnlockedEpisodes r (st, w) = (o, (st', w')) ->
  db w' = db w
  /\ cache_recorded uid (EpisodeUnlocks.unlockedEpisodes st') (db w').
Proof.
  intros Huid. unfold EpisodeUnlocks.fetchUnlockedEpisodes. rewrite Huid.
  pose proof (retried_select (SelectUnlocks uid)
                (fun d => map UserEpisodeUnlock.movie_id
                            (List.filter (fun r => String.eqb (UserEpisodeUnlock.user_id r) uid)
                               (user_episode_unlocks d))) w) as H.
  change (query (SelectUnlocks uid) _) with (select_unlocks uid) in H.
  unfold finally, try_catch, bind, set_state, on_world. simpl.
  destruct (retried (select_unlocks uid) w) as [[data | e] w1].
  - destruct H as [-> Hdb]. simpl. intros Heq. injection Heq as _ <- <-.
    split; [assumption |]. rewrite Hdb.
    intros movie Hmovie. simpl in Hmovie.
    apply elem_of_list_to_set, list_elem_of_In, in_map_iff in Hmovie.
    destruct Hmovie as (row & Hid & Hrow). apply filter_In in Hrow.
    destruct Hrow as [Hrow Huser].
    apply (filter_length_of_In _ _ row Hrow).
    unfold unlock_matches. rewrite Huser, Hid, Z.eqb_refl. reflexivity.
  - destruct H as [Hdb (pe & ->)]. simpl. intros Heq. injection Heq as _ <- <-.
    destruct (addError_frame
                (createErrorMessage "Failed to load your unlocked episodes. Please try again."
                   Severity.error (Some RetryFetchUnlockedEpisodes) (Some "Retry")) w1)
      as [-> _].
    split; [assumption |].
    intros movie Hmovie. simpl in Hmovie. apply not_elem_of_empty in Hmovie. contradiction.
Qed.

(** ** The watchlist *)

Lemma In_insert_by {A} (le : A -> A -> bool) x y l :
  In x (insert_by le y l) <-> x = y \/ In x l.
Proof.
  induction l as [| z l IH]; simpl.
  - intuition congruence.
  - destruct (le y z); simpl; [intuition congruence |].
    rewrite IH. intuition congruence.
Qed.

Lemma In_sort_by {A} (le : A -> A -> bool) x l :
  In x (sort_by le l) <-> In x l.
Proof.
  unfold sort_by. induction l as [| y l IH]; simpl; [tauto |].
  rewrite In_insert_by, IH. intuition congruence.
Qed.

Lemma find_of_existsb {A} (f : A -> bool) l :
  existsb f l = true -> exists x, find f l = Some x.
Proof.
  induction l as [| y l IH]; simpl; [discriminate |].
  destruct (f y); [eauto | exact IH].
Qed.

(** Which ids [fetchWatchlist] keeps: those of the rows of the user whose
    movie the join has found. *)
Lemma movie_ids_spec uid d id :
  id ∈ movie_ids (select_watchlist_rows uid d)
  <-> exists it mv,
        In it (user_watchlist d)
        /\ UserWatchlistItem.user_id it = uid
        /\ find (fun m => Movie.id m =? UserWatchlistItem.movie_id it) (movies d) = Some mv
        /\ Movie.id mv = id.
Proof.
  unfold movie_ids, Watchlist.moviesInWatchlist, select_watchlist_rows.
  rewrite elem_of_list_to_set, list_elem_of_In, in_map_iff.
  split.
  - intros (entry & <- & Hin).
    apply list_elem_of_In, list_elem_of_omap in Hin.
    destruct Hin as (row & Hrow & Hentry).
    apply list_elem_of_In, in_map_iff in Hrow. destruct Hrow as (it & <- & Hit).
    apply In_sort_by, filter_In in Hit. destruct Hit as [Hit Huser].
    apply String.eqb_eq in Huser.
    simpl in Hentry.
    destruct (find (fun m => Movie.id m =? UserWatchlistItem.movie_id it) (movies d))
      as [mv |] eqn:Hfind; [| discriminate].
    injection Hentry as <-. exists it, mv. auto.
  - intros (it & mv & Hit & Huser & Hfind & Hid).
    eexists. split; [| apply list_elem_of_In, list_elem_of_omap].
    2: { exists (watchlist_row uid d it). split.
         - apply list_elem_of_In, in_map_iff. exists it. split; [reflexivity |].
           apply In_sort_by, filter_In. split; [assumption |].
           apply String.eqb_eq. assumption.
         - simpl. rewrite Hfind. reflexivity. }
    simpl. assumption.
Qed.

(** [fetchWatchlist] for a signed-in user, by what becomes of the retried
    select. *)
Lemma fetchWatchlist_cases r st w uid :
  present (Watchlist.userId r) = Some uid ->
  match retried (select_watchlist uid) w with
  | (Returned _, w1) =>
      exists st',
        Watchlist.fetchWatchlist r (st, w) = (Returned tt, (st', w1))
        /\ Watchlist.error st' = None
        /\ Watchlist.watchlistIds st' = movie_ids (select_watchlist_rows uid (db w))
        /\ Watchlist.watchlist st'
           = Watchlist.moviesInWatchlist (select_watchlist_rows uid (db w))
        /\ db w1 = db w
  | (Thrown _, w1) =>
      exists st',
        Watchlist.fetchWatchlist r (st, w) = (Returned tt, (st', addError watchlist_failed w1))
        /\ Watchlist.error st' <> None
        /\ Watchlist.watchlistIds st' = ∅
  end.
Proof.
  intros Huid. unfold Watchlist.fetchWatchlist. rewrite Huid.
  pose proof (retried_select (SelectWatchlist uid) (select_watchlist_rows uid) w) as H.
  fold (select_watchlist uid) in H.
  unfold finally, try_catch, bind, set_state, on_world. simpl.
  destruct (retried (select_watchlist uid) w) as [[data | e] w1].
  - destruct H as [-> Hdb]. simpl. eexists. split; [reflexivity |]. simpl. auto.
  - destruct H as [Hdb (pe & ->)]. simpl. eexists. split; [reflexivity |].
    simpl. split; [discriminate | reflexivity].
Qed.

(** C6.  After a [fetchWatchlist] that has completed successfully (it has
    returned and the [error] cell is [null]), on tables that respect the
    foreign key from [user_watchlist] to [movies], [isInWatchlist(id)] of the
    next render is [true] exactly for the ids with a row [(user, id)] in
    [user_watchlist]. *)
Theorem isInWatchlist_reflects_rows
    (r : Watchlist.Render) (st : Watchlist.State) (w : World)
    (uid : string) (st' : Watchlist.State) (w' : World) :
  present (Watchlist.userId r) = Some uid ->
  watchlist_movies_exist (db w) ->
  Watchlist.fetchWatchlist r (st, w) = (Returned tt, (st', w')) ->
  Watchlist.error st' = None ->
  db w' = db w
  /\ forall id,
       Watchlist.isInWatchlist
         {| Watchlist.userId := Watchlist.userId r; Watchlist.seen := st' |} id = true
       <-> has_watchlist_row uid id (db w').
Proof.
  intros Huid Hfk Hrun Herr.
  pose proof (fetchWatchlist_cases r st w uid Huid) as H.
  destruct (retried (select_watchlist uid) w) as [[data | e] w1].
  - destruct H as (st1 & Hrun1 & _ & Hids & _ & Hdb).
    rewrite Hrun in Hrun1. injection Hrun1 as -> ->.
    split; [assumption |].
    intros id. unfold Watchlist.isInWatchlist. simpl.
    rewrite bool_decide_eq_true, Hids, movie_ids_spec, Hdb.
    unfold has_watchlist_row. split.
    + intros (it & mv & Hit & Huser & Hfind & Hid).
      exists it. split; [assumption |]. split; [assumption |].
      apply find_some in Hfind. destruct Hfind as [_ Heq].
      apply Z.eqb_eq in Heq. congruence.
    + intros (it & Hit & Huser & Hmovie).
      destruct (find_of_existsb _ _ (Hfk it Hit)) as [mv Hfind].
      exists it, mv. split; [assumption |]. split; [assumption |]. split; [assumption |].
      apply find_some in Hfind. destruct Hfind as [_ Heq].
      apply Z.eqb_eq in Heq. congruence.
  - destruct H as (st1 & Hrun1 & Hne & _).
    rewrite Hrun in Hrun1. injection Hrun1 as -> _. contradiction.
Qed.

(** [user-1] has movies 1 and 2 on the watchlist, and not movie 3. *)
Lemma isInWatchlist_reflects_rows_witness :
  exists st' w',
    Watchlist.fetchWatchlist sample_watchlist_render (sample_watchlist, sample_world [])
    = (Returned tt, (st', w'))
    /\ Watchlist.isInWatchlist
         {| Watchlist.userId := Some "user-1"; Watchlist.seen := st' |} 1 = true
    /\ Watchlist.isInWatchlist
         {| Watchlist.userId := Some "user-1"; Watchlist.seen := st' |} 3 = false.
Proof.
  pose proof (fetchWatchlist_cases sample_watchlist_render sample_watchlist (sample_world [])
                "user-1" eq_refl) as H.
  destruct (retried (select_watchlist "user-1") (sample_world [])) as [[data | e] w1] eqn:Hsel;
    vm_compute in Hsel; [| discriminate].
  destruct H as (st' & Hrun & Herr & _).
  assert (Hfk : watchlist_movies_exist (db (sample_world []))).
  { intros it [<- | [<- | []]]; reflexivity. }
  destruct (isInWatchlist_reflects_rows sample_watchlist_render sample_watchlist
              (sample_world []) "user-1" st' w1 eq_refl Hfk Hrun Herr) as [Hdb Hiff].
  exists st', w1. split; [assumption |]. split.
  - apply Hiff. rewrite Hdb. exists (sample_item "w-1" 1 (Some "cat-1")).
    split; [left; reflexivity | split; reflexivity].
  - destruct (Watchlist.isInWatchlist
                {| Watchlist.userId := Some "user-1"; Watchlist.seen := st' |} 3) eqn:Hthree;
      [| reflexivity].
    apply Hiff in Hthree. rewrite Hdb in Hthree.
    destruct Hthree as (it & [<- | [<- | []]] & _ & Hmovie); discriminate Hmovie.
Defined.

(** ** The watchlist categories *)

Lemma fetchCategories_frame r st w o st' w' :
  WatchlistCategories.fetchCategories r (st, w) = (o, (st', w')) -> db w' = db w.
Proof.
  unfold WatchlistCategories.fetchCategories.
  destruct (present (WatchlistCategories.userId r)) as [uid |].
  - pose proof (retried_select (SelectCategories uid) (select_categories_rows uid) w) as H.
    fold (select_categories uid) in H.
    unfold finally, try_catch, bind, set_state, on_world. simpl.
    destruct (retried (select_categories uid) w) as [[data | e] w1].
    + destruct H as [_ Hdb]. simpl. intros Heq. injection Heq as _ _ <-. assumption.
    + destruct H as [Hdb (pe & ->)]. simpl. intros Heq. injection Heq as _ _ <-.
      destruct (addError_frame
                  (createErrorMessage "Failed to load watchlist categories. Please try again."
                     Severity.error (Some RetryFetchCategories) (Some "Retry")) w1) as [-> _].
      assumption.
  - intros Heq. injection Heq as _ _ <-. reflexivity.
Qed.

(** A [deleteCategory] that returns [true] has run the deletion once, and
    nothing after it has touched the tables. *)
Lemma deleteCategory_tables r st w uid cid st' w' :
  present (WatchlistCategories.userId r) = Some uid ->
  WatchlistCategories.deleteCategory r cid (st, w) = (Returned true, (st', w')) ->
  db w' = delete_category_rows cid uid (db w).
Proof.
  intros Huid. unfold WatchlistCategories.deleteCategory. rewrite Huid.
  pose proof (retried_query (DeleteCategory cid uid)
                (fun _ d => inr (tt, delete_category_rows cid uid d)) w) as H.
  fold (delete_category cid uid) in H.
  unfold try_catch, bind at 1, on_world.
  destruct (retried (delete_category cid uid) w) as [[data | e] w1].
  - destruct H as (a & _ & Hex & _). injection Hex as Hdb.
    unfold bind at 1.
    destruct (WatchlistCategories.fetchCategories r (st, w1)) as [[[] | e] [st2 w2]] eqn:Hfetch.
    + unfold bind. rewrite notify_run. unfold ret. intros Heq. injection Heq as _ <-.
      destruct (addError_frame category_deleted_notice w2) as [Hdb2 _].
      unfold category_deleted_notice in Hdb2. rewrite Hdb2.
      rewrite (fetchCategories_frame r st w1 _ st2 w2 Hfetch). symmetry. assumption.
    + unfold bind. rewrite notify_run. unfold ret. discriminate.
  - unfold bind. rewrite notify_run. unfold ret. discriminate.
Qed.



(** * Properties beyond the claims *)

(** ** The schedule of [withRetry] *)

Section RetryCount.

Context {S T : Type}.
Variable sleep : Z -> S -> S.
Variable operation : Async S T.
Variable options : RetryOptions.

Let N : Z := maxRetries_of options.

Variable Inv : nat -> S -> Prop.
Variable Post : nat -> T -> S -> Prop.
Variable Fail : JsValue -> S -> Prop.

Hypothesis op_returned : forall k s v s',
  Z.of_nat k <= N -> Inv k s -> operation s = (Returned v, s') -> Post k v s'.
Hypothesis op_retried : forall k s e s',
  Z.of_nat k < N -> Inv k s -> operation s = (Thrown e, s') ->
  Inv (Datatypes.S k) (sleep (currentDelay options (Z.of_nat k)) s').
Hypothesis op_given_up : forall s e s',
  Inv (Z.to_nat N) s -> operation s = (Thrown e, s') -> Fail e s'.

Lemma retry_loop_counted fuel : forall k lastError s,
  Z.of_nat k <= N -> (Z.to_nat (N - Z.of_nat k) < fuel)%nat -> Inv k s ->
  match retry_loop sleep operation options fuel (Z.of_nat k) lastError s with
  | (Returned v, s') => exists j, Z.of_nat j <= N /\ Post j v s'
  | (Thrown e, s') => Fail e s'
  end.
Proof.
  induction fuel as [| fuel IH]; intros k le s Hk Hfuel HI; [lia |].
  destruct (operation s) as [[v | e] s'] eqn:Hop.
  - rewrite (retry_loop_returns _ _ _ _ _ _ s v s') by assumption.
    exists k. split; [assumption |]. eapply op_returned; eassumption.
  - destruct (Z.eq_dec (Z.of_nat k) N) as [Heq | Hne].
    + rewrite Heq. unfold N.
      rewrite (retry_loop_rethrows _ _ _ _ _ s e s') by assumption.
      apply (op_given_up s e s'); [| assumption].
      replace (Z.to_nat N) with k by lia. assumption.
    + rewrite (retry_loop_retries _ _ _ _ _ _ s e s') by (assumption || (fold N; lia)).
      replace (Z.of_nat k + 1) with (Z.of_nat (Datatypes.S k)) by lia.
      apply IH; [lia | lia |].
      apply (op_retried k s e s'); [lia | assumption | assumption].
Qed.

Lemma withRetry_counted s :
  0 <= N -> Inv O s ->
  match withRetry sleep operation options s with
  | (Returned v, s') => exists j, Z.of_nat j <= N /\ Post j v s'
  | (Thrown e, s') => Fail e s'
  end.
Proof.
  intros HN HI. unfold withRetry.
  apply (retry_loop_counted _ O); [simpl; assumption | fold N; simpl; lia | assumption].
Qed.

End RetryCount.

Lemma backoff_delays_snoc k :
  backoff_delays (Datatypes.S k) = backoff_delays k ++ [1000 * 2 ^ Z.of_nat k].
Proof. unfold backoff_delays. rewrite seq_S, map_app. reflexivity. Qed.

Lemma schedule_attempt {A} req (op : Async World A) w k s o s' :
  sends_one req op ->
  schedule req w k k s -> op s = (o, s') -> schedule req w (Datatypes.S k) k s'.
Proof.
  intros Hone (Hr & Hs & Hc & He & Ht) Hop.
  destruct (Hone s o s' Hop) as (Hr' & Hs' & Hc' & He' & Ht').
  unfold schedule.
  rewrite Hr', Hs', Hc', He', Ht', Hr, <- app_assoc, replicate_snoc. auto.
Qed.

Lemma schedule_sleep req w k s :
  Z.of_nat k < maxRetries_of defaultRetryOptions ->
  schedule req w (Datatypes.S k) k s ->
  schedule req w (Datatypes.S k) (Datatypes.S k)
    (sleep (currentDelay defaultRetryOptions (Z.of_nat k)) s).
Proof.
  intros Hk (Hr & Hs & Hc & He & Ht).
  change (maxRetries_of defaultRetryOptions) with 3 in Hk.
  change (currentDelay defaultRetryOptions (Z.of_nat k)) with (1000 * 2 ^ Z.of_nat k).
  assert (Hwait : timer_delay (1000 * 2 ^ Z.of_nat k) = 1000 * 2 ^ Z.of_nat k).
  { destruct k as [| [| [| k]]]; [reflexivity | reflexivity | reflexivity | lia]. }
  unfold schedule, sleep. simpl. rewrite Hwait.
  rewrite Hr, Hs, Hc, backoff_delays_snoc, app_assoc.
  repeat split; try assumption.
  rewrite Nat2Z.inj_succ, Z.pow_succ_r by lia. lia.
Qed.

Lemma schedule_start req w : schedule req w O O w.
Proof.
  unfold schedule. simpl. rewrite !app_nil_r. repeat split.
  change (2 ^ 0) with 1. lia.
Qed.

(** The attempts and the waits of [withRetry] under the default options,
    for an operation that sends one request each time it is invoked. *)
Lemma withRetry_schedule {A} req (op : Async World A) w :
  sends_one req op ->
  match withRetry sleep op defaultRetryOptions w with
  | (Returned _, w') => exists k, (k <= 3)%nat /\ schedule req w (Datatypes.S k) k w'
  | (Thrown _, w') => schedule req w 4 3 w'
  end.
Proof.
  intros Hone.
  pose proof (withRetry_counted sleep op defaultRetryOptions
                (fun k s => schedule req w k k s)
                (fun k _ s' => schedule req w (Datatypes.S k) k s')
                (fun _ s' => schedule req w 4 3 s')) as H.
  specialize (H (fun k s v s' _ HI Hop => schedule_attempt req op w k s _ s' Hone HI Hop)).
  specialize (H (fun k s e s' Hk HI Hop =>
                   schedule_sleep req w k s' Hk
                     (schedule_attempt req op w k s _ s' Hone HI Hop))).
  specialize (H (fun s e s' HI Hop => schedule_attempt req op w 3 s _ s' Hone HI Hop) w).
  destruct (withRetry sleep op defaultRetryOptions w) as [[v | e] w'].
  - destruct H as (k & Hk & Hpost); [vm_compute; discriminate | apply schedule_start |].
    exists k. split; [| assumption].
    change (maxRetries_of defaultRetryOptions) with 3 in Hk. lia.
  - apply H; [vm_compute; discriminate | apply schedule_start].
Qed.

Lemma query_sends_one {A} req (exec : Z -> Database -> PostgrestError + A * Database) :
  sends_one req (throw_on_error (query req exec)).
Proof.
  intros s o s'. unfold throw_on_error, bind, query, send.
  destruct (net s) as [| [pe |] rest]; simpl.
  - destruct (exec (clock s) (db s)) as [pe | [a d]]; simpl;
      intros H; injection H as <- <-; simpl; auto.
  - intros H; injection H as <- <-; simpl; auto.
  - destruct (exec (clock s) (db s)) as [pe | [a d]]; simpl;
      intros H; injection H as <- <-; simpl; auto.
Qed.

Lemma insert_unlock_sends_one uid m :
  sends_one (InsertUnlock uid m) (throw_on_error (insert_unlock uid m)).
Proof.
  intros s o s' H.
  pose proof (query_sends_one (InsertUnlock uid m) (insert_unlock_row uid m (fst (draw s)))
                (snd (draw s)) o s') as Hq.
  unfold throw_on_error, bind, insert_unlock in *.
  destruct (draw s) as [uuid s0] eqn:Hdraw. simpl in Hq.
  specialize (Hq H).
  unfold draw in Hdraw. injection Hdraw as _ <-. exact Hq.
Qed.

(** The attempts and the waits of a request under [withRetry] with the
    options the hooks leave at their defaults: the request that answers at
    its attempt [k + 1] (of at most four) has been sent [k + 1] times, after
    waits of 1000, 2000, ... ms, [1000 * (2 ^ k - 1)] ms in all; the request
    that is given up on has been sent four times, whatever its errors were,
    after waits of 1000, 2000 and 4000 ms. *)
Theorem retried_request_schedule {A} (req : Request)
    (exec : Z -> Database -> PostgrestError + A * Database) (w : World) :
  match withRetry sleep (throw_on_error (query req exec)) defaultRetryOptions w with
  | (Returned _, w') =>
      exists k, (k <= 3)%nat
                /\ requests w' = requests w ++ replicate (Datatypes.S k) req
                /\ sleeps w' = sleeps w ++ backoff_delays k
                /\ clock w' = clock w + 1000 * (2 ^ Z.of_nat k - 1)
  | (Thrown _, w') =>
      requests w' = requests w ++ replicate 4 req
      /\ sleeps w' = sleeps w ++ [1000; 2000; 4000]
      /\ clock w' = clock w + 7000
  end.
Proof.
  pose proof (withRetry_schedule req (throw_on_error (query req exec)) w
                (query_sends_one req exec)) as H.
  destruct (withRetry sleep (throw_on_error (query req exec)) defaultRetryOptions w)
    as [[v | e] w'].
  - destruct H as (k & Hk & Hr & Hs & Hc & _). exists k. auto.
  - destruct H as (Hr & Hs & Hc & _). auto.
Qed.

(** [withRetry] with a cap below zero never invokes the operation: the loop
    is not entered and [throw lastError] throws [undefined], whatever the
    operation would have done.  With the cap 0 the operation is invoked
    once, and its completion is that of [withRetry]: there is no wait. *)
Theorem withRetry_without_retries
    {S T : Type} (sleep : Z -> S -> S) (operation : Async S T) (options : RetryOptions) (s : S) :
  (maxRetries_of options < 0 ->
   withRetry sleep operation options s = (Thrown JsUndefined, s))
  /\ (maxRetries_of options = 0 ->
      withRetry sleep operation options s = operation s).
Proof.
  split; intros HN; unfold withRetry.
  - replace (Z.to_nat (maxRetries_of options + 1)) with O by lia. reflexivity.
  - rewrite HN. change (Z.to_nat (0 + 1)) with 1%nat.
    destruct (operation s) as [[v | e] s'] eqn:Hop.
    + apply retry_loop_returns; [lia | assumption].
    + rewrite <- HN at 1. apply retry_loop_rethrows. assumption.
Qed.

Lemma withRetry_without_retries_witness :
  withRetry sleep (throw_on_error (update_balance "user-1" 30 0))
    {| maxRetries := Some (-1); delay := None; backoff := None |} (sample_world [])
  = (Thrown JsUndefined, sample_world [])
  /\ withRetry sleep (throw_on_error (update_balance "user-1" 30 0))
       {| maxRetries := Some 0; delay := None; backoff := None |}
       (sample_world [Some failed_to_fetch])
     = throw_on_error (update_balance "user-1" 30 0) (sample_world [Some failed_to_fetch]).
Proof.
  split.
  - apply (withRetry_without_retries sleep (throw_on_error (update_balance "user-1" 30 0))
             {| maxRetries := Some (-1); delay := None; backoff := None |}).
    reflexivity.
  - apply (withRetry_without_retries sleep (throw_on_error (update_balance "user-1" 30 0))
             {| maxRetries := Some 0; delay := None; backoff := None |}).
    reflexivity.
Defined.

(** ** The lifetime of a notification *)

Lemma fire_all_keeps ts id : forall w e,
  (forall t, In t ts -> fires t <> RemoveError id) ->
  In e (errors w) -> ErrorMessage.id e = id ->
  In e (errors (fold_left (fun acc t => fire (fires t) acc) ts w)).
Proof.
  induction ts as [| t ts IH]; intros w e Hts Hin Hid; simpl; [assumption |].
  apply IH; [intros t' Ht'; apply Hts; right; assumption | | assumption].
  destruct (fires t) as [id'] eqn:Hf. unfold fire.
  apply removeError_keeps; [assumption |].
  intros Heq. apply (Hts t (or_introl eq_refl)). rewrite Hf. congruence.
Qed.

(** A notification stays on the bus until its duration has elapsed: at any
    moment before, the entry [addError] appended is still among the errors,
    and the callback that will remove it is still pending.  This is so for
    a duration within the range of [setTimeout]; a duration beyond it, from
    2^31 to 2^32 - 1 ms, is not waited for: the callback runs at once, and
    the entry is gone after a millisecond.  The id of the entry has to be
    new among the callbacks that are pending when it is added (an id is the
    time in milliseconds followed by nine random characters). *)
Theorem addError_shown_until_due (draft : ErrorDraft.t) (w : World) (ms : Z) :
  let d := duration_or_default (ErrorDraft.duration draft) in
  let id := next_id w in
  let w' := elapse ms (addError draft w) in
  (forall t, In t (timers w) -> fires t <> RemoveError id) ->
  (d <= 2147483647 ->
   ms < d ->
   (exists entry,
      In entry (errors w')
      /\ ErrorMessage.id entry = id
      /\ ErrorMessage.message entry = ErrorDraft.message draft
      /\ ErrorMessage.type entry = ErrorDraft.type draft
      /\ ErrorMessage.retryAction entry = ErrorDraft.retryAction draft)
   /\ (0 < d -> In {| due := clock w + d; fires := RemoveError id |} (timers w')))
  /\ (2147483647 < d < 4294967296 ->
      1 <= ms ->
      forall e, In e (errors w') -> ErrorMessage.id e <> id).
Proof.
  intros d id w' Hfresh.
  destruct (addError_unfold draft w) as (Herr & Htim & Hclock & _).
  fold d in Herr, Htim. fold id in Herr, Htim.
  split.
  - intros Hmax Hms.
    assert (Hnew : is_due (clock (addError draft w) + ms)
                     {| due := clock w + d; fires := RemoveError id |} = false).
    { unfold is_due. simpl. rewrite Hclock. apply Z.leb_gt. lia. }
    assert (Htim' : timers (addError draft w)
                    = if 0 <? d
                      then timers w ++ [{| due := clock w + d; fires := RemoveError id |}]
                      else timers w).
    { rewrite Htim. destruct (Z.ltb_spec 0 d) as [Hd |]; [| reflexivity].
      rewrite timer_delay_kept by lia. reflexivity. }
    clear Htim.
    split.
    + exists {| ErrorMessage.id := id;
                ErrorMessage.message := ErrorDraft.message draft;
                ErrorMessage.type := ErrorDraft.type draft;
                ErrorMessage.retryAction := ErrorDraft.retryAction draft;
                ErrorMessage.retryLabel := ErrorDraft.retryLabel draft;
                ErrorMessage.duration := Some d |}.
      split; [| repeat split].
      unfold w', elapse. apply (fire_all_keeps _ id).
      * intros t Ht. apply filter_In in Ht. destruct Ht as [Ht Hdue].
        rewrite Htim' in Ht. destruct (0 <? d).
        -- apply in_app_or in Ht. destruct Ht as [Ht | [<- | []]].
           ++ apply Hfresh. assumption.
           ++ rewrite Hnew in Hdue. discriminate.
        -- apply Hfresh. assumption.
      * simpl. rewrite Herr. apply in_or_app. right. left. reflexivity.
      * reflexivity.
    + intros Hd. unfold w', elapse.
      assert (Htimers : forall ts v,
                 timers (fold_left (fun acc t => fire (fires t) acc) ts v) = timers v).
      { induction ts as [| t ts IH]; intros v; simpl; [reflexivity |].
        rewrite IH. destruct (fires t). reflexivity. }
      rewrite Htimers. simpl. apply filter_In. split.
      * rewrite Htim'. destruct (Z.ltb_spec 0 d); [| lia].
        apply in_or_app. right. left. reflexivity.
      * rewrite Hnew. reflexivity.
  - intros Hlong Hms e.
    assert (Hdelay : timer_delay d = 1).
    { unfold timer_delay. destruct (Z.leb_spec d 2147483647); [lia |].
      rewrite andb_false_r. reflexivity. }
    rewrite Hdelay in Htim. destruct (Z.ltb_spec 0 d); [| lia].
    apply (elapse_removes ms _ {| due := clock w + 1; fires := RemoveError id |}).
    + rewrite Htim. apply in_or_app. right. left. reflexivity.
    + reflexivity.
    + simpl. rewrite Hclock. lia.
Qed.

(** The notification of a movie added to the watchlist is still shown 2999
    ms after it was appended, and the callback that removes it is pending
    for the time 4000; a notification with the duration 3000000000 is gone
    after 1 ms. *)
Lemma addError_shown_until_due_witness :
  (exists entry,
    In entry (errors (elapse 2999
                        (addError (createErrorMessage "Movie added to your watchlist!"
                                     Severity.success None None) (sample_world []))))
    /\ ErrorMessage.id entry = "1000k3x9q2m1z"
    /\ ErrorMessage.message entry = "Movie added to your watchlist!")
  /\ In {| due := 4000; fires := RemoveError "1000k3x9q2m1z" |}
       (timers (elapse 2999
                  (addError (createErrorMessage "Movie added to your watchlist!"
                               Severity.success None None) (sample_world []))))
  /\ (forall e,
        In e (errors (elapse 1
                        (addError {| ErrorDraft.message := "Saved.";
                                     ErrorDraft.type := Severity.info;
                                     ErrorDraft.duration := Some 3000000000;
                                     ErrorDraft.retryAction := None;
                                     ErrorDraft.retryLabel := None |}
                           (sample_world [])))) ->
        ErrorMessage.id e <> "1000k3x9q2m1z").
Proof.
  split; [| split].
  - destruct (addError_shown_until_due
                (createErrorMessage "Movie added to your watchlist!" Severity.success None None)
                (sample_world []) 2999) as [Hshown _]; [intros t [] |].
    destruct Hshown as [(entry & Hin & Hid & Hmsg & _) _];
      [vm_compute; discriminate | reflexivity |].
    exists entry. auto.
  - destruct (addError_shown_until_due
                (createErrorMessage "Movie added to your watchlist!" Severity.success None None)
                (sample_world []) 2999) as [Hshown _]; [intros t [] |].
    destruct Hshown as [_ Hpending]; [vm_compute; discriminate | reflexivity |].
    apply Hpending. reflexivity.
  - destruct (addError_shown_until_due
                {| ErrorDraft.message := "Saved."; ErrorDraft.type := Severity.info;
                   ErrorDraft.duration := Some 3000000000;
                   ErrorDraft.retryAction := None; ErrorDraft.retryLabel := None |}
                (sample_world []) 1) as [_ Hgone]; [intros t [] |].
    apply Hgone; [vm_compute; split; reflexivity | lia].
Defined.

(** ** More of the coin ledger *)

Lemma update_balance_schedule uid c bn w :
  match withRetry sleep (throw_on_error (update_balance uid c bn)) defaultRetryOptions w with
  | (Returned _, w') =>
      exists k, (k <= 3)%nat /\ schedule (UpdateBalance uid c bn) w (Datatypes.S k) k w'
  | (Thrown _, w') => schedule (UpdateBalance uid c bn) w 4 3 w'
  end.
Proof. apply withRetry_schedule. apply query_sends_one. Qed.



(** [addCoins(c, bn)] whose update answers returns [true]; the local balance
    and the row of the user hold [coins + c] and [bonus_coins + bn], computed
    from the balance of the render; the rows of the other users and the
    other tables are not touched.  The amounts are not checked: a negative
    one lowers the balance. *)
Theorem addCoins_credits
    (r : UserCoins.Render) (st : UserCoins.State) (w : World)
    (uid : string) (b : UserBalance.t) (c bn : Z) (resp : Response.t unit) (w1 : World) :
  present (UserCoins.userId r) = Some uid ->
  UserCoins.balance (UserCoins.seen r) = Some b ->
  let newCoins := UserBalance.coins b + c in
  let newBonusCoins := UserBalance.bonus_coins b + bn in
  withRetry sleep (throw_on_error (update_balance uid newCoins newBonusCoins))
    defaultRetryOptions w = (Returned resp, w1) ->
  UserCoins.addCoins r c bn (st, w)
  = (Returned true,
     (UserCoins.setBalance (Some (with_balance newCoins newBonusCoins (clock w1) b)) st, w1))
  /\ length (user_balances (db w1)) = length (user_balances (db w))
  /\ (forall i row,
        nth_error (user_balances (db w)) i = Some row ->
        exists row',
          nth_error (user_balances (db w1)) i = Some row'
          /\ UserBalance.user_id row' = UserBalance.user_id row
          /\ (UserBalance.user_id row = uid ->
              UserBalance.coins row' = newCoins /\ UserBalance.bonus_coins row' = newBonusCoins)
          /\ (UserBalance.user_id row <> uid -> row' = row))
  /\ movies (db w1) = movies (db w)
  /\ user_episode_unlocks (db w1) = user_episode_unlocks (db w)
  /\ user_watchlist (db w1) = user_watchlist (db w)
  /\ user_watchlist_categories (db w1) = user_watchlist_categories (db w).
Proof.
  intros Huid Hb newCoins newBonusCoins Hrun.
  split.
  { unfold UserCoins.addCoins. rewrite Hb. fold newCoins newBonusCoins.
    pose proof (updateBalance_cases r st w uid newCoins newBonusCoins Huid) as H.
    rewrite Hrun in H. rewrite H, Hb. reflexivity. }
  destruct (update_balance_persisted uid newCoins newBonusCoins w resp w1 Hrun) as [Hdb _].
  rewrite Hdb. simpl.
  split; [apply length_map |].
  split; [| auto].
  intros i row Hrow. rewrite nth_error_map, Hrow. simpl.
  eexists. split; [reflexivity |].
  destruct (String.eqb_spec (UserBalance.user_id row) uid) as [Heq | Hne]; simpl.
  - repeat split; intros; congruence.
  - repeat split; intros; congruence.
Qed.

Lemma addCoins_credits_witness :
  exists st' w',
    UserCoins.addCoins sample_coins_render 500 25 (sample_coins, sample_world [])
    = (Returned true, (st', w'))
    /\ option_map UserBalance.coins (UserCoins.balance st') = Some 600
    /\ option_map UserBalance.bonus_coins (UserCoins.balance st') = Some 75
    /\ map (fun row => (UserBalance.coins row, UserBalance.bonus_coins row))
         (user_balances (db w')) = [(600, 75)].
Proof.
  destruct (withRetry sleep (throw_on_error (update_balance "user-1" 600 75))
              defaultRetryOptions (sample_world [])) as [o w1] eqn:Hrun.
  vm_compute in Hrun. injection Hrun as <- <-.
  eexists. eexists. split.
  - exact (proj1 (addCoins_credits sample_coins_render sample_coins (sample_world [])
                    "user-1" sample_balance 500 25 _ _ eq_refl eq_refl eq_refl)).
  - repeat split.
Defined.
(** [canAfford] and [spendCoins] apply the same test.  When [canAfford(a)]
    is [false], [spendCoins(a)] returns [false] and sends nothing; when it
    is [true], [spendCoins(a)] of a signed-in user goes on to the update: it
    sends one update statement, between one and four times. *)
Theorem canAfford_agrees_with_spendCoins
    (r : UserCoins.Render) (st : UserCoins.State) (w : World) (a : Z) :
  (UserCoins.canAfford r a = false ->
   exists w',
     UserCoins.spendCoins r a (st, w) = (Returned false, (st, w'))
     /\ db w' = db w /\ requests w' = requests w)
  /\ (UserCoins.canAfford r a = true ->
      forall uid, present (UserCoins.userId r) = Some uid ->
      exists o st' w' c bn k,
        UserCoins.spendCoins r a (st, w) = (Returned o, (st', w'))
        /\ (1 <= k <= 4)%nat
        /\ requests w' = requests w ++ replicate k (UpdateBalance uid c bn)).
Proof.
  unfold UserCoins.canAfford. split.
  - destruct (UserCoins.balance (UserCoins.seen r)) as [b |] eqn:Hb.
    + intros Hcost. apply Z.leb_gt in Hcost.
      unfold UserCoins.spendCoins. rewrite Hb.
      destruct (Z.ltb_spec (UserBalance.coins b + UserBalance.bonus_coins b) a); [| lia].
      eexists. split; [reflexivity |].
      apply (addError_frame (createErrorMessage UserCoins.insufficient_coins
                               Severity.warning None None) w).
    + intros _. exists w. unfold UserCoins.spendCoins. rewrite Hb. auto.
  - destruct (UserCoins.balance (UserCoins.seen r)) as [b |] eqn:Hb; [| discriminate].
    intros Hcost uid Huid. apply Z.leb_le in Hcost.
    assert (Hupd : forall c bn, exists o st' w' k,
               UserCoins.updateBalance r c bn (st, w) = (Returned o, (st', w'))
               /\ (1 <= k <= 4)%nat
               /\ requests w' = requests w ++ replicate k (UpdateBalance uid c bn)).
    { intros c bn.
      pose proof (updateBalance_cases r st w uid c bn Huid) as H.
      pose proof (update_balance_schedule uid c bn w) as Hs.
      destruct (withRetry sleep (throw_on_error (update_balance uid c bn)) defaultRetryOptions w)
        as [[resp | e] w1].
      - destruct Hs as (k & Hk & Hreq & _).
        eexists. eexists. eexists. exists (Datatypes.S k).
        split; [exact H |]. split; [lia | assumption].
      - destruct Hs as (Hreq & _).
        eexists. eexists. eexists. exists 4%nat.
        split; [exact H |]. split; [lia |].
        destruct (addError_frame (update_failed c bn) w1) as [_ ->]. assumption. }
    unfold UserCoins.spendCoins. rewrite Hb.
    destruct (Z.ltb_spec (UserBalance.coins b + UserBalance.bonus_coins b) a); [lia |].
    destruct ((0 <? a) && (0 <? UserBalance.bonus_coins b)).
    + destruct (Hupd (if 0 <? a - Z.min a (UserBalance.bonus_coins b)
                      then UserBalance.coins b - (a - Z.min a (UserBalance.bonus_coins b))
                      else UserBalance.coins b)
                  (UserBalance.bonus_coins b - Z.min a (UserBalance.bonus_coins b)))
        as (o & st' & w' & k & Hrun).
      exists o, st', w'. eexists. eexists. exists k. exact Hrun.
    + destruct (Hupd (if 0 <? a then UserBalance.coins b - a else UserBalance.coins b)
                  (UserBalance.bonus_coins b))
        as (o & st' & w' & k & Hrun).
      exists o, st', w'. eexists. eexists. exists k. exact Hrun.
Qed.

Lemma canAfford_agrees_with_spendCoins_witness :
  (exists w',
     UserCoins.spendCoins sample_coins_render 151 (sample_coins, sample_world [])
     = (Returned false, (sample_coins, w'))
     /\ requests w' = [])
  /\ (exists o st' w' c bn k,
        UserCoins.spendCoins sample_coins_render 150 (sample_coins, sample_world [])
        = (Returned o, (st', w'))
        /\ (1 <= k <= 4)%nat
        /\ requests w' = replicate k (UpdateBalance "user-1" c bn)).
Proof.
  split.
  - destruct (proj1 (canAfford_agrees_with_spendCoins sample_coins_render sample_coins
                       (sample_world []) 151) eq_refl) as (w' & Hrun & _ & Hreq).
    exists w'. auto.
  - exact (proj2 (canAfford_agrees_with_spendCoins sample_coins_render sample_coins
                    (sample_world []) 150) eq_refl "user-1" eq_refl).
Defined.

(** Two [spendCoins(a)] from one render charge once.  Both calls compute
    the new balance from the balance the render has seen and write it as
    absolute values, so when both updates answer both calls return [true]
    and the row of the user holds what the first call alone has left; the
    local balance has gone down by [a], not by [2 * a]. *)
Theorem spendCoins_twice_from_one_render
    (r : UserCoins.Render) (st : UserCoins.State) (w : World)
    (uid : string) (b : UserBalance.t) (a : Z)
    (resp1 resp2 : Response.t unit) (w1 w2 : World) :
  present (UserCoins.userId r) = Some uid ->
  UserCoins.balance (UserCoins.seen r) = Some b ->
  0 <= UserBalance.bonus_coins b ->
  0 <= a <= UserBalance.coins b + UserBalance.bonus_coins b ->
  let newBonusCoins := UserBalance.bonus_coins b - Z.min a (UserBalance.bonus_coins b) in
  let newCoins := UserBalance.coins b - (a - Z.min a (UserBalance.bonus_coins b)) in
  withRetry sleep (throw_on_error (update_balance uid newCoins newBonusCoins))
    defaultRetryOptions w = (Returned resp1, w1) ->
  withRetry sleep (throw_on_error (update_balance uid newCoins newBonusCoins))
    defaultRetryOptions w1 = (Returned resp2, w2) ->
  exists st1 st2 b2,
    UserCoins.spendCoins r a (st, w) = (Returned true, (st1, w1))
    /\ UserCoins.spendCoins r a (st1, w1) = (Returned true, (st2, w2))
    /\ UserCoins.balance st2 = Some b2
    /\ UserBalance.coins b2 + UserBalance.bonus_coins b2
       = UserBalance.coins b + UserBalance.bonus_coins b - a
    /\ (forall row, In row (user_balances (db w2)) -> UserBalance.user_id row = uid ->
          UserBalance.coins row + UserBalance.bonus_coins row
          = UserBalance.coins b + UserBalance.bonus_coins b - a).
Proof.
  intros Huid Hb Hbn Ha newBonusCoins newCoins Hrun1 Hrun2.
  rewrite (spendCoins_split r b a Hb Hbn Ha). fold newBonusCoins newCoins.
  pose proof (updateBalance_cases r st w uid newCoins newBonusCoins Huid) as H1.
  rewrite Hrun1, Hb in H1.
  eexists. eexists. eexists. split; [exact H1 |].
  pose proof (updateBalance_cases r
                (UserCoins.setBalance
                   (Some (with_balance newCoins newBonusCoins (clock w1) b)) st)
                w1 uid newCoins newBonusCoins Huid) as H2.
  rewrite Hrun2, Hb in H2.
  split; [exact H2 |]. split; [reflexivity |].
  split; [simpl; unfold newCoins, newBonusCoins; lia |].
  destruct (update_balance_persisted uid newCoins newBonusCoins w1 resp2 w2 Hrun2) as [Hdb _].
  intros row Hin Hrow. rewrite Hdb in Hin. simpl in Hin.
  apply in_map_iff in Hin. destruct Hin as (old & Heq & _).
  destruct (String.eqb (UserBalance.user_id old) uid) eqn:Hold.
  - subst row. simpl. unfold newCoins, newBonusCoins. lia.
  - subst row. apply String.eqb_neq in Hold. contradiction.
Qed.

Lemma spendCoins_twice_from_one_render_witness :
  exists st1 w1 st2 w2,
    UserCoins.spendCoins sample_coins_render 120 (sample_coins, sample_world [])
    = (Returned true, (st1, w1))
    /\ UserCoins.spendCoins sample_coins_render 120 (st1, w1) = (Returned true, (st2, w2))
    /\ map (fun row => (UserBalance.coins row, UserBalance.bonus_coins row))
         (user_balances (db w2)) = [(30, 0)].
Proof.
  destruct (spendCoins_twice_from_one_render sample_coins_render sample_coins (sample_world [])
              "user-1" sample_balance 120 _ _ _ _ eq_refl eq_refl
              ltac:(simpl; lia) ltac:(simpl; lia) eq_refl eq_refl)
    as (st1 & st2 & b2 & H1 & H2 & _).
  eexists. eexists. eexists. eexists.
  split; [exact H1 |]. split; [exact H2 |]. reflexivity.
Defined.
(** [fetchBalance] for a signed-in user, by what becomes of the retried
    select. *)
Lemma fetchBalance_cases r st w uid :
  present (UserCoins.userId r) = Some uid ->
  match retried (select_balance uid) w with
  | (Returned data, w1) =>
      UserCoins.fetchBalance r (st, w)
      = (Returned tt,
         ({| UserCoins.balance := mjoin data; UserCoins.loading := false;
             UserCoins.error := None |}, w1))
  | (Thrown e, w1) =>
      forall pe, e = js_of_error pe ->
        UserCoins.fetchBalance r (st, w)
        = (Returned tt,
           ({| UserCoins.balance := None; UserCoins.loading := false;
               UserCoins.error := Some (pg_message pe) |}, addError balance_failed w1))
  end.
Proof.
  intros Huid. unfold UserCoins.fetchBalance. rewrite Huid.
  unfold finally, try_catch, bind, set_state, on_world. simpl.
  destruct (retried (select_balance uid) w) as [[data | e] w1].
  - reflexivity.
  - intros pe ->. reflexivity.
Qed.

Lemma select_balance_result uid w :
  match retried (select_balance uid) w with
  | (Returned data, w1) =>
      db w1 = db w
      /\ match balance_rows uid (db w) with
         | [] => data = Some None
         | [row] => data = Some (Some row)
         | _ => False
         end
  | (Thrown e, w1) => db w1 = db w /\ exists pe, e = js_of_error pe
  end.
Proof.
  pose proof (retried_query (SelectBalance uid)
                (fun _ d =>
                   match List.filter (fun r => String.eqb (UserBalance.user_id r) uid)
                           (user_balances d) with
                   | [] => inr (None, d)
                   | [r] => inr (Some r, d)
                   | _ => inl multiple_rows
                   end) w) as H.
  change (query (SelectBalance uid) _) with (select_balance uid) in H.
  destruct (retried (select_balance uid) w) as [[data | e] w1].
  - destruct H as (a & -> & Hex & _). unfold balance_rows.
    destruct (List.filter (fun r => String.eqb (UserBalance.user_id r) uid)
                (user_balances (db w))) as [| row [| row' rows]].
    + injection Hex as <- <-. auto.
    + injection Hex as <- <-. auto.
    + discriminate.
  - destruct H as [[Hdb _] (pe & -> & _)]. eauto.
Qed.

(** What [fetchBalance] leaves behind, for a signed-in user.  It returns,
    with [loading] back to [false], and never changes the tables.  Either
    the select has answered: the [error] cell is [null] and the balance is
    the one row of the user, or [null] when the user has no row; or the
    select was given up on: the balance is [null], the [error] cell holds
    the message of the last error, and the one notification raised offers to
    fetch again. *)
Theorem fetchBalance_outcomes
    (r : UserCoins.Render) (st : UserCoins.State) (w : World) (uid : string) :
  present (UserCoins.userId r) = Some uid ->
  exists st' w',
    UserCoins.fetchBalance r (st, w) = (Returned tt, (st', w'))
    /\ UserCoins.loading st' = false
    /\ db w' = db w
    /\ ((UserCoins.error st' = None
         /\ errors w' = errors w
         /\ match balance_rows uid (db w) with
            | [] => UserCoins.balance st' = None
            | [row] => UserCoins.balance st' = Some row
            | _ => False
            end)
        \/ (UserCoins.error st' <> None
            /\ UserCoins.balance st' = None
            /\ exists entry,
                 errors w' = errors w ++ [entry]
                 /\ ErrorMessage.type entry = Severity.error
                 /\ ErrorMessage.retryAction entry = Some RetryFetchBalance)).
Proof.
  intros Huid.
  pose proof (fetchBalance_cases r st w uid Huid) as H.
  pose proof (select_balance_result uid w) as Hsel.
  pose proof (withRetry_schedule (SelectBalance uid) (throw_on_error (select_balance uid)) w
                (query_sends_one _ _)) as Hs.
  unfold retried, bind in H, Hsel.
  destruct (withRetry sleep (throw_on_error (select_balance uid)) defaultRetryOptions w)
    as [[resp | e] w1].
  - destruct Hs as (k & _ & _ & _ & _ & Herr & _).
    destruct (Response.error resp) as [pe |]; simpl in H, Hsel.
    + destruct Hsel as [Hdb _]. specialize (H pe eq_refl).
      eexists. eexists. split; [exact H |]. split; [reflexivity |].
      destruct (addError_unfold balance_failed w1) as (Herr' & _ & _ & Hdb' & _).
      split; [congruence |]. right.
      split; [discriminate |]. split; [reflexivity |].
      eexists. split; [rewrite Herr', Herr; reflexivity |]. split; reflexivity.
    + destruct Hsel as [Hdb Hrows].
      eexists. eexists. split; [exact H |]. split; [reflexivity |].
      split; [assumption |]. left.
      split; [reflexivity |]. split; [assumption |]. simpl.
      destruct (balance_rows uid (db w)) as [| row [| row' rows]];
        [rewrite Hrows | rewrite Hrows | contradiction]; reflexivity.
  - destruct Hs as (_ & _ & _ & Herr & _).
    destruct Hsel as [Hdb (pe & ->)]. specialize (H pe eq_refl).
    eexists. eexists. split; [exact H |]. split; [reflexivity |].
    destruct (addError_unfold balance_failed w1) as (Herr' & _ & _ & Hdb' & _).
    split; [congruence |]. right.
    split; [discriminate |]. split; [reflexivity |].
    eexists. split; [rewrite Herr', Herr; reflexivity |]. split; reflexivity.
Qed.

Lemma fetchBalance_outcomes_witness :
  exists st' w',
    UserCoins.fetchBalance sample_coins_render
      (UserCoins.setBalance None sample_coins, sample_world [Some failed_to_fetch])
    = (Returned tt, (st', w'))
    /\ UserCoins.loading st' = false
    /\ db w' = sample_db.
Proof.
  destruct (fetchBalance_outcomes sample_coins_render (UserCoins.setBalance None sample_coins)
              (sample_world [Some failed_to_fetch]) "user-1" eq_refl)
    as (st' & w' & Hrun & Hload & Hdb & _).
  exists st', w'. auto.
Defined.

(** What [updateBalance] has written, [fetchBalance] reads back.  After an
    [updateBalance(c, bn)] that returned [true], a [fetchBalance] of the same
    user that succeeds loads a balance with [coins = c] and
    [bonus_coins = bn], a row of the table; it loads [null] only when the
    user has no row in [user_balances], in which case the update, which
    reports success all the same, has written nothing. *)
Theorem updateBalance_then_fetchBalance
    (r r' : UserCoins.Render) (st : UserCoins.State) (w : World) (uid : string) (c bn : Z)
    (st1 : UserCoins.State) (w1 : World) (st2 : UserCoins.State) (w2 : World) :
  present (UserCoins.userId r) = Some uid ->
  present (UserCoins.userId r') = Some uid ->
  UserCoins.updateBalance r c bn (st, w) = (Returned true, (st1, w1)) ->
  UserCoins.fetchBalance r' (st1, w1) = (Returned tt, (st2, w2)) ->
  UserCoins.error st2 = None ->
  match UserCoins.balance st2 with
  | Some b2 =>
      UserBalance.coins b2 = c /\ UserBalance.bonus_coins b2 = bn
      /\ UserBalance.user_id b2 = uid
      /\ In b2 (user_balances (db w2))
  | None =>
      (forall row, In row (user_balances (db w)) -> UserBalance.user_id row <> uid)
      /\ db w2 = db w
  end.
Proof.
  intros Huid Huid' Hupd Hfetch Herr.
  pose proof (updateBalance_cases r st w uid c bn Huid) as H.
  destruct (withRetry sleep (throw_on_error (update_balance uid c bn)) defaultRetryOptions w)
    as [[resp | e] w0] eqn:Hretry; rewrite Hupd in H; [| discriminate].
  injection H as _ ->.
  destruct (update_balance_persisted uid c bn w resp w0 Hretry) as [Hdb _].
  destruct (fetchBalance_outcomes r' st1 w0 uid Huid')
    as (st' & w' & Hrun & _ & Hdb2 & [(_ & _ & Hrows) | (Hne & _)]);
    rewrite Hfetch in Hrun; injection Hrun as <- <-; [| contradiction].
  unfold balance_rows in Hrows. rewrite Hdb in Hrows. simpl in Hrows.
  destruct (List.filter (fun r0 => String.eqb (UserBalance.user_id r0) uid)
              (map (fun r0 => if String.eqb (UserBalance.user_id r0) uid
                              then with_balance c bn (clock w0) r0 else r0)
                 (user_balances (db w)))) as [| row [| row' rows]] eqn:Hfilter;
    [| | contradiction]; rewrite Hrows.
  - split.
    + intros row Hin Hrow.
      assert (Hin' : In (with_balance c bn (clock w0) row)
                       (List.filter (fun r0 => String.eqb (UserBalance.user_id r0) uid)
                          (map (fun r0 => if String.eqb (UserBalance.user_id r0) uid
                                          then with_balance c bn (clock w0) r0 else r0)
                             (user_balances (db w))))).
      { apply filter_In. split.
        - apply in_map_iff. exists row. split; [| assumption].
          rewrite Hrow, String.eqb_refl. reflexivity.
        - simpl. rewrite Hrow. apply String.eqb_refl. }
      rewrite Hfilter in Hin'. contradiction.
    + rewrite Hdb2, Hdb.
      assert (Hsame : map (fun r0 => if String.eqb (UserBalance.user_id r0) uid
                                     then with_balance c bn (clock w0) r0 else r0)
                        (user_balances (db w)) = user_balances (db w)).
      { rewrite <- (map_id (user_balances (db w))) at 2. apply map_ext_in.
        intros row Hin.
        destruct (String.eqb (UserBalance.user_id row) uid) eqn:Hrow; [| reflexivity].
        exfalso.
        assert (Hin' : In (with_balance c bn (clock w0) row)
                         (List.filter (fun r0 => String.eqb (UserBalance.user_id r0) uid)
                            (map (fun r0 => if String.eqb (UserBalance.user_id r0) uid
                                            then with_balance c bn (clock w0) r0 else r0)
                               (user_balances (db w))))).
        { apply filter_In. split.
          - apply in_map_iff. exists row. split; [| assumption]. rewrite Hrow. reflexivity.
          - simpl. assumption. }
        rewrite Hfilter in Hin'. contradiction. }
      rewrite Hsame. destruct (db w). reflexivity.
  - assert (Hin : In row (List.filter (fun r0 => String.eqb (UserBalance.user_id r0) uid)
                            (map (fun r0 => if String.eqb (UserBalance.user_id r0) uid
                                            then with_balance c bn (clock w0) r0 else r0)
                               (user_balances (db w))))).
    { rewrite Hfilter. left. reflexivity. }
    apply filter_In in Hin. destruct Hin as [Hin Hrow].
    apply String.eqb_eq in Hrow.
    split; [| split; [| split; [assumption |]]].
    + apply in_map_iff in Hin. destruct Hin as (old & Heq & _).
      destruct (String.eqb_spec (UserBalance.user_id old) uid); subst row;
        [reflexivity | contradiction].
    + apply in_map_iff in Hin. destruct Hin as (old & Heq & _).
      destruct (String.eqb_spec (UserBalance.user_id old) uid); subst row;
        [reflexivity | contradiction].
    + rewrite Hdb2, Hdb. simpl. assumption.
Qed.

Lemma updateBalance_then_fetchBalance_witness :
  exists st1 w1 st2 w2,
    UserCoins.updateBalance sample_coins_render 30 0 (sample_coins, sample_world [])
    = (Returned true, (st1, w1))
    /\ UserCoins.fetchBalance sample_coins_render (st1, w1) = (Returned tt, (st2, w2))
    /\ option_map UserBalance.coins (UserCoins.balance st2) = Some 30
    /\ option_map UserBalance.bonus_coins (UserCoins.balance st2) = Some 0.
Proof.
  destruct (UserCoins.updateBalance sample_coins_render 30 0 (sample_coins, sample_world []))
    as [o1 [st1 w1]] eqn:Hupd.
  pose proof Hupd as Hc. vm_compute in Hc. injection Hc as <- <- <-.
  match type of Hupd with
  | _ = (_, (?st1, ?w1)) =>
      destruct (UserCoins.fetchBalance sample_coins_render (st1, w1))
        as [o2 [st2 w2]] eqn:Hfetch
  end.
  pose proof Hfetch as Hc. vm_compute in Hc. injection Hc as <- <- <-.
  pose proof (updateBalance_then_fetchBalance sample_coins_render sample_coins_render
                sample_coins (sample_world []) "user-1" 30 0 _ _ _ _
                eq_refl eq_refl Hupd Hfetch eq_refl) as H.
  eexists. eexists. eexists. eexists.
  split; [exact Hupd |]. split; [exact Hfetch |].
  split; [exact (f_equal Some (proj1 H)) | exact (f_equal Some (proj1 (proj2 H)))].
Defined.
(** ** The retry button of a notification *)


(** ** More of the unlock gate *)


(** [fetchUnlockedEpisodes] for a signed-in user, by what becomes of the
    retried select. *)
Lemma fetchUnlockedEpisodes_cases r st w uid :
  present (EpisodeUnlocks.userId r) = Some uid ->
  match retried (select_unlocks uid) w with
  | (Returned _, w1) =>
      EpisodeUnlocks.fetchUnlockedEpisodes r (st, w)
      = (Returned tt,
         ({| EpisodeUnlocks.unlockedEpisodes :=
               list_to_set (map UserEpisodeUnlock.movie_id (unlock_rows uid (db w)));
             EpisodeUnlocks.loading := false; EpisodeUnlocks.error := None |}, w1))
      /\ db w1 = db w
  | (Thrown e, w1) =>
      exists pe,
        EpisodeUnlocks.fetchUnlockedEpisodes r (st, w)
        = (Returned tt,
           ({| EpisodeUnlocks.unlockedEpisodes := ∅;
               EpisodeUnlocks.loading := false;
               EpisodeUnlocks.error := Some (pg_message pe) |}, addError unlocks_failed w1))
        /\ db w1 = db w
  end.
Proof.
  intros Huid. unfold EpisodeUnlocks.fetchUnlockedEpisodes. rewrite Huid.
  pose proof (retried_select (SelectUnlocks uid)
                (fun d => map UserEpisodeUnlock.movie_id (unlock_rows uid d)) w) as H.
  change (query (SelectUnlocks uid) _) with (select_unlocks uid) in H.
  unfold finally, try_catch, bind, set_state, on_world. simpl.
  destruct (retried (select_unlocks uid) w) as [[data | e] w1].
  - destruct H as [-> Hdb]. simpl. auto.
  - destruct H as [Hdb (pe & ->)]. exists pe. simpl. auto.
Qed.



Lemma unlock_ids_NoDup uid rows :
  (forall movie, (length (List.filter (unlock_matches uid movie) rows) <= 1)%nat) ->
  NoDup (map UserEpisodeUnlock.movie_id
           (List.filter (fun r => String.eqb (UserEpisodeUnlock.user_id r) uid) rows)).
Proof.
  induction rows as [| row rows IH]; intros Huniq; simpl; [constructor |].
  assert (Hrest : forall movie,
             (length (List.filter (unlock_matches uid movie) rows) <= 1)%nat).
  { intros movie. specialize (Huniq movie). simpl in Huniq.
    destruct (unlock_matches uid movie row); simpl in Huniq; lia. }
  destruct (String.eqb (UserEpisodeUnlock.user_id row) uid) eqn:Hu; [| apply IH; assumption].
  simpl. constructor; [| apply IH; assumption].
  intros Hin. apply list_elem_of_In, in_map_iff in Hin. destruct Hin as (row' & Hm & Hin).
  apply filter_In in Hin. destruct Hin as [Hin Hu'].
  specialize (Huniq (UserEpisodeUnlock.movie_id row)). simpl in Huniq.
  unfold unlock_matches at 1 in Huniq. rewrite Hu, Z.eqb_refl in Huniq. simpl in Huniq.
  assert (1 <= length (List.filter (unlock_matches uid (UserEpisodeUnlock.movie_id row)) rows))%nat.
  { apply (filter_length_of_In _ _ row' Hin).
    unfold unlock_matches. rewrite Hu', Hm, Z.eqb_refl. reflexivity. }
  lia.
Qed.

(** After a [fetchUnlockedEpisodes] that succeeded, on a table that respects
    [UNIQUE(user_id, movie_id)], [getTotalUnlockedCount()] of the next render
    is the number of unlock records of the user. *)
Theorem getTotalUnlockedCount_counts_records
    (r : EpisodeUnlocks.Render) (st : EpisodeUnlocks.State) (w : World)
    (uid : string) (st' : EpisodeUnlocks.State) (w' : World) :
  present (EpisodeUnlocks.userId r) = Some uid ->
  unlocks_unique (db w) ->
  EpisodeUnlocks.fetchUnlockedEpisodes r (st, w) = (Returned tt, (st', w')) ->
  EpisodeUnlocks.error st' = None ->
  EpisodeUnlocks.getTotalUnlockedCount (unlocks_next r st') = length (unlock_rows uid (db w')).
Proof.
  intros Huid Huniq Hrun Herr.
  pose proof (fetchUnlockedEpisodes_cases r st w uid Huid) as H.
  destruct (retried (select_unlocks uid) w) as [[data | e] w1].
  - destruct H as [H Hdb]. rewrite Hrun in H. injection H as -> ->.
    unfold EpisodeUnlocks.getTotalUnlockedCount. simpl.
    rewrite size_list_to_set, Hdb; [apply length_map |].
    apply unlock_ids_NoDup. intros movie. apply (Huniq uid movie).
  - destruct H as (pe & H & _). rewrite Hrun in H. injection H as -> _.
    discriminate.
Qed.

Lemma getTotalUnlockedCount_counts_records_witness :
  exists st' w',
    EpisodeUnlocks.fetchUnlockedEpisodes sample_unlocks_render
      (sample_unlocks, set_db sample_db_unlocked (sample_world []))
    = (Returned tt, (st', w'))
    /\ EpisodeUnlocks.getTotalUnlockedCount (unlocks_next sample_unlocks_render st') = 1%nat.
Proof.
  destruct (EpisodeUnlocks.fetchUnlockedEpisodes sample_unlocks_render
              (sample_unlocks, set_db sample_db_unlocked (sample_world [])))
    as [o [st' w']] eqn:Hrun.
  pose proof Hrun as Hc. vm_compute in Hc. injection Hc as <- <- <-.
  eexists. eexists. split; [reflexivity |].
  rewrite (getTotalUnlockedCount_counts_records sample_unlocks_render sample_unlocks _
             "user-1" _ _ eq_refl) with (2 := Hrun).
  - reflexivity.
  - intros user movie. unfold unlock_count. simpl.
    destruct (unlock_matches user movie _); simpl; lia.
  - reflexivity.
Defined.
Lemma insert_unlock_schedule uid m w :
  match withRetry sleep (throw_on_error (insert_unlock uid m)) defaultRetryOptions w with
  | (Returned _, w') =>
      exists k, (k <= 3)%nat /\ schedule (InsertUnlock uid m) w (Datatypes.S k) k w'
  | (Thrown _, w') => schedule (InsertUnlock uid m) w 4 3 w'
  end.
Proof. apply withRetry_schedule. apply insert_unlock_sends_one. Qed.



(** With the record in the table and the network up, the retried insertion
    is refused at each of its four attempts. *)
Lemma insert_refused_run uid m w :
  is_integer m = true ->
  (1 <= unlock_count uid m (db w))%nat ->
  net w = [] ->
  exists w1,
    withRetry sleep (throw_on_error (insert_unlock uid m)) defaultRetryOptions w
    = (Thrown (js_of_error (unique_violation "user_episode_unlocks_user_id_movie_id_key")), w1)
    /\ db w1 = db w.
Proof.
  intros Hint Hcount Hnet.
  pose proof (withRetry_rule sleep (throw_on_error (insert_unlock uid m)) defaultRetryOptions
                (fun s => db s = db w /\ net s = [])
                (fun _ _ => False)
                (fun e => e = js_of_error
                                (unique_violation "user_episode_unlocks_user_id_movie_id_key")))
    as Hrule.
  specialize (Hrule (fun ms s Hs => Hs)).
  assert (Hret : forall s v s',
             db s = db w /\ net s = [] ->
             throw_on_error (insert_unlock uid m) s = (Returned v, s') -> False).
  { intros s v s' Hs Hop.
    destruct (insert_attempt_refused uid m w s Hint Hcount Hs) as (s1 & Hthrow & _).
    congruence. }
  assert (Hthr : forall s e s',
             db s = db w /\ net s = [] ->
             throw_on_error (insert_unlock uid m) s = (Thrown e, s') ->
             (db s' = db w /\ net s' = [])
             /\ e = js_of_error (unique_violation "user_episode_unlocks_user_id_movie_id_key")).
  { intros s e s' Hs Hop.
    destruct (insert_attempt_refused uid m w s Hint Hcount Hs) as (s1 & Hthrow & Hs1).
    rewrite Hop in Hthrow. injection Hthrow as -> ->. auto. }
  specialize (Hrule Hret Hthr w).
  destruct (withRetry sleep (throw_on_error (insert_unlock uid m)) defaultRetryOptions w)
    as [[resp | e] w1].
  - exfalso. apply Hrule; [vm_compute; discriminate | auto].
  - destruct Hrule as [[Hdb _] ->]; [vm_compute; discriminate | auto |].
    exists w1. auto.
Qed.

(** [withRetry] does not look at the error it retries.  When a render whose
    cache has missed an unlock record asks for that unlock, the table
    refuses the insertion as a duplicate four times, 7000 ms of waiting
    apart, before [unlockEpisode] answers [true]; the tables are as they
    were, with the one record. *)
Theorem unlockEpisode_duplicate_is_retried
    (r : EpisodeUnlocks.Render) (st : EpisodeUnlocks.State) (w : World)
    (uid : string) (m cost : Z) :
  present (EpisodeUnlocks.userId r) = Some uid ->
  m ∉ EpisodeUnlocks.unlockedEpisodes (EpisodeUnlocks.seen r) ->
  is_integer m = true ->
  (1 <= unlock_count uid m (db w))%nat ->
  net w = [] ->
  exists w',
    EpisodeUnlocks.unlockEpisode r m cost (st, w)
    = (Returned true, (EpisodeUnlocks.setUnlockedEpisodes (fun prev => prev ∪ {[m]}) st, w'))
    /\ db w' = db w
    /\ requests w' = requests w ++ replicate 4 (InsertUnlock uid m)
    /\ sleeps w' = sleeps w ++ [1000; 2000; 4000]
    /\ clock w' = clock w + 7000.
Proof.
  intros Huid Hnotin Hint Hcount Hnet.
  destruct (insert_refused_run uid m w Hint Hcount Hnet) as (w1 & Hrun & Hdb).
  pose proof (unlockEpisode_inserting r st w uid m cost Huid Hnotin) as H.
  pose proof (insert_unlock_schedule uid m w) as Hs.
  rewrite Hrun in H, Hs. specialize (H _ eq_refl).
  change (looks_duplicate _) with true in H.
  destruct Hs as (Hreq & Hsl & Hcl & _).
  destruct (addError_unfold unlocked_before w1) as (_ & _ & Hcl' & Hdb' & Hreq' & _ & Hsl').
  eexists. split; [exact H |].
  rewrite Hdb', Hreq', Hsl', Hcl'. auto.
Qed.

Lemma unlockEpisode_duplicate_is_retried_witness :
  exists st' w',
    EpisodeUnlocks.unlockEpisode sample_unlocks_render 2 5
      (sample_unlocks, set_db sample_db_unlocked (sample_world []))
    = (Returned true, (st', w'))
    /\ db w' = sample_db_unlocked
    /\ length (requests w') = 4%nat
    /\ sleeps w' = [1000; 2000; 4000].
Proof.
  destruct (unlockEpisode_duplicate_is_retried sample_unlocks_render sample_unlocks
              (set_db sample_db_unlocked (sample_world [])) "user-1" 2 5
              eq_refl (not_elem_of_empty 2) eq_refl)
    as (w' & Hrun & Hdb & Hreq & Hsl & _).
  - unfold unlock_count. simpl. lia.
  - reflexivity.
  - eexists. exists w'. split; [exact Hrun |]. split; [exact Hdb |].
    split; [rewrite Hreq; reflexivity | exact Hsl].
Defined.

(** [getTotalUnlockedCount()] across an [unlockEpisode] made from the render
    of the current state: the count goes up by one when the call returns
    [true] for an episode that was not in the cache, and stays as it was
    otherwise. *)
Theorem unlockEpisode_counts
    (r : EpisodeUnlocks.Render) (st : EpisodeUnlocks.State) (w : World)
    (uid : string) (m cost : Z) :
  present (EpisodeUnlocks.userId r) = Some uid ->
  EpisodeUnlocks.seen r = st ->
  exists o st1 w1,
    EpisodeUnlocks.unlockEpisode r m cost (st, w) = (Returned o, (st1, w1))
    /\ EpisodeUnlocks.getTotalUnlockedCount (unlocks_next r st1)
       = (EpisodeUnlocks.getTotalUnlockedCount r
          + if o && negb (EpisodeUnlocks.isEpisodeUnlocked r m) then 1 else 0)%nat
    /\ (o = true -> EpisodeUnlocks.isEpisodeUnlocked (unlocks_next r st1) m = true).
Proof.
  intros Huid Hseen.
  unfold EpisodeUnlocks.getTotalUnlockedCount, EpisodeUnlocks.isEpisodeUnlocked. simpl.
  rewrite Hseen.
  assert (Hadd : m ∉ EpisodeUnlocks.unlockedEpisodes st ->
                 size (EpisodeUnlocks.unlockedEpisodes st ∪ {[m]})
                 = (size (EpisodeUnlocks.unlockedEpisodes st) + 1)%nat).
  { intros Hnotin. rewrite size_union by (apply disjoint_singleton_r; assumption). rewrite size_singleton. reflexivity. }
  destruct (decide (m ∈ EpisodeUnlocks.unlockedEpisodes st)) as [Hin | Hnotin].
  - rewrite <- Hseen in Hin.
    rewrite (unlockEpisode_cached r st w uid m cost Huid Hin). rewrite Hseen in Hin.
    eexists. eexists. eexists. split; [reflexivity |].
    rewrite (bool_decide_eq_true_2 _ Hin). simpl. split; [lia | reflexivity].
  - pose proof Hnotin as Hnotin'. rewrite <- Hseen in Hnotin'.
    pose proof (unlockEpisode_inserting r st w uid m cost Huid Hnotin') as H.
    pose proof (withRetry_insert uid m w) as Hw.
    rewrite (bool_decide_eq_false_2 _ Hnotin). simpl.
    destruct (withRetry sleep (throw_on_error (insert_unlock uid m)) defaultRetryOptions w)
      as [[resp | e] w0].
    + eexists. eexists. eexists. split; [exact H |]. simpl.
      split; [apply Hadd; assumption |].
      intros _. apply bool_decide_eq_true_2, elem_of_union_r, elem_of_singleton_2.
        reflexivity.
    + destruct Hw as [_ (pe & He & _)]. specialize (H pe He).
      destruct (looks_duplicate (pg_message pe)).
      * eexists. eexists. eexists. split; [exact H |]. simpl.
        split; [apply Hadd; assumption |].
        intros _. apply bool_decide_eq_true_2, elem_of_union_r, elem_of_singleton_2.
        reflexivity.
      * eexists. eexists. eexists. split; [exact H |]. simpl.
        split; [lia | discriminate].
Qed.

Lemma unlockEpisode_counts_witness :
  exists o st1 w1,
    EpisodeUnlocks.unlockEpisode sample_unlocks_render 2 5 (sample_unlocks, sample_world [])
    = (Returned o, (st1, w1))
    /\ EpisodeUnlocks.getTotalUnlockedCount (unlocks_next sample_unlocks_render st1)
       = (0 + if o && true then 1 else 0)%nat.
Proof.
  destruct (unlockEpisode_counts sample_unlocks_render sample_unlocks (sample_world [])
              "user-1" 2 5 eq_refl eq_refl) as (o & st1 & w1 & Hrun & Hcount & _).
  exists o, st1, w1. split; [exact Hrun |]. exact Hcount.
Defined.

(** The two invariants of the unlock gate: the table holds at most one
    record for a user and an episode, and the cache holds only episodes
    that have a record.  [fetchUnlockedEpisodes] establishes the second
    whatever becomes of its request, and [unlockEpisode], called from the
    render of the current state, keeps both whatever becomes of its
    insertion (no transient fault being worded like a uniqueness
    violation). *)
Theorem unlock_gate_invariants (uid : string) :
  (forall r st w o st' w',
      present (EpisodeUnlocks.userId r) = Some uid ->
      EpisodeUnlocks.fetchUnlockedEpisodes r (st, w) = (o, (st', w')) ->
      db w' = db w
      /\ cache_recorded uid (EpisodeUnlocks.unlockedEpisodes st') (db w'))
  /\ (forall r st w m cost o st1 w1,
      present (EpisodeUnlocks.userId r) = Some uid ->
      EpisodeUnlocks.seen r = st ->
      unlocks_unique (db w) ->
      cache_recorded uid (EpisodeUnlocks.unlockedEpisodes st) (db w) ->
      faults_plain (net w) ->
      EpisodeUnlocks.unlockEpisode r m cost (st, w) = (o, (st1, w1)) ->
      unlocks_unique (db w1)
      /\ cache_recorded uid (EpisodeUnlocks.unlockedEpisodes st1) (db w1)).
Proof.
  split.
  - intros r st w o st' w'. apply fetchUnlockedEpisodes_cache_recorded.
  - intros r st w m cost o st1 w1. apply unlockEpisode_keeps_invariants.
Qed.

Lemma unlock_gate_invariants_witness :
  exists o st1 w1,
    EpisodeUnlocks.unlockEpisode sample_unlocks_render 2 5 (sample_unlocks, sample_world [])
    = (o, (st1, w1))
    /\ unlocks_unique (db w1)
    /\ cache_recorded "user-1" (EpisodeUnlocks.unlockedEpisodes st1) (db w1).
Proof.
  destruct (EpisodeUnlocks.unlockEpisode sample_unlocks_render 2 5
              (sample_unlocks, sample_world [])) as [o [st1 w1]] eqn:Hrun.
  exists o, st1, w1. split; [reflexivity |].
  refine (proj2 (unlock_gate_invariants "user-1") sample_unlocks_render sample_unlocks
            (sample_world []) 2 5 o st1 w1 eq_refl eq_refl _ _ _ Hrun).
  - intros user movie. change (0 <= 1)%nat. lia.
  - intros movie Hin. apply not_elem_of_empty in Hin. contradiction.
  - constructor.
Defined.
(** ** The episodes of a series *)

(** The two lists of a series.  No episode is in both; an episode of the
    series that is locked is in one of them, by whether the cache has it;
    an episode that is not locked and not in the cache is in neither (the
    list of unlocked episodes is the list of cached unlocks, it does not
    hold the free episodes); and nothing is listed that is not an episode of
    the series among those given. *)
Theorem series_lists_split
    (r : EpisodeUnlocks.Render) (seriesId : string) (allEpisodes : list Episode.t) :
  let unlocked := getUnlockedEpisodesForSeries r seriesId allEpisodes in
  let locked := getLockedEpisodesForSeries r seriesId allEpisodes in
  (forall ep, In ep unlocked -> ~ In ep locked)
  /\ (forall ep, In ep allEpisodes -> in_series seriesId ep = true ->
        truthy_boolean (Episode.is_locked ep) = true ->
        (In ep unlocked <-> EpisodeUnlocks.isEpisodeUnlocked r (Episode.id ep) = true)
        /\ (In ep locked <-> EpisodeUnlocks.isEpisodeUnlocked r (Episode.id ep) = false))
  /\ (forall ep, truthy_boolean (Episode.is_locked ep) = false ->
        EpisodeUnlocks.isEpisodeUnlocked r (Episode.id ep) = false ->
        ~ In ep unlocked /\ ~ In ep locked)
  /\ (forall ep, In ep unlocked \/ In ep locked ->
        In ep allEpisodes /\ Episode.series_id ep = Some seriesId)
  /\ (length unlocked + length locked <= length (List.filter (in_series seriesId) allEpisodes))%nat.
Proof.
  intros unlocked locked.
  unfold unlocked, locked, getUnlockedEpisodesForSeries, getLockedEpisodesForSeries,
    EpisodeUnlocks.isEpisodeUnlocked, in_series.
  split; [| split; [| split; [| split]]].
  - intros ep Hu Hl. apply filter_In in Hu, Hl.
    destruct Hu as [_ Hu], Hl as [_ Hl].
    apply andb_true_iff in Hu, Hl. destruct Hu as [_ Hu], Hl as [_ Hl].
    rewrite Hu in Hl. discriminate.
  - intros ep Hin Hs Hl. rewrite !filter_In, Hs, Hl. simpl.
    destruct (bool_decide (Episode.id ep ∈ _)); simpl; intuition congruence.
  - intros ep Hl Hc. rewrite !filter_In, Hl, Hc, andb_false_r. simpl.
    intuition congruence.
  - assert (Hseries : forall ep, is_string (Episode.series_id ep) seriesId = true ->
                                 Episode.series_id ep = Some seriesId).
    { intros ep. unfold is_string. destruct (Episode.series_id ep) as [s |]; [| discriminate].
      intros H. apply String.eqb_eq in H. congruence. }
    intros ep [H | H]; apply filter_In in H; destruct H as [Hin H].
    + apply andb_true_iff in H. destruct H as [H _]. auto.
    + apply andb_true_iff in H. destruct H as [H _].
      apply andb_true_iff in H. destruct H as [H _]. auto.
  - clear unlocked locked. induction allEpisodes as [| ep l IH]; simpl; [lia |].
    destruct (is_string (Episode.series_id ep) seriesId); simpl; [| exact IH].
    destruct (bool_decide (Episode.id ep ∈ _)); simpl.
    + rewrite andb_false_r. simpl. lia.
    + destruct (truthy_boolean (Episode.is_locked ep)); simpl; lia.
Qed.

Lemma series_lists_split_witness :
  let r := unlocks_next sample_unlocks_render
             (EpisodeUnlocks.setUnlockedEpisodes (fun _ => {[2]}) sample_unlocks) in
  let all := [sample_free_episode 1; sample_episode 2 5; sample_episode 3 5] in
  (In (sample_episode 2 5) (getUnlockedEpisodesForSeries r "series-1" all)
   <-> EpisodeUnlocks.isEpisodeUnlocked r 2 = true)
  /\ (In (sample_episode 3 5) (getLockedEpisodesForSeries r "series-1" all)
      <-> EpisodeUnlocks.isEpisodeUnlocked r 3 = false)
  /\ ~ In (sample_free_episode 1) (getUnlockedEpisodesForSeries r "series-1" all).
Proof.
  intros r all.
  destruct (series_lists_split r "series-1" all) as (_ & Hlocked & Hfree & _).
  split; [| split].
  - apply (Hlocked (sample_episode 2 5)); [simpl; auto | reflexivity | reflexivity].
  - apply (Hlocked (sample_episode 3 5)); [simpl; auto | reflexivity | reflexivity].
  - apply (Hfree (sample_free_episode 1)); reflexivity.
Defined.

(** The local update of a successful unlock agrees with the next
    enrichment.  Marking the episode [m] in the enriched episodes of a
    render gives the list the rows enrich to once the cache has gained [m],
    as it has after an [unlockEpisode(m)] that returned [true]. *)
Theorem unlocked_flag_agrees_with_enrichment
    (r r' : MovieDetailPage.Render) (m : Z) (data : list Episode.t) :
  EpisodeUnlocks.unlockedEpisodes (MovieDetailPage.unlocks (MovieDetailPage.seen r'))
  = EpisodeUnlocks.unlockedEpisodes (MovieDetailPage.unlocks (MovieDetailPage.seen r)) ∪ {[m]} ->
  map (fun ep => if Episode.id ep =? m then Episode.unlocked ep else ep)
    (MovieDetailPage.enrichedEpisodes r data)
  = MovieDetailPage.enrichedEpisodes r' data.
Proof.
  intros Hcache. unfold MovieDetailPage.enrichedEpisodes. rewrite map_map.
  apply map_ext. intros ep.
  unfold EpisodeUnlocks.isEpisodeUnlocked, MovieDetailPage.unlocks_render. simpl.
  rewrite Hcache.
  change (Episode.id {| Episode.movie := Episode.movie ep; Episode.is_locked := _;
                        Episode.unlock_cost := _; Episode.is_unlocked := _;
                        Episode.poster := _; Episode.landscapePoster := _;
                        Episode.viewCount := _ |}) with (Episode.id ep).
  destruct (Z.eqb_spec (Episode.id ep) m) as [Heq | Hne].
  - unfold Episode.unlocked. simpl. f_equal. f_equal.
    rewrite (bool_decide_eq_true_2 (Episode.id ep ∈ _ ∪ {[m]})).
    + rewrite orb_true_r. reflexivity.
    + apply elem_of_union_r, elem_of_singleton_2. assumption.
  - f_equal. f_equal. f_equal. apply bool_decide_ext.
    rewrite elem_of_union, elem_of_singleton. tauto.
Qed.

Lemma unlocked_flag_agrees_with_enrichment_witness :
  let r' :=
    {| MovieDetailPage.user_id := Some "user-1"; MovieDetailPage.onPlayEpisode := true;
       MovieDetailPage.seen :=
         {| MovieDetailPage.page := MovieDetailPage.page sample_page;
            MovieDetailPage.coins := sample_coins;
            MovieDetailPage.unlocks :=
              EpisodeUnlocks.setUnlockedEpisodes (fun prev => prev ∪ {[2]}) sample_unlocks |} |} in
  map (fun ep => if Episode.id ep =? 2 then Episode.unlocked ep else ep)
    (MovieDetailPage.enrichedEpisodes sample_page_render
       [sample_free_episode 1; sample_episode 2 5; sample_episode 3 5])
  = MovieDetailPage.enrichedEpisodes r'
      [sample_free_episode 1; sample_episode 2 5; sample_episode 3 5].
Proof.
  intros r'.
  apply (unlocked_flag_agrees_with_enrichment sample_page_render r' 2). reflexivity.
Defined.

(** ** The detail page *)

(** [handleUnlockEpisode] stops before it spends anything in three cases.
    Without a user, or with an [unlock_cost] that is missing or [0], it does
    nothing at all.  With a cost the balance of the render cannot cover, it
    shows an [alert] and does nothing else.  When the user answers the
    [confirm] with no, the question is all that has happened.  No request is
    sent, and the hooks and the episodes of the page are as they were. *)
Theorem handleUnlockEpisode_declines
    (r : MovieDetailPage.Render) (answer : bool) (episode : Episode.t)
    (h : MovieDetailPage.Hooks) (w : World) :
  (present (MovieDetailPage.user_id r) = None
   \/ truthy_number (Episode.unlock_cost episode) = false ->
   MovieDetailPage.handleUnlockEpisode r answer episode (h, w) = (Returned tt, (h, w)))
  /\ (forall uid cost,
        present (MovieDetailPage.user_id r) = Some uid ->
        Episode.unlock_cost episode = Some cost -> cost <> 0 ->
        UserCoins.canAfford (MovieDetailPage.coins_render r) cost = false ->
        MovieDetailPage.handleUnlockEpisode r answer episode (h, w)
        = (Returned tt,
           (with_page (alerted (MovieDetailPage.need_more_coins (Some cost)
                                  (UserCoins.totalCoins (MovieDetailPage.coins_render r)))) h,
            w)))
  /\ (forall uid cost,
        present (MovieDetailPage.user_id r) = Some uid ->
        Episode.unlock_cost episode = Some cost -> cost <> 0 ->
        UserCoins.canAfford (MovieDetailPage.coins_render r) cost = true ->
        answer = false ->
        MovieDetailPage.handleUnlockEpisode r answer episode (h, w)
        = (Returned tt, (with_page (asked (MovieDetailPage.unlock_question episode)) h, w))).
Proof.
  unfold MovieDetailPage.handleUnlockEpisode. split; [| split].
  - intros [Huid | Hcost].
    + rewrite Huid. reflexivity.
    + destruct (present (MovieDetailPage.user_id r)); [| reflexivity].
      destruct (Episode.unlock_cost episode) as [cost |]; [| reflexivity].
      simpl in Hcost. apply negb_false_iff in Hcost. rewrite Hcost. reflexivity.
  - intros uid cost Huid Hcost Hne Hafford. rewrite Huid, Hcost, Hafford.
    destruct (Z.eqb_spec cost 0); [contradiction |]. reflexivity.
  - intros uid cost Huid Hcost Hne Hafford ->. rewrite Huid, Hcost, Hafford.
    destruct (Z.eqb_spec cost 0); [contradiction |]. reflexivity.
Qed.

Lemma handleUnlockEpisode_declines_witness :
  MovieDetailPage.handleUnlockEpisode sample_page_render true (sample_episode 2 0)
    (sample_page, sample_world [])
  = (Returned tt, (sample_page, sample_world []))
  /\ (exists h',
        MovieDetailPage.handleUnlockEpisode sample_page_render true (sample_episode 2 151)
          (sample_page, sample_world [])
        = (Returned tt, (h', sample_world []))
        /\ MovieDetailPage.alerts (MovieDetailPage.page h')
           = ["You need 151 coins to unlock this episode. You currently have 150 coins. Please purchase more coins to continue."])
  /\ (exists h',
        MovieDetailPage.handleUnlockEpisode sample_page_render false (sample_episode 2 5)
          (sample_page, sample_world [])
        = (Returned tt, (h', sample_world []))
        /\ MovieDetailPage.confirms (MovieDetailPage.page h')
           = ["Unlock Episode 2 for 5 coins?"]).
Proof.
  split; [| split].
  - apply (proj1 (handleUnlockEpisode_declines sample_page_render true (sample_episode 2 0)
                    sample_page (sample_world []))).
    right. reflexivity.
  - eexists. split.
    + apply (proj1 (proj2 (handleUnlockEpisode_declines sample_page_render true
                             (sample_episode 2 151) sample_page (sample_world [])))
               "user-1" 151); [reflexivity | reflexivity | discriminate | reflexivity].
    + reflexivity.
  - eexists. split.
    + apply (proj2 (proj2 (handleUnlockEpisode_declines sample_page_render false
                             (sample_episode 2 5) sample_page (sample_world [])))
               "user-1" 5); [reflexivity | reflexivity | discriminate | reflexivity | reflexivity].
    + reflexivity.
Defined.

(** [handleUnlockEpisode] once the user has said yes, by what the two hooks
    answer. *)
Lemma handleUnlockEpisode_confirmed r episode h w uid cost :
  present (MovieDetailPage.user_id r) = Some uid ->
  Episode.unlock_cost episode = Some cost -> cost <> 0 ->
  UserCoins.canAfford (MovieDetailPage.coins_render r) cost = true ->
  MovieDetailPage.handleUnlockEpisode r true episode (h, w)
  = let p := asked (MovieDetailPage.unlock_question episode) (MovieDetailPage.page h) in
    match UserCoins.spendCoins (MovieDetailPage.coins_render r) cost
            (MovieDetailPage.coins h, w) with
    | (Returned true, (c, w1)) =>
        match EpisodeUnlocks.unlockEpisode (MovieDetailPage.unlocks_render r)
                (Episode.id episode) cost (MovieDetailPage.unlocks h, w1) with
        | (Returned true, (u, w2)) =>
            (Returned tt,
             ({| MovieDetailPage.page :=
                   MovieDetailPage.setSeriesEpisodes
                     (map (fun ep => if Episode.id ep =? Episode.id episode
                                     then Episode.unlocked ep else ep)) p;
                 MovieDetailPage.coins := c; MovieDetailPage.unlocks := u |}, w2))
        | (Returned false, (u, w2)) =>
            (Returned tt,
             ({| MovieDetailPage.page := p; MovieDetailPage.coins := c;
                 MovieDetailPage.unlocks := u |}, w2))
        | (Thrown _, (u, w2)) =>
            (Returned tt,
             ({| MovieDetailPage.page :=
                   alerted "Failed to unlock episode. Please try again." p;
                 MovieDetailPage.coins := c; MovieDetailPage.unlocks := u |}, w2))
        end
    | (Returned false, (c, w1)) =>
        (Returned tt,
         ({| MovieDetailPage.page := p; MovieDetailPage.coins := c;
             MovieDetailPage.unlocks := MovieDetailPage.unlocks h |}, w1))
    | (Thrown _, (c, w1)) =>
        (Returned tt,
         ({| MovieDetailPage.page := alerted "Failed to unlock episode. Please try again." p;
             MovieDetailPage.coins := c;
             MovieDetailPage.unlocks := MovieDetailPage.unlocks h |}, w1))
    end.
Proof.
  intros Huid Hcost Hne Hafford.
  unfold MovieDetailPage.handleUnlockEpisode. rewrite Huid, Hcost, Hafford.
  destruct (Z.eqb_spec cost 0); [contradiction |]. simpl.
  unfold MovieDetailPage.confirm, bind, try_catch, MovieDetailPage.on_page, set_state, ret,
    MovieDetailPage.on_coins, MovieDetailPage.on_unlocks, MovieDetailPage.alert. simpl.
  destruct (UserCoins.spendCoins (MovieDetailPage.coins_render r) cost
              (MovieDetailPage.coins h, w)) as [[[] | e] [c w1]]; try reflexivity.
  simpl.
  destruct (EpisodeUnlocks.unlockEpisode (MovieDetailPage.unlocks_render r)
              (Episode.id episode) cost (MovieDetailPage.unlocks h, w1))
    as [[[] | e] [u w2]]; reflexivity.
Qed.
Lemma present_present userId : present (present userId) = present userId.
Proof.
  destruct userId as [u |]; simpl; [| reflexivity].
  destruct (String.eqb u "") eqn:Hu; simpl; [reflexivity |]. rewrite Hu. reflexivity.
Qed.

(** The first step of a confirmed unlock: the spend, when its update
    answers. *)
Lemma spendCoins_answered r st w uid b a resp w1 :
  present (UserCoins.userId r) = Some uid ->
  UserCoins.balance (UserCoins.seen r) = Some b ->
  0 <= UserBalance.bonus_coins b ->
  0 <= a <= UserBalance.coins b + UserBalance.bonus_coins b ->
  let newBonusCoins := UserBalance.bonus_coins b - Z.min a (UserBalance.bonus_coins b) in
  let newCoins := UserBalance.coins b - (a - Z.min a (UserBalance.bonus_coins b)) in
  withRetry sleep (throw_on_error (update_balance uid newCoins newBonusCoins))
    defaultRetryOptions w = (Returned resp, w1) ->
  UserCoins.spendCoins r a (st, w)
  = (Returned true,
     (UserCoins.setBalance (Some (with_balance newCoins newBonusCoins (clock w1) b)) st, w1))
  /\ persisted_total uid (UserBalance.coins b + UserBalance.bonus_coins b - a) (db w1)
  /\ user_episode_unlocks (db w1) = user_episode_unlocks (db w)
  /\ movies (db w1) = movies (db w).
Proof.
  intros Huid Hb Hbn Ha newBonusCoins newCoins Hrun.
  split.
  { rewrite (spendCoins_split r b a Hb Hbn Ha). fold newBonusCoins newCoins.
    pose proof (updateBalance_cases r st w uid newCoins newBonusCoins Huid) as H.
    rewrite Hrun in H. rewrite H, Hb. reflexivity. }
  destruct (update_balance_persisted uid newCoins newBonusCoins w resp w1 Hrun) as [Hdb _].
  rewrite Hdb. simpl. split; [| auto].
  intros row Hin Hrow. apply in_map_iff in Hin. destruct Hin as (old & Heq & _).
  destruct (String.eqb (UserBalance.user_id old) uid) eqn:Hold.
  - subst row. simpl. unfold newCoins, newBonusCoins. lia.
  - subst row. apply String.eqb_neq in Hold. contradiction.
Qed.

Lemma canAfford_of_total r b cost :
  UserCoins.balance (UserCoins.seen r) = Some b ->
  cost <= UserBalance.coins b + UserBalance.bonus_coins b ->
  UserCoins.canAfford r cost = true.
Proof.
  intros Hb Hcost. unfold UserCoins.canAfford. rewrite Hb. apply Z.leb_le. assumption.
Qed.

(** A confirmed unlock that goes through.  For a signed-in user whose
    balance covers the cost of a locked episode that is not in the cache,
    when the update of the balance and the insertion of the unlock both
    answer, [handleUnlockEpisode] leaves the balance, locally and in the
    table, lower by exactly the cost; there is one unlock record for the
    user and the episode; the cache holds the episode; the episode is
    marked [is_unlocked] in the list of the page; and no [alert] is
    shown. *)
Theorem handleUnlockEpisode_charges_and_unlocks
    (r : MovieDetailPage.Render) (episode : Episode.t) (h : MovieDetailPage.Hooks) (w : World)
    (uid : string) (cost : Z) (b : UserBalance.t)
    (resp1 resp2 : Response.t unit) (w1 w2 : World) :
  present (MovieDetailPage.user_id r) = Some uid ->
  Episode.unlock_cost episode = Some cost ->
  0 < cost ->
  UserCoins.balance (MovieDetailPage.coins (MovieDetailPage.seen r)) = Some b ->
  0 <= UserBalance.bonus_coins b ->
  cost <= UserBalance.coins b + UserBalance.bonus_coins b ->
  Episode.id episode
    ∉ EpisodeUnlocks.unlockedEpisodes (MovieDetailPage.unlocks (MovieDetailPage.seen r)) ->
  let newBonusCoins := UserBalance.bonus_coins b - Z.min cost (UserBalance.bonus_coins b) in
  let newCoins := UserBalance.coins b - (cost - Z.min cost (UserBalance.bonus_coins b)) in
  withRetry sleep (throw_on_error (update_balance uid newCoins newBonusCoins))
    defaultRetryOptions w = (Returned resp1, w1) ->
  withRetry sleep (throw_on_error (insert_unlock uid (Episode.id episode)))
    defaultRetryOptions w1 = (Returned resp2, w2) ->
  exists h' w' b',
    MovieDetailPage.handleUnlockEpisode r true episode (h, w) = (Returned tt, (h', w'))
    /\ UserCoins.balance (MovieDetailPage.coins h') = Some b'
    /\ UserBalance.coins b' + UserBalance.bonus_coins b'
       = UserBalance.coins b + UserBalance.bonus_coins b - cost
    /\ persisted_total uid (UserBalance.coins b + UserBalance.bonus_coins b - cost) (db w')
    /\ unlock_count uid (Episode.id episode) (db w') = 1%nat
    /\ Episode.id episode ∈ EpisodeUnlocks.unlockedEpisodes (MovieDetailPage.unlocks h')
    /\ MovieDetailPage.seriesEpisodes (MovieDetailPage.page h')
       = map (fun ep => if Episode.id ep =? Episode.id episode then Episode.unlocked ep else ep)
           (MovieDetailPage.seriesEpisodes (MovieDetailPage.page h))
    /\ MovieDetailPage.alerts (MovieDetailPage.page h')
       = MovieDetailPage.alerts (MovieDetailPage.page h).
Proof.
  intros Huid Hcost Hpos Hb Hbn Hle Hnotin newBonusCoins newCoins Hrun1 Hrun2.
  assert (Huid' : present (UserCoins.userId (MovieDetailPage.coins_render r)) = Some uid).
  { simpl. rewrite present_present. assumption. }
  assert (Huid'' : present (EpisodeUnlocks.userId (MovieDetailPage.unlocks_render r)) = Some uid).
  { simpl. rewrite present_present. assumption. }
  rewrite (handleUnlockEpisode_confirmed r episode h w uid cost Huid Hcost)
    by (lia || (apply (canAfford_of_total _ b); assumption)).
  destruct (spendCoins_answered (MovieDetailPage.coins_render r) (MovieDetailPage.coins h) w
              uid b cost resp1 w1 Huid' Hb Hbn ltac:(lia) Hrun1)
    as (Hspend & Htotal & Hunl & _).
  cbv zeta. rewrite Hspend.
  pose proof (unlockEpisode_inserting (MovieDetailPage.unlocks_render r)
                (MovieDetailPage.unlocks h) w1 uid (Episode.id episode) cost Huid'' Hnotin) as H.
  pose proof (withRetry_insert uid (Episode.id episode) w1) as Hw.
  rewrite Hrun2 in H, Hw. rewrite H.
  destruct Hw as [_ [uuid Hex]].
  destruct (insert_unlock_row_added uid _ uuid _ _ _ Hex) as (_ & Hone & Hbal).
  destruct (addError_frame (unlocked_now cost) w2) as [Hdb _].
  eexists. eexists. eexists. split; [reflexivity |].
  split; [reflexivity |].
  split; [simpl; lia |].
  rewrite Hdb.
  split; [unfold persisted_total; rewrite Hbal; exact Htotal |].
  split; [assumption |].
  split; [simpl; apply elem_of_union_r, elem_of_singleton_2; reflexivity |].
  split; reflexivity.
Qed.

Lemma handleUnlockEpisode_charges_and_unlocks_witness :
  exists h' w',
    MovieDetailPage.handleUnlockEpisode sample_page_render true (sample_episode 2 120)
      (sample_page, sample_world [])
    = (Returned tt, (h', w'))
    /\ persisted_total "user-1" 30 (db w')
    /\ unlock_count "user-1" 2 (db w') = 1%nat
    /\ MovieDetailPage.alerts (MovieDetailPage.page h') = [].
Proof.
  destruct (withRetry sleep (throw_on_error (update_balance "user-1" 30 0))
              defaultRetryOptions (sample_world [])) as [o1 w1] eqn:Hrun1.
  pose proof Hrun1 as Hc. vm_compute in Hc. injection Hc as <- <-.
  match type of Hrun1 with
  | _ = (_, ?w1) =>
      destruct (withRetry sleep (throw_on_error (insert_unlock "user-1" 2))
                  defaultRetryOptions w1) as [o2 w2] eqn:Hrun2
  end.
  pose proof Hrun2 as Hc. vm_compute in Hc. injection Hc as <- <-.
  destruct (handleUnlockEpisode_charges_and_unlocks sample_page_render (sample_episode 2 120)
              sample_page (sample_world []) "user-1" 120 sample_balance _ _ _ _
              eq_refl eq_refl ltac:(lia) eq_refl ltac:(simpl; lia) ltac:(simpl; lia)
              (not_elem_of_empty 2) Hrun1 Hrun2)
    as (h' & w' & b' & Hrun & _ & _ & Htotal & Hcount & _ & _ & Halerts).
  exists h', w'. auto.
Defined.



(** An unlock the cache has missed is paid for again.  When the record of
    the unlock is in the table but not in the cache of the render (the cache
    is empty after a [fetchUnlockedEpisodes] that failed), a confirmed
    [handleUnlockEpisode] first lowers the balance by the cost, locally and
    in the table, and then has the insertion refused as a duplicate, which
    [unlockEpisode] answers with [true]: the episode is marked unlocked, the
    unlock records are as they were, and the cost stays deducted. *)
Theorem handleUnlockEpisode_charges_again
    (r : MovieDetailPage.Render) (episode : Episode.t) (h : MovieDetailPage.Hooks) (w : World)
    (uid : string) (cost : Z) (b : UserBalance.t) (resp1 : Response.t unit) (w1 : World) :
  present (MovieDetailPage.user_id r) = Some uid ->
  Episode.unlock_cost episode = Some cost ->
  0 < cost ->
  UserCoins.balance (MovieDetailPage.coins (MovieDetailPage.seen r)) = Some b ->
  0 <= UserBalance.bonus_coins b ->
  cost <= UserBalance.coins b + UserBalance.bonus_coins b ->
  Episode.id episode
    ∉ EpisodeUnlocks.unlockedEpisodes (MovieDetailPage.unlocks (MovieDetailPage.seen r)) ->
  is_integer (Episode.id episode) = true ->
  (1 <= unlock_count uid (Episode.id episode) (db w))%nat ->
  let newBonusCoins := UserBalance.bonus_coins b - Z.min cost (UserBalance.bonus_coins b) in
  let newCoins := UserBalance.coins b - (cost - Z.min cost (UserBalance.bonus_coins b)) in
  withRetry sleep (throw_on_error (update_balance uid newCoins newBonusCoins))
    defaultRetryOptions w = (Returned resp1, w1) ->
  net w1 = [] ->
  exists h' w' b',
    MovieDetailPage.handleUnlockEpisode r true episode (h, w) = (Returned tt, (h', w'))
    /\ UserCoins.balance (MovieDetailPage.coins h') = Some b'
    /\ UserBalance.coins b' + UserBalance.bonus_coins b'
       = UserBalance.coins b + UserBalance.bonus_coins b - cost
    /\ persisted_total uid (UserBalance.coins b + UserBalance.bonus_coins b - cost) (db w')
    /\ user_episode_unlocks (db w') = user_episode_unlocks (db w)
    /\ Episode.id episode ∈ EpisodeUnlocks.unlockedEpisodes (MovieDetailPage.unlocks h')
    /\ MovieDetailPage.seriesEpisodes (MovieDetailPage.page h')
       = map (fun ep => if Episode.id ep =? Episode.id episode then Episode.unlocked ep else ep)
           (MovieDetailPage.seriesEpisodes (MovieDetailPage.page h)).
Proof.
  intros Huid Hcost Hpos Hb Hbn Hle Hnotin Hint Hcount newBonusCoins newCoins Hrun1 Hnet.
  assert (Huid' : present (UserCoins.userId (MovieDetailPage.coins_render r)) = Some uid).
  { simpl. rewrite present_present. assumption. }
  assert (Huid'' : present (EpisodeUnlocks.userId (MovieDetailPage.unlocks_render r)) = Some uid).
  { simpl. rewrite present_present. assumption. }
  rewrite (handleUnlockEpisode_confirmed r episode h w uid cost Huid Hcost)
    by (lia || (apply (canAfford_of_total _ b); assumption)).
  destruct (spendCoins_answered (MovieDetailPage.coins_render r) (MovieDetailPage.coins h) w
              uid b cost resp1 w1 Huid' Hb Hbn ltac:(lia) Hrun1)
    as (Hspend & Htotal & Hunl & _).
  cbv zeta. rewrite Hspend.
  assert (Hcount1 : (1 <= unlock_count uid (Episode.id episode) (db w1))%nat).
  { unfold unlock_count in *. rewrite Hunl. assumption. }
  destruct (insert_refused_run uid (Episode.id episode) w1 Hint Hcount1 Hnet)
    as (w2 & Hrun2 & Hdb).
  pose proof (unlockEpisode_inserting (MovieDetailPage.unlocks_render r)
                (MovieDetailPage.unlocks h) w1 uid (Episode.id episode) cost Huid'' Hnotin) as H.
  rewrite Hrun2 in H. specialize (H _ eq_refl).
  change (looks_duplicate _) with true in H. rewrite H.
  destruct (addError_frame unlocked_before w2) as [Hdb' _].
  eexists. eexists. eexists. split; [reflexivity |].
  split; [reflexivity |].
  split; [simpl; lia |].
  split; [unfold persisted_total; rewrite Hdb', Hdb; exact Htotal |].
  split; [rewrite Hdb', Hdb; assumption |].
  split; [simpl; apply elem_of_union_r, elem_of_singleton_2; reflexivity |].
  reflexivity.
Qed.

Lemma handleUnlockEpisode_charges_again_witness :
  exists h' w',
    MovieDetailPage.handleUnlockEpisode sample_page_render true (sample_episode 2 120)
      (sample_page, set_db sample_db_unlocked (sample_world []))
    = (Returned tt, (h', w'))
    /\ persisted_total "user-1" 30 (db w')
    /\ user_episode_unlocks (db w') = user_episode_unlocks sample_db_unlocked.
Proof.
  destruct (withRetry sleep (throw_on_error (update_balance "user-1" 30 0))
              defaultRetryOptions (set_db sample_db_unlocked (sample_world [])))
    as [o1 w1] eqn:Hrun1.
  pose proof Hrun1 as Hc. vm_compute in Hc. injection Hc as <- <-.
  destruct (handleUnlockEpisode_charges_again sample_page_render (sample_episode 2 120)
              sample_page (set_db sample_db_unlocked (sample_world []))
              "user-1" 120 sample_balance _ _
              eq_refl eq_refl ltac:(lia) eq_refl ltac:(simpl; lia) ltac:(simpl; lia)
              (not_elem_of_empty 2) eq_refl ltac:(unfold unlock_count; simpl; lia)
              Hrun1 eq_refl)
    as (h' & w' & b' & Hrun & _ & _ & Htotal & Hunl & _).
  exists h', w'. auto.
Defined.

Lemma handleUnlockEpisode_played r answer episode h w :
  MovieDetailPage.played
    (MovieDetailPage.page
       (fst (snd (MovieDetailPage.handleUnlockEpisode r answer episode (h, w)))))
  = MovieDetailPage.played (MovieDetailPage.page h).
Proof.
  destruct (present (MovieDetailPage.user_id r)) as [uid |] eqn:Huid.
  2: { unfold MovieDetailPage.handleUnlockEpisode. rewrite Huid. reflexivity. }
  destruct (Episode.unlock_cost episode) as [cost |] eqn:Hcost.
  2: { unfold MovieDetailPage.handleUnlockEpisode. rewrite Huid, Hcost. reflexivity. }
  destruct (Z.eq_dec cost 0) as [-> | Hne].
  { unfold MovieDetailPage.handleUnlockEpisode. rewrite Huid, Hcost. reflexivity. }
  destruct (UserCoins.canAfford (MovieDetailPage.coins_render r) cost) eqn:Hafford.
  2: { unfold MovieDetailPage.handleUnlockEpisode. rewrite Huid, Hcost, Hafford.
       destruct (Z.eqb_spec cost 0); reflexivity. }
  destruct answer.
  2: { unfold MovieDetailPage.handleUnlockEpisode. rewrite Huid, Hcost, Hafford.
       destruct (Z.eqb_spec cost 0); reflexivity. }
  rewrite (handleUnlockEpisode_confirmed r episode h w uid cost Huid Hcost Hne Hafford).
  cbv zeta.
  destruct (UserCoins.spendCoins (MovieDetailPage.coins_render r) cost
              (MovieDetailPage.coins h, w)) as [[[] | e] [c w1]]; try reflexivity.
  destruct (EpisodeUnlocks.unlockEpisode (MovieDetailPage.unlocks_render r)
              (Episode.id episode) cost (MovieDetailPage.unlocks h, w1))
    as [[[] | e] [u w2]]; reflexivity.
Qed.

Lemma enrichedEpisodes_is_unlocked r data episode :
  In episode (MovieDetailPage.enrichedEpisodes r data) ->
  Episode.is_unlocked episode
  = Some (negb (truthy_boolean (Episode.is_locked episode))
          || EpisodeUnlocks.isEpisodeUnlocked (MovieDetailPage.unlocks_render r)
               (Episode.id episode)).
Proof.
  unfold MovieDetailPage.enrichedEpisodes. rewrite in_map_iff.
  intros (row & <- & _). reflexivity.
Qed.

(** The tile of an episode is the gate of the paywall.  For an episode as
    the page has enriched it: when the episode is not locked, or is in the
    cache of unlocked episodes, a click hands it to the player (if the
    parent has given one) and does nothing else; when it is locked and not
    in the cache, a click never hands it to the player, it starts
    [handleUnlockEpisode]; when such an episode has an [unlock_cost] that is
    missing or [0] (the column defaults to 0), the click does nothing at
    all, so the episode can be neither played nor unlocked from the page;
    and any other cost that the balance of the render covers, a negative one
    as well as a positive one (the column has no [CHECK]), is put to the
    user in a [confirm], which is all that has happened when the answer is
    no. *)
Theorem onEpisodeClick_gate
    (r : MovieDetailPage.Render) (answer : bool) (data : list Episode.t)
    (episode : Episode.t) (h : MovieDetailPage.Hooks) (w : World) :
  In episode (MovieDetailPage.enrichedEpisodes r data) ->
  let locked := truthy_boolean (Episode.is_locked episode) in
  let cached :=
    EpisodeUnlocks.isEpisodeUnlocked (MovieDetailPage.unlocks_render r) (Episode.id episode) in
  (locked = false \/ cached = true ->
   MovieDetailPage.onEpisodeClick r answer episode (h, w)
   = (Returned tt,
      (if MovieDetailPage.onPlayEpisode r then with_page (handed_to_player episode) h else h,
       w)))
  /\ (locked = true -> cached = false ->
      MovieDetailPage.onEpisodeClick r answer episode (h, w)
      = (Returned tt, snd (MovieDetailPage.handleUnlockEpisode r answer episode (h, w)))
      /\ MovieDetailPage.played
           (MovieDetailPage.page
              (fst (snd (MovieDetailPage.onEpisodeClick r answer episode (h, w)))))
         = MovieDetailPage.played (MovieDetailPage.page h))
  /\ (locked = true -> cached = false ->
      truthy_number (Episode.unlock_cost episode) = false ->
      MovieDetailPage.onEpisodeClick r answer episode (h, w) = (Returned tt, (h, w)))
  /\ (forall uid cost,
      locked = true -> cached = false ->
      present (MovieDetailPage.user_id r) = Some uid ->
      Episode.unlock_cost episode = Some cost -> cost <> 0 ->
      UserCoins.canAfford (MovieDetailPage.coins_render r) cost = true ->
      answer = false ->
      MovieDetailPage.onEpisodeClick r answer episode (h, w)
      = (Returned tt, (with_page (asked (MovieDetailPage.unlock_question episode)) h, w))).
Proof.
  intros Hin locked cached.
  pose proof (enrichedEpisodes_is_unlocked r data episode Hin) as Hflag.
  fold locked cached in Hflag.
  unfold MovieDetailPage.onEpisodeClick. rewrite Hflag. fold locked.
  split; [| split; [| split]].
  - intros Hfree.
    assert (Hopen : negb locked || cached = true).
    { destruct Hfree as [-> | ->]; [reflexivity | apply orb_true_r]. }
    simpl. rewrite Hopen.
    destruct (MovieDetailPage.onPlayEpisode r); reflexivity.
  - intros -> ->. simpl. split; [reflexivity |].
    unfold detached. simpl. apply handleUnlockEpisode_played.
  - intros -> -> Hcost. simpl. unfold detached.
    unfold MovieDetailPage.handleUnlockEpisode.
    destruct (present (MovieDetailPage.user_id r)); [| reflexivity].
    destruct (Episode.unlock_cost episode) as [cost |]; [| reflexivity].
    simpl in Hcost. apply negb_false_iff in Hcost. rewrite Hcost. reflexivity.
  - intros uid cost -> -> Huid Hcost Hne Hafford ->. simpl. unfold detached.
    unfold MovieDetailPage.handleUnlockEpisode. rewrite Huid, Hcost, Hafford.
    destruct (Z.eqb_spec cost 0); [contradiction |]. reflexivity.
Qed.

(** A free episode is played; a locked episode whose cost is 0 cannot be
    clicked open; a locked episode whose cost is -5 is put to the user like
    any other. *)
Lemma onEpisodeClick_gate_witness :
  let data := [sample_free_episode 1; sample_episode 2 5; sample_episode 3 0;
               sample_episode 4 (-5)] in
  (exists episode h',
     nth_error (MovieDetailPage.enrichedEpisodes sample_page_render data) 0 = Some episode
     /\ MovieDetailPage.onEpisodeClick sample_page_render true episode
          (sample_page, sample_world [])
        = (Returned tt, (h', sample_world []))
     /\ MovieDetailPage.played (MovieDetailPage.page h') = [episode])
  /\ (exists episode,
        nth_error (MovieDetailPage.enrichedEpisodes sample_page_render data) 2 = Some episode
        /\ MovieDetailPage.onEpisodeClick sample_page_render true episode
             (sample_page, sample_world [])
           = (Returned tt, (sample_page, sample_world [])))
  /\ (exists episode h',
        nth_error (MovieDetailPage.enrichedEpisodes sample_page_render data) 3 = Some episode
        /\ MovieDetailPage.onEpisodeClick sample_page_render false episode
             (sample_page, sample_world [])
           = (Returned tt, (h', sample_world []))
        /\ MovieDetailPage.confirms (MovieDetailPage.page h')
           = ["Unlock Episode 4 for -5 coins?"]).
Proof.
  intros data. split; [| split].
  - eexists. eexists. split; [reflexivity |]. split.
    + refine (proj1 (onEpisodeClick_gate sample_page_render true data _ sample_page
                       (sample_world []) _) _).
      * left. reflexivity.
      * left. reflexivity.
    + reflexivity.
  - eexists. split; [reflexivity |].
    refine (proj1 (proj2 (proj2 (onEpisodeClick_gate sample_page_render true data _
                                   sample_page (sample_world []) _))) _ _ _).
    + right. right. left. reflexivity.
    + reflexivity.
    + reflexivity.
    + reflexivity.
  - eexists. eexists. split; [reflexivity |]. split.
    + refine (proj2 (proj2 (proj2 (onEpisodeClick_gate sample_page_render false data _
                                     sample_page (sample_world []) _)))
                "user-1" (-5) _ _ _ _ _ _ _).
      * right. right. right. left. reflexivity.
      * reflexivity.
      * reflexivity.
      * reflexivity.
      * reflexivity.
      * discriminate.
      * reflexivity.
      * reflexivity.
    + reflexivity.
Defined.

(** ** More of the watchlist *)

Lemma moviesInWatchlist_flagged rows entry :
  In entry (Watchlist.moviesInWatchlist rows) ->
  Watchlist.is_in_watchlist entry = true
  /\ exists row,
       In row rows
       /\ WatchlistRow.movie row = Some (Watchlist.movie entry)
       /\ Watchlist.category_id entry = UserWatchlistItem.category_id (WatchlistRow.item row).
Proof.
  unfold Watchlist.moviesInWatchlist. intros Hin.
  apply list_elem_of_In, list_elem_of_omap in Hin. destruct Hin as (row & Hrow & Hentry).
  apply list_elem_of_In in Hrow.
  destruct (WatchlistRow.movie row) as [m |] eqn:Hm; [| discriminate].
  injection Hentry as <-. simpl. split; [reflexivity |]. exists row. auto.
Qed.

(** [fetchWatchlist] for a signed-in user, by what becomes of the retried
    select, with the state it leaves. *)
Lemma fetchWatchlist_run r st w uid :
  present (Watchlist.userId r) = Some uid ->
  match retried (select_watchlist uid) w with
  | (Returned _, w1) =>
      Watchlist.fetchWatchlist r (st, w)
      = (Returned tt,
         ({| Watchlist.watchlist :=
               Watchlist.moviesInWatchlist (select_watchlist_rows uid (db w));
             Watchlist.watchlistIds := movie_ids (select_watchlist_rows uid (db w));
             Watchlist.loading := false; Watchlist.error := None |}, w1))
      /\ db w1 = db w
  | (Thrown e, w1) =>
      exists pe,
        Watchlist.fetchWatchlist r (st, w)
        = (Returned tt,
           ({| Watchlist.watchlist := []; Watchlist.watchlistIds := ∅;
               Watchlist.loading := false; Watchlist.error := Some (pg_message pe) |},
            addError watchlist_failed w1))
        /\ db w1 = db w
  end.
Proof.
  intros Huid. unfold Watchlist.fetchWatchlist. rewrite Huid.
  pose proof (retried_select (SelectWatchlist uid) (select_watchlist_rows uid) w) as H.
  fold (select_watchlist uid) in H.
  unfold finally, try_catch, bind, set_state, on_world. simpl.
  destruct (retried (select_watchlist uid) w) as [[data | e] w1].
  - destruct H as [-> Hdb]. simpl. auto.
  - destruct H as [Hdb (pe & ->)]. exists pe. simpl. auto.
Qed.


(** ** More of the watchlist categories *)

(** [fetchCategories] for a signed-in user, by what becomes of the retried
    select. *)
Lemma fetchCategories_run r st w uid :
  present (WatchlistCategories.userId r) = Some uid ->
  match withRetry sleep (throw_on_error (select_categories uid)) defaultRetryOptions w with
  | (Returned _, w1) =>
      WatchlistCategories.fetchCategories r (st, w)
      = (Returned tt,
         ({| WatchlistCategories.categories := select_categories_rows uid (db w);
             WatchlistCategories.loading := false;
             WatchlistCategories.error := None |}, w1))
      /\ db w1 = db w /\ errors w1 = errors w
  | (Thrown e, w1) =>
      exists pe,
        WatchlistCategories.fetchCategories r (st, w)
        = (Returned tt,
           ({| WatchlistCategories.categories := [];
               WatchlistCategories.loading := false;
               WatchlistCategories.error := Some (pg_message pe) |},
            addError categories_failed w1))
        /\ db w1 = db w /\ errors w1 = errors w
  end.
Proof.
  intros Huid. unfold WatchlistCategories.fetchCategories. rewrite Huid.
  pose proof (retried_select (SelectCategories uid) (select_categories_rows uid) w) as H.
  fold (select_categories uid) in H.
  pose proof (withRetry_query (SelectCategories uid)
                (fun _ d => inr (select_categories_rows uid d, d)) w) as Hq.
  fold (select_categories uid) in Hq.
  pose proof (withRetry_schedule (SelectCategories uid) (throw_on_error (select_categories uid)) w
                (query_sends_one _ _)) as Hs.
  unfold retried, bind in H.
  unfold finally, try_catch, bind, set_state, on_world, retried, bind. simpl.
  destruct (withRetry sleep (throw_on_error (select_categories uid)) defaultRetryOptions w)
    as [[resp | e] w1].
  - destruct Hq as (a & -> & _). simpl in H |- *. destruct H as [Hdata Hdb].
    injection Hdata as ->. destruct Hs as (k & _ & _ & _ & _ & Herr & _). auto.
  - destruct H as [Hdb (pe & ->)]. destruct Hs as (_ & _ & _ & Herr & _).
    exists pe. simpl. auto.
Qed.



(** A request that meets no fault and that the tables accept answers at its
    first attempt. *)
Lemma query_answers_when_up {A} req (exec : Z -> Database -> PostgrestError + A * Database)
    w a d :
  net w = [] ->
  exec (clock w) (db w) = inr (a, d) ->
  withRetry sleep (throw_on_error (query req exec)) defaultRetryOptions w
  = (Returned (Response.ok a), set_db d (snd (send req w))).
Proof.
  intros Hnet Hex. unfold withRetry.
  change (Z.to_nat (maxRetries_of defaultRetryOptions + 1)) with 4%nat.
  apply retry_loop_returns; [vm_compute; discriminate |].
  unfold throw_on_error, bind, query, send. rewrite Hnet. simpl. rewrite Hex. reflexivity.
Qed.

(** [deleteCategory] does not look at what the deletion has matched.  With
    the network up, the deletion of a category the user does not have (the
    id, a well-formed uuid, is unknown, or is that of a category of another
    user) leaves the tables as they were, and [deleteCategory] still returns
    [true] and announces ['Category deleted successfully.'].  (An id that is
    not a uuid is refused by the column type; the statement is about the ids
    the database can hold.) *)
Theorem deleteCategory_reports_success_without_match
    (r : WatchlistCategories.Render) (st : WatchlistCategories.State) (w : World)
    (uid cid : string) :
  present (WatchlistCategories.userId r) = Some uid ->
  is_uuid uid = true ->
  is_uuid cid = true ->
  net w = [] ->
  category_deleted cid uid (db w) = false ->
  exists st' w' entry,
    WatchlistCategories.deleteCategory r cid (st, w) = (Returned true, (st', w'))
    /\ db w' = db w
    /\ requests w' = requests w ++ [DeleteCategory cid uid; SelectCategories uid]
    /\ errors w' = errors w ++ [entry]
    /\ ErrorMessage.type entry = Severity.info
    /\ ErrorMessage.message entry = "Category deleted successfully.".
Proof.
  intros Huid _ _ Hnet Hdel.
  unfold WatchlistCategories.deleteCategory. rewrite Huid.
  assert (Hrows : delete_category_rows cid uid (db w) = db w).
  { unfold delete_category_rows. unfold category_deleted in Hdel. rewrite Hdel. reflexivity. }
  pose proof (query_answers_when_up (DeleteCategory cid uid)
                (fun _ d => inr (tt, delete_category_rows cid uid d)) w tt
                (delete_category_rows cid uid (db w)) Hnet eq_refl) as Hrun.
  fold (delete_category cid uid) in Hrun. rewrite Hrows in Hrun.
  unfold try_catch, bind at 1, on_world, retried, bind at 1. rewrite Hrun.
  cbn -[bind WatchlistCategories.fetchCategories notify send set_db].
  set (w1 := set_db (db w) (snd (send (DeleteCategory cid uid) w))).
  assert (Hnet1 : net w1 = []) by (unfold w1; simpl; rewrite Hnet; reflexivity).
  pose proof (query_answers_when_up (SelectCategories uid)
                (fun _ d => inr (select_categories_rows uid d, d)) w1
                (select_categories_rows uid (db w1)) (db w1) Hnet1 eq_refl) as Hsel.
  fold (select_categories uid) in Hsel.
  pose proof (fetchCategories_run r st w1 uid Huid) as Hfetch.
  rewrite Hsel in Hfetch. destruct Hfetch as (Hfetch & _ & _).
  unfold bind at 1. rewrite Hfetch. unfold bind. rewrite notify_run. unfold ret.
  destruct (addError_unfold category_deleted_notice
              (set_db (db w1) (snd (send (SelectCategories uid) w1))))
    as (Herr & _ & _ & Hdb & Hreq & _).
  eexists. eexists. eexists. split; [reflexivity |].
  split; [exact Hdb |].
  split; [unfold category_deleted_notice in Hreq; rewrite Hreq; simpl;
          rewrite <- app_assoc; reflexivity |].
  split; [exact Herr |]. split; reflexivity.
Qed.

(** [sample_reader] deletes the category of [sample_owner], and then a
    category nobody has: both times the tables stay as they are and the
    deletion is announced. *)
Lemma deleteCategory_reports_success_without_match_witness :
  (exists st' w',
    WatchlistCategories.deleteCategory sample_reader_render
      "3b241101-e2bb-4255-8caf-4136c566a962"
      (WatchlistCategories.seen sample_reader_render, sample_shared_world)
    = (Returned true, (st', w'))
    /\ db w' = db sample_shared_world
    /\ map ErrorMessage.message (errors w') = ["Category deleted successfully."])
  /\ (exists st' w',
    WatchlistCategories.deleteCategory sample_reader_render
      "ffffffff-0000-4000-8000-000000000000"
      (WatchlistCategories.seen sample_reader_render, sample_shared_world)
    = (Returned true, (st', w'))
    /\ db w' = db sample_shared_world
    /\ map ErrorMessage.message (errors w') = ["Category deleted successfully."]).
Proof.
  split.
  - destruct (deleteCategory_reports_success_without_match sample_reader_render
                (WatchlistCategories.seen sample_reader_render) sample_shared_world
                sample_reader "3b241101-e2bb-4255-8caf-4136c566a962"
                eq_refl eq_refl eq_refl eq_refl eq_refl)
      as (st' & w' & entry & Hrun & Hdb & _ & Herr & _ & Hmsg).
    exists st', w'. split; [exact Hrun |]. split; [exact Hdb |].
    rewrite Herr. simpl. rewrite Hmsg. reflexivity.
  - destruct (deleteCategory_reports_success_without_match sample_reader_render
                (WatchlistCategories.seen sample_reader_render) sample_shared_world
                sample_reader "ffffffff-0000-4000-8000-000000000000"
                eq_refl eq_refl eq_refl eq_refl eq_refl)
      as (st' & w' & entry & Hrun & Hdb & _ & Herr & _ & Hmsg).
    exists st', w'. split; [exact Hrun |]. split; [exact Hdb |].
    rewrite Herr. simpl. rewrite Hmsg. reflexivity.
Defined.


Lemma insert_by_map {A} (le : A -> A -> bool) (f : A -> A) x l :
  (forall a b, le (f a) (f b) = le a b) ->
  insert_by le (f x) (map f l) = map f (insert_by le x l).
Proof.
  intros Hle. induction l as [| y l IH]; simpl; [reflexivity |].
  rewrite Hle. destruct (le x y); simpl; [reflexivity |]. rewrite IH. reflexivity.
Qed.

Lemma sort_by_map {A} (le : A -> A -> bool) (f : A -> A) l :
  (forall a b, le (f a) (f b) = le a b) ->
  sort_by le (map f l) = map f (sort_by le l).
Proof.
  intros Hle. unfold sort_by. induction l as [| x l IH]; simpl; [reflexivity |].
  rewrite IH. apply insert_by_map. assumption.
Qed.

Lemma filter_map_comm {A} (p : A -> bool) (f : A -> A) l :
  (forall a, p (f a) = p a) ->
  List.filter p (map f l) = map f (List.filter p l).
Proof.
  intros Hp. induction l as [| x l IH]; simpl; [reflexivity |].
  rewrite Hp. destruct (p x); simpl; rewrite IH; reflexivity.
Qed.

Lemma on_delete_set_null_fields cid it :
  UserWatchlistItem.user_id (on_delete_set_null cid it) = UserWatchlistItem.user_id it
  /\ UserWatchlistItem.movie_id (on_delete_set_null cid it) = UserWatchlistItem.movie_id it
  /\ UserWatchlistItem.created_at (on_delete_set_null cid it) = UserWatchlistItem.created_at it
  /\ UserWatchlistItem.category_id (on_delete_set_null cid it) <> Some cid.
Proof.
  unfold on_delete_set_null.
  destruct (UserWatchlistItem.category_id it) as [c |] eqn:Hc.
  - destruct (String.eqb_spec c cid) as [-> | Hne]; simpl.
    + repeat split. discriminate.
    + repeat split. rewrite Hc. congruence.
  - repeat split. rewrite Hc. discriminate.
Qed.

(** The rows the select of the watchlist finds once a category is gone. *)
Lemma select_watchlist_rows_after_delete uid cid d :
  category_deleted cid uid d = true ->
  map WatchlistRow.movie (select_watchlist_rows uid (delete_category_rows cid uid d))
  = map WatchlistRow.movie (select_watchlist_rows uid d)
  /\ forall row, In row (select_watchlist_rows uid (delete_category_rows cid uid d)) ->
       UserWatchlistItem.category_id (WatchlistRow.item row) <> Some cid.
Proof.
  intros Hdel. unfold delete_category_rows. unfold category_deleted in Hdel. rewrite Hdel.
  unfold select_watchlist_rows. simpl.
  rewrite (filter_map_comm _ (on_delete_set_null cid))
    by (intros it; destruct (on_delete_set_null_fields cid it) as (-> & _); reflexivity).
  rewrite (sort_by_map _ (on_delete_set_null cid))
    by (intros a b; destruct (on_delete_set_null_fields cid a) as (_ & _ & -> & _);
        destruct (on_delete_set_null_fields cid b) as (_ & _ & -> & _); reflexivity).
  split.
  - rewrite !map_map. apply map_ext. intros it. simpl.
    destruct (on_delete_set_null_fields cid it) as (_ & -> & _). reflexivity.
  - intros row Hin. apply in_map_iff in Hin. destruct Hin as (it' & <- & Hin).
    apply in_map_iff in Hin. destruct Hin as (it & <- & _). simpl.
    apply on_delete_set_null_fields.
Qed.

Lemma moviesInWatchlist_movies rows rows' :
  map WatchlistRow.movie rows = map WatchlistRow.movie rows' ->
  map Watchlist.movie (Watchlist.moviesInWatchlist rows)
  = map Watchlist.movie (Watchlist.moviesInWatchlist rows').
Proof.
  unfold Watchlist.moviesInWatchlist.
  revert rows'. induction rows as [| row rows IH]; intros [| row' rows'] Heq;
    try discriminate; [reflexivity |].
  simpl in Heq. injection Heq as Hm Heq. simpl. rewrite <- Hm.
  destruct (WatchlistRow.movie row); simpl; [f_equal |]; apply IH; assumption.
Qed.

(** Deleting a category loses no movie of the watchlist.  After a
    [deleteCategory] that returned [true] for a category the user had, a
    [fetchWatchlist] that succeeds loads the same movies, in the same order,
    as the table held before the deletion, and none of the entries refers to
    the deleted category any more. *)
Theorem deleteCategory_then_fetchWatchlist
    (rc : WatchlistCategories.Render) (stc : WatchlistCategories.State)
    (rw : Watchlist.Render) (stw : Watchlist.State) (w : World) (uid cid : string)
    (stc' : WatchlistCategories.State) (w' : World) (stw' : Watchlist.State) (w'' : World) :
  present (WatchlistCategories.userId rc) = Some uid ->
  present (Watchlist.userId rw) = Some uid ->
  category_deleted cid uid (db w) = true ->
  WatchlistCategories.deleteCategory rc cid (stc, w) = (Returned true, (stc', w')) ->
  Watchlist.fetchWatchlist rw (stw, w') = (Returned tt, (stw', w'')) ->
  Watchlist.error stw' = None ->
  map Watchlist.movie (Watchlist.watchlist stw')
  = map Watchlist.movie (Watchlist.moviesInWatchlist (select_watchlist_rows uid (db w)))
  /\ (forall entry, In entry (Watchlist.watchlist stw') ->
        Watchlist.category_id entry <> Some cid)
  /\ (forall id, Watchlist.isInWatchlist (watchlist_next rw stw') id = true
                 <-> id ∈ movie_ids (select_watchlist_rows uid (db w))).
Proof.
  intros Huidc Huidw Hdel Hrun Hfetch Herr.
  pose proof (deleteCategory_tables rc stc w uid cid stc' w' Huidc Hrun) as Hdb.
  pose proof (fetchWatchlist_run rw stw w' uid Huidw) as H.
  destruct (retried (select_watchlist uid) w') as [[data | e] w1].
  2: { destruct H as (pe & H & _). rewrite Hfetch in H. injection H as -> _. discriminate. }
  destruct H as [H _]. rewrite Hfetch in H. injection H as -> _. simpl.
  rewrite Hdb.
  destruct (select_watchlist_rows_after_delete uid cid (db w) Hdel) as [Hmovies Hcat].
  assert (Hsame : map Watchlist.movie
                    (Watchlist.moviesInWatchlist
                       (select_watchlist_rows uid (delete_category_rows cid uid (db w))))
                  = map Watchlist.movie
                      (Watchlist.moviesInWatchlist (select_watchlist_rows uid (db w)))).
  { apply moviesInWatchlist_movies. assumption. }
  split; [assumption |]. split.
  - intros entry Hin.
    destruct (moviesInWatchlist_flagged _ _ Hin) as (_ & row & Hrow & _ & ->).
    apply Hcat. assumption.
  - intros id. unfold Watchlist.isInWatchlist, movie_ids. simpl.
    rewrite bool_decide_eq_true.
    rewrite <- !(map_map Watchlist.movie Movie.id), Hsame. reflexivity.
Qed.

Lemma deleteCategory_then_fetchWatchlist_witness :
  exists stc' w' stw' w'',
    WatchlistCategories.deleteCategory sample_categories_render "cat-1"
      (sample_categories, sample_world []) = (Returned true, (stc', w'))
    /\ Watchlist.fetchWatchlist sample_watchlist_render (sample_watchlist, w')
       = (Returned tt, (stw', w''))
    /\ map (fun entry => Movie.id (Watchlist.movie entry)) (Watchlist.watchlist stw') = [2; 1]
    /\ (forall entry, In entry (Watchlist.watchlist stw') ->
          Watchlist.category_id entry <> Some "cat-1").
Proof.
  destruct (WatchlistCategories.deleteCategory sample_categories_render "cat-1"
              (sample_categories, sample_world [])) as [o1 [stc' w']] eqn:Hrun.
  pose proof Hrun as Hc. vm_compute in Hc. injection Hc as <- <- <-.
  match type of Hrun with
  | _ = (_, (_, ?w')) =>
      destruct (Watchlist.fetchWatchlist sample_watchlist_render (sample_watchlist, w'))
        as [o2 [stw' w'']] eqn:Hfetch
  end.
  pose proof Hfetch as Hc. vm_compute in Hc. injection Hc as <- <- <-.
  destruct (deleteCategory_then_fetchWatchlist sample_categories_render sample_categories
              sample_watchlist_render sample_watchlist (sample_world []) "user-1" "cat-1"
              _ _ _ _ eq_refl eq_refl eq_refl Hrun Hfetch eq_refl) as (Hmovies & Hcat & _).
  eexists. eexists. eexists. eexists.
  split; [exact Hrun |]. split; [exact Hfetch |].
  split; [| exact Hcat].
  rewrite <- (map_map Watchlist.movie Movie.id), Hmovies. reflexivity.
Defined.
(** ** The form of the sign-in page *)

(** What the form accepts.  [validateForm] returns [true] exactly when the
    email contains an ['@'], the password has at least six characters and,
    when signing up, the confirmation repeats the password (the test for
    empty fields decides the message only, and a login does not look at the
    confirmation).  It then leaves the state as it is; otherwise it sets the
    [error] cell to the message of the first test that failed, and nothing
    else. *)
Theorem validateForm_accepts (r : AuthPage.Render) (st : AuthPage.State) :
  let form := AuthPage.formData (AuthPage.seen r) in
  (fst (AuthPage.validateForm r st) = true
   <-> includes (AuthPage.email form) "@" = true
       /\ (6 <= String.length (AuthPage.password form))%nat
       /\ (AuthPage.isLogin (AuthPage.seen r) = true
           \/ AuthPage.password form = AuthPage.confirmPassword form))
  /\ (fst (AuthPage.validateForm r st) = true -> snd (AuthPage.validateForm r st) = st)
  /\ (fst (AuthPage.validateForm r st) = false ->
      exists message,
        snd (AuthPage.validateForm r st) = AuthPage.setError (Some message) st
        /\ (message = "Please fill in all required fields"
            \/ message = "Please enter a valid email address"
            \/ message = "Password must be at least 6 characters long"
            \/ message = "Passwords do not match")).
Proof.
  intros form. unfold AuthPage.validateForm. fold form.
  destruct (String.eqb_spec (AuthPage.email form) "") as [He | He]; simpl.
  { rewrite He. split; [| split].
    - split; [discriminate | intros [H _]; discriminate].
    - discriminate.
    - intros _. eexists. split; [reflexivity |]. auto. }
  destruct (String.eqb_spec (AuthPage.password form) "") as [Hp | Hp]; simpl.
  { rewrite Hp. split; [| split].
    - split; [discriminate | intros (_ & H & _); simpl in H; lia].
    - discriminate.
    - intros _. eexists. split; [reflexivity |]. auto. }
  destruct (includes (AuthPage.email form) "@") eqn:Hat; simpl.
  2: { split; [| split].
       - split; [discriminate | intros [H _]; discriminate].
       - discriminate.
       - intros _. eexists. split; [reflexivity |]. auto. }
  destruct (Nat.ltb_spec (String.length (AuthPage.password form)) 6) as [Hlen | Hlen].
  { split; [| split].
    - split; [discriminate | intros (_ & H & _); lia].
    - discriminate.
    - intros _. eexists. split; [reflexivity |]. auto. }
  destruct (AuthPage.isLogin (AuthPage.seen r)); simpl.
  { split; [| split]; [| reflexivity | discriminate].
    split; [auto | reflexivity]. }
  destruct (String.eqb_spec (AuthPage.password form) (AuthPage.confirmPassword form))
    as [Hc | Hc]; simpl.
  - split; [| split]; [| reflexivity | discriminate].
    split; [auto | reflexivity].
  - split; [| split].
    + split; [discriminate | intros (_ & _ & [H | H]); [discriminate | contradiction]].
    + discriminate.
    + intros _. eexists. split; [reflexivity |]. auto 6.
Qed.

Lemma validateForm_accepts_witness :
  let login :=
    {| AuthPage.seen :=
         {| AuthPage.isLogin := true; AuthPage.error := None; AuthPage.success := None;
            AuthPage.formData :=
              {| AuthPage.email := "ana@example.org"; AuthPage.password := "secret";
                 AuthPage.confirmPassword := "" |} |} |} in
  fst (AuthPage.validateForm login (AuthPage.seen login)) = true
  /\ snd (AuthPage.validateForm login (AuthPage.seen login)) = AuthPage.seen login.
Proof.
  intros login.
  destruct (validateForm_accepts login (AuthPage.seen login)) as (Hiff & Hsame & _).
  assert (Hok : fst (AuthPage.validateForm login (AuthPage.seen login)) = true).
  { apply Hiff. split; [reflexivity |]. split; [simpl; lia | left; reflexivity]. }
  split; [exact Hok | exact (Hsame Hok)].
Defined.
(** ** [isNetworkError] *)

(** [isNetworkError] looks at instances of [Error] only.  The errors of the
    database client are plain objects, so none of them is a network error,
    not even the one the client reports when the request could not be sent,
    whose message [getErrorMessage] extracts as ['TypeError: Failed to
    fetch']; nor is a string or any other value that is not an [Error].  An
    [Error] named ['NetworkError'] is one whatever its message.  All this
    holds however [toLowerCase] maps the characters. *)
Theorem isNetworkError_only_errors (toLowerCase : string -> string) :
  (forall pe, isNetworkError toLowerCase (js_of_error pe) = false)
  /\ (isNetworkError toLowerCase (js_of_error failed_to_fetch) = false
      /\ getErrorMessage (js_of_error failed_to_fetch) = Returned "TypeError: Failed to fetch")
  /\ (forall error,
        (forall name message, error <> JsError name message) ->
        isNetworkError toLowerCase error = false)
  /\ (forall message, isNetworkError toLowerCase (JsError "NetworkError" message) = true)
  /\ (forall name message,
        isNetworkError toLowerCase (JsError name message) = true ->
        name = "NetworkError"
        \/ includes (toLowerCase message) "network" = true
        \/ includes (toLowerCase message) "fetch" = true
        \/ includes (toLowerCase message) "connection" = true).
Proof.
  split; [reflexivity |]. split; [split; reflexivity |]. split; [| split].
  - intros error Hne. destruct error; try reflexivity. exfalso. eapply Hne. reflexivity.
  - intros message. simpl. apply orb_true_r.
  - intros name message H. simpl in H.
    apply orb_true_iff in H. destruct H as [H | H]; [| left; apply String.eqb_eq; assumption].
    apply orb_true_iff in H. destruct H as [H | H]; [| auto].
    apply orb_true_iff in H. destruct H as [H | H]; auto.
Qed.

Lemma isNetworkError_only_errors_witness :
  isNetworkError (fun s => s) (JsString "network down") = false
  /\ isNetworkError (fun s => s) (JsError "NetworkError" "") = true.
Proof.
  destruct (isNetworkError_only_errors (fun s => s)) as (_ & _ & Hother & Hname & _).
  split.
  - apply Hother. intros name message. discriminate.
  - apply Hname.
Defined.
